(** * Temporal analysis and job orchestration pipeline

    A shallow embedding of the microbial-segmentation backend
    ([backend/app/video_utils.py], [postprocessing.py], [job_manager.py],
    the analysis part and the registry calls of [inference.py] and the
    endpoints and background functions of [main.py]) together with the
    properties its specification states about it.

    Conventions of the embedding.
    - Python [int] is [Z]; list indices and lengths are [nat].
    - Python [float] is the carrier of the class [PyFloat], which lists the
      float operations the code performs.  The definitions are written once
      over that class; [IEEE] interprets it with binary64 machine floats and
      [Exact] with the real numbers.
    - [np.log], [np.mean] and [np.std] belong to NumPy and are the class
      [NumPy]; [skimage.measure] and [cv2] are the class [ImageLib].
    - A raised exception is the [None] of an [option]. *)

From Stdlib Require Import ZArith QArith Reals Lra Lia List Floats.
From stdpp Require Import gmap strings list fin_maps sorting pretty.

Close Scope R_scope.
Close Scope Q_scope.
Local Open Scope Z_scope.

(** ** Python floats *)

(** The float operations used by the code.  [of_int] is the implicit
    int-to-float conversion of mixed arithmetic, [lit] reads a decimal
    literal.  Every division of the code has a divisor that cannot be zero
    (a positive number, or an integer plus [1e-6]), so [fdiv] is total. *)
Class PyFloat := {
  pyfloat : Type;
  of_int : Z → pyfloat;
  lit : Q → pyfloat;
  fadd : pyfloat → pyfloat → pyfloat;
  fmul : pyfloat → pyfloat → pyfloat;
  fdiv : pyfloat → pyfloat → pyfloat;
  fgt : pyfloat → pyfloat → bool;
  fge : pyfloat → pyfloat → bool;
  flt : pyfloat → pyfloat → bool
}.

(** The NumPy functions called by [detect_division_events] and by the
    growth-rate loop of the pipeline. *)
Class NumPy `{PyFloat} := {
  np_log : pyfloat → pyfloat;
  np_mean : list pyfloat → pyfloat;
  np_std : list pyfloat → pyfloat
}.

(** The literals that occur in the source. *)
Definition f0_0 `{PyFloat} : pyfloat := lit (0 # 1).
Definition f1_0 `{PyFloat} : pyfloat := lit (1 # 1).
Definition f2_0 `{PyFloat} : pyfloat := lit (2 # 1).
Definition f3_0 `{PyFloat} : pyfloat := lit (3 # 1).
Definition f1_8 `{PyFloat} : pyfloat := lit (18 # 10).
Definition f0_8 `{PyFloat} : pyfloat := lit (8 # 10).
Definition f1e_6 `{PyFloat} : pyfloat := lit (1 # 1000000).

(** *** binary64 interpretation *)

(** Nearest-even rounding of an integer, as CPython's [int.__float__]
    (which raises OverflowError where this gives an infinity). *)
Definition Z2float (z : Z) : float :=
  SF2Prim (binary_normalize prec emax z 0 false).

(** A literal [n/d] whose numerator and denominator are below [2^53] is
    the correctly rounded quotient. *)
Definition Q2float (q : Q) : float :=
  PrimFloat.div (Z2float (Qnum q)) (Z2float (Zpos (Qden q))).

Definition IEEE : PyFloat := {|
  pyfloat := float;
  of_int := Z2float;
  lit := Q2float;
  fadd := PrimFloat.add;
  fmul := PrimFloat.mul;
  fdiv := PrimFloat.div;
  fgt := fun x y => PrimFloat.ltb y x;
  fge := fun x y => PrimFloat.leb y x;
  flt := PrimFloat.ltb
|}.

(** *** Exact interpretation *)

Definition Rgtb (x y : R) : bool := if Rgt_dec x y then true else false.
Definition Rgeb (x y : R) : bool := if Rge_dec x y then true else false.
Definition Rltb (x y : R) : bool := if Rlt_dec x y then true else false.

Definition Exact : PyFloat := {|
  pyfloat := R;
  of_int := IZR;
  lit := Q2R;
  fadd := Rplus;
  fmul := Rmult;
  fdiv := Rdiv;
  fgt := Rgtb;
  fge := Rgeb;
  flt := Rltb
|}.

Definition Rsum (l : list R) : R := fold_right Rplus 0%R l.
Definition Rmean (l : list R) : R := (Rsum l / INR (length l))%R.
(** Population standard deviation ([ddof = 0], NumPy's default). *)
Definition Rstd (l : list R) : R :=
  R_sqrt.sqrt (Rmean (map (fun x => ((x - Rmean l) * (x - Rmean l))%R) l)).

Definition ExactNumPy : @NumPy Exact := {|
  np_log := ln : @pyfloat Exact → @pyfloat Exact;
  np_mean := Rmean : list (@pyfloat Exact) → @pyfloat Exact;
  np_std := Rstd : list (@pyfloat Exact) → @pyfloat Exact
|}.

(** ** video_utils.py *)

(** [range(lo, hi)] for non-negative bounds. *)
Definition py_range (lo hi : nat) : list nat := seq lo (hi - lo).

(** [[all_frames[center_idx - half_window + i] for i in range(window_size)]];
    an index past the end raises IndexError. *)
Definition window_frames {A} (all_frames : list A)
    (center_idx half_window window_size : nat) : option (list A) :=
  mapM (fun i => all_frames !! (center_idx - half_window + i)%nat)
       (py_range 0 window_size).

Definition create_frame_sequence {A} (all_frames : list A)
    (window_size : nat) : option (list (nat * list A)) :=
  let half_window := (window_size / 2)%nat in
  mapM (fun center_idx =>
          w ← window_frames all_frames center_idx half_window window_size;
          Some (center_idx, w))
       (py_range half_window (length all_frames - half_window)).

(** ** Images and the image libraries *)

(** An [H × W] array is the list of its rows. *)
Abbreviation image A := (list (list A)) (only parsing).

Definition imap {A B} (f : A → B) (img : image A) : image B :=
  fmap (M := list) (fmap (M := list) f) img.

Definition imap2 {A B C} (f : A → B → C) (a : image A) (b : image B) : image C :=
  zip_with (zip_with f) a b.

(** [np.zeros_like]. *)
Definition zeros_like {A} (img : image A) : image Z := imap (fun _ => 0) img.

Definition pixels {A} (img : image A) : list A := concat img.

(** [img[r, c]], when the position is inside the array. *)
Definition pixel {A} (img : image A) (r c : nat) : option A :=
  row ← img !! r; row !! c.

Inductive morph_shape := MORPH_RECT | MORPH_CROSS | MORPH_ELLIPSE.

(** The attributes of a [skimage] region that the code reads.  A region
    always has the attribute [solidity], so the [hasattr] test of
    [classify_phenotype] succeeds. *)
Record region `{PyFloat} := {
  label : Z;
  area : Z;
  minor_axis_length : pyfloat;
  major_axis_length : pyfloat;
  bbox : Z * Z * Z * Z;
  solidity : pyfloat;
  centroid : pyfloat * pyfloat
}.

(** [skimage.measure.label], [skimage.measure.regionprops],
    [cv2.getStructuringElement] and [cv2.erode].  [measure_label img c] is
    [measure.label(img, connectivity=c)]; it returns an array of the shape
    of [img], so the boolean index of [clean_mask] always fits. *)
Class ImageLib `{PyFloat} := {
  measure_label : image Z → nat → image Z;
  regionprops : image Z → list region;
  getStructuringElement : morph_shape → Z * Z → image Z;
  cv2_erode : image Z → image Z → nat → image Z
}.

(** ** postprocessing.py *)

Section Postprocessing.
Context `{PF : PyFloat} `{NP : !NumPy} `{IL : !ImageLib}.

(** [cleaned[labeled == l] = 1]. *)
Definition assign_where (cleaned labeled : image Z) (l : Z) : image Z :=
  imap2 (fun c lab => if lab =? l then 1 else c) cleaned labeled.

(** [(mask > 0).astype(np.uint8)]. *)
Definition binarize (mask : image pyfloat) : image Z :=
  imap (fun p => if fgt p (of_int 0) then 1 else 0) mask.

(** The loop [for prop in props: if prop.area >= min_area: ...] of
    [clean_mask], started from [cleaned]. *)
Definition keep_large_components (labeled : image Z) (props : list region)
    (min_area : Z) (cleaned : image Z) : image Z :=
  foldl (fun cleaned prop =>
           if area prop >=? min_area
           then assign_where cleaned labeled (label prop)
           else cleaned)
        cleaned props.

Definition clean_mask (mask : image pyfloat) (min_area : Z)
    (erosion_kernel_size : Z) : image Z :=
  let mask_binary := binarize mask in
  let labeled := measure_label mask_binary 2 in
  let props := regionprops labeled in
  let cleaned :=
    keep_large_components labeled props min_area (zeros_like mask_binary) in
  if erosion_kernel_size >? 0 then
    let kernel := getStructuringElement MORPH_ELLIPSE
                    (erosion_kernel_size, erosion_kernel_size) in
    cv2_erode cleaned kernel 1
  else cleaned.

Definition default_min_area : Z := 300.
Definition default_erosion_kernel_size : Z := 3.

Definition compute_biomass (mask : image Z) : Z :=
  Z.of_nat (length (filter (fun p => 0 < p) (pixels mask))).

Definition aspect_ratio (r : region) : pyfloat :=
  if fgt (minor_axis_length r) (of_int 0) then
    fdiv (major_axis_length r) (minor_axis_length r)
  else
    let '(minr, minc, maxr, maxc) := bbox r in
    let height := maxr - minr in
    let width := maxc - minc in
    fdiv (of_int (Z.max height width))
         (fadd (of_int (Z.min height width)) f1e_6).

Definition classify_phenotype (r : region) : string :=
  let aspect_ratio := aspect_ratio r in
  let area := area r in
  let solidity := solidity r in
  if fge aspect_ratio f3_0 then "elongated"
  else if fge aspect_ratio f2_0 && flt aspect_ratio f3_0 then
    if area >? 200 then "rod_like" else "other"
  else if flt aspect_ratio f1_8 && fge solidity f0_8 then "compact"
  else "other".

(** The aspect ratio and the classification as the specification words
    them: the fallback is the plain ratio of the long to the short side of
    the bounding box. *)
Definition aspect_ratio_spec (r : region) : pyfloat :=
  if fgt (minor_axis_length r) (of_int 0) then
    fdiv (major_axis_length r) (minor_axis_length r)
  else
    let '(minr, minc, maxr, maxc) := bbox r in
    let height := maxr - minr in
    let width := maxc - minc in
    fdiv (of_int (Z.max height width)) (of_int (Z.min height width)).

Definition classify_phenotype_spec (r : region) : string :=
  let ar := aspect_ratio_spec r in
  if fge ar f3_0 then "elongated"
  else if fge ar f2_0 && flt ar f3_0 then
    if area r >? 200 then "rod_like" else "other"
  else if flt ar f1_8 && fge (solidity r) f0_8 then "compact"
  else "other".

Record component := {
  c_label : Z;
  c_phenotype : string;
  c_area : Z;
  c_centroid : pyfloat * pyfloat;
  c_bbox : Z * Z * Z * Z
}.

(** [d[k] += 1]; KeyError when [k] is not a key. *)
Definition incr (d : gmap string Z) (k : string) : option (gmap string Z) :=
  n ← d !! k; Some (<[k := n + 1]> d).

Definition phenotype_counts0 : gmap string Z :=
  <["rod_like" := 0]> (<["elongated" := 0]> (<["compact" := 0]>
    (<["other" := 0]> ∅))).

(** One round of the loop of [analyze_frame]. *)
Definition analyze_step (acc : gmap string Z * list component)
    (prop : region) : option (gmap string Z * list component) :=
  let '(phenotype_counts, components) := acc in
  let phenotype := classify_phenotype prop in
  phenotype_counts ← incr phenotype_counts phenotype;
  Some (phenotype_counts,
        components ++ [ {| c_label := label prop;
                           c_phenotype := phenotype;
                           c_area := area prop;
                           c_centroid := centroid prop;
                           c_bbox := bbox prop |} ]).

Definition analyze_frame (mask : image Z)
    : option (Z * gmap string Z * list component) :=
  let biomass := compute_biomass mask in
  let labeled := measure_label mask 2 in
  let props := regionprops labeled in
  acc ← foldl (fun acc prop => acc ≫= (fun a => analyze_step a prop))
              (Some (phenotype_counts0, [])) props;
  Some (biomass, acc.1, acc.2).

(** What the loop of [analyze_frame] maintains: the four keys, their
    non-negative counts adding up to the number of components, and one
    component per region with the phenotype of that region. *)
Definition counts_ok (pc : gmap string Z) (comps : list component)
    (props : list region) : Prop :=
  dom pc = ({["rod_like"; "elongated"; "compact"; "other"]} : gset string)
  ∧ (∃ n1 n2 n3 n4,
       pc !! "rod_like" = Some n1 ∧ pc !! "elongated" = Some n2
       ∧ pc !! "compact" = Some n3 ∧ pc !! "other" = Some n4
       ∧ 0 ≤ n1 ∧ 0 ≤ n2 ∧ 0 ≤ n3 ∧ 0 ≤ n4
       ∧ n1 + n2 + n3 + n4 = Z.of_nat (length comps))
  ∧ length comps = length props
  ∧ c_phenotype <$> comps = classify_phenotype <$> props.

(** The growth-rate loop, written twice in the source: in
    [detect_division_events] and in [_run_inference_pipeline].  The
    indices of both loops stay inside the list. *)
Definition growth_rate_loop (biomass_history : list Z) : list pyfloat :=
  fmap (fun i =>
         if nth (i - 1) biomass_history 0 >? 0 then
           np_log (fdiv (of_int (nth i biomass_history 0))
                        (fadd (of_int (nth (i - 1) biomass_history 0)) f1e_6))
         else f0_0)
      (py_range 1 (length biomass_history)).

(** The growth rate the loop computes between two equal, positive biomass
    values [v]. *)
Definition steady_rate (v : Z) : pyfloat :=
  np_log (fdiv (of_int v) (fadd (of_int v) f1e_6)).

Definition growth_spike (growth_rates : list pyfloat)
    (mean_rate std_rate growth_spike_std : pyfloat) (i : nat) : bool :=
  if fgt std_rate (of_int 0) then
    fgt (nth i growth_rates f0_0)
        (fadd mean_rate (fmul growth_spike_std std_rate))
  else false.

Definition component_increase (component_counts : list Z)
    (component_increase_threshold : Z) (frame_idx : nat) : bool :=
  if (frame_idx <? length component_counts)%nat && (0 <? frame_idx)%nat then
    let comp_change := nth frame_idx component_counts 0
                       - nth (frame_idx - 1) component_counts 0 in
    comp_change >=? component_increase_threshold
  else false.

Definition detect_division_events (biomass_history component_counts : list Z)
    (growth_spike_std : pyfloat) (component_increase_threshold : Z)
    : list nat :=
  if (length biomass_history <? 3)%nat then []
  else
    let growth_rates := growth_rate_loop biomass_history in
    if (length growth_rates =? 0)%nat then []
    else
      let mean_rate := np_mean growth_rates in
      let std_rate := np_std growth_rates in
      omap (fun i =>
              let frame_idx := (i + 1)%nat in
              if growth_spike growth_rates mean_rate std_rate
                   growth_spike_std i
                 || component_increase component_counts
                      component_increase_threshold frame_idx
              then Some frame_idx else None)
           (py_range 1 (length growth_rates)).

(** The keyword defaults of [detect_division_events]. *)
Definition default_growth_spike_std : pyfloat := f1_0.
Definition default_component_increase_threshold : Z := 1.

(** A call of [detect_division_events]; a keyword argument left out is
    [None]. *)
Definition detect_division_events_call (biomass_history component_counts : list Z)
    (growth_spike_std : option pyfloat)
    (component_increase_threshold : option Z) : list nat :=
  detect_division_events biomass_history component_counts
    (default default_growth_spike_std growth_spike_std)
    (default default_component_increase_threshold component_increase_threshold).

End Postprocessing.

(** ** inference.py: the analysis part of [_run_inference_pipeline]

    The pipeline windows the frames, analyses every window, detects the
    division events, computes the growth rates and builds the metrics
    table.  Progress reports to the job registry, overlay rendering and the
    writing of files happen in between and do not enter these values; they
    are left out. *)

(** The numeric front end of the pipeline: the per-frame normalisation and,
    per window, [build_13channel_input], the network and the sigmoid.  The
    predictor may raise (a shape mismatch between the frames of a window). *)
Class Predictor `{PyFloat} := {
  normalize_frame : image pyfloat → image pyfloat;
  predict : list (image pyfloat) → option (image pyfloat)
}.

Section Pipeline.
Context `{PF : PyFloat} `{NP : !NumPy} `{IL : !ImageLib} `{PR : !Predictor}.

(** The columns of [metrics_data], without the optional ground-truth
    column. *)
Record metrics_data := {
  frame : list nat;
  time : list pyfloat;
  area_pred : list Z;
  growth_pred : list pyfloat;
  component_count : list Z;
  rod_like : list Z;
  elongated : list Z;
  compact : list Z;
  other : list Z;
  division_like : list Z
}.

Record metrics_row := {
  r_frame : nat;
  r_time : pyfloat;
  r_area_pred : Z;
  r_growth_pred : pyfloat;
  r_component_count : Z;
  r_rod_like : Z;
  r_elongated : Z;
  r_compact : Z;
  r_other : Z;
  r_division_like : Z
}.

(** [pd.DataFrame(metrics_data)]: ValueError unless all columns have the
    same length; otherwise one row per index.  (The [time] column is
    [i / fps]; [fps] is 2.0 for datasets and the frame rate of the
    container for videos, so the division is defined.) *)
Definition DataFrame (m : metrics_data) : option (list metrics_row) :=
  let n := length (frame m) in
  if bool_decide (length (time m) = n ∧ length (area_pred m) = n
                  ∧ length (growth_pred m) = n
                  ∧ length (component_count m) = n
                  ∧ length (rod_like m) = n ∧ length (elongated m) = n
                  ∧ length (compact m) = n ∧ length (other m) = n
                  ∧ length (division_like m) = n)
  then Some (fmap (fun i =>
                    {| r_frame := nth i (frame m) 0%nat;
                       r_time := nth i (time m) f0_0;
                       r_area_pred := nth i (area_pred m) 0;
                       r_growth_pred := nth i (growth_pred m) f0_0;
                       r_component_count := nth i (component_count m) 0;
                       r_rod_like := nth i (rod_like m) 0;
                       r_elongated := nth i (elongated m) 0;
                       r_compact := nth i (compact m) 0;
                       r_other := nth i (other m) 0;
                       r_division_like := nth i (division_like m) 0 |})
                 (py_range 0 n))
  else None.

(** [(pred_mask > threshold).astype(np.float32)]. *)
Definition threshold_mask (pred_mask : image pyfloat) (threshold : pyfloat)
    : image pyfloat :=
  imap (fun p => if fgt p threshold then f1_0 else f0_0) pred_mask.

(** MaskCleaner: the two lines "threshold and clean" of the inference loop,
    with the erosion size of [clean_mask] as a parameter. *)
Definition mask_cleaner (pred_mask : image pyfloat) (threshold : pyfloat)
    (min_area erosion_kernel_size : Z) : image Z :=
  let pred_mask_binary := threshold_mask pred_mask threshold in
  clean_mask pred_mask_binary min_area erosion_kernel_size.

(** Threshold, clean and analyse the prediction of one window; the loop
    calls [clean_mask] without an erosion size, so with its default. *)
Definition analyze_window (window : list (image pyfloat))
    (threshold : pyfloat) (min_area : Z)
    : option (Z * gmap string Z * list component) :=
  pred_mask ← predict window;
  let pred_mask_clean :=
    mask_cleaner pred_mask threshold min_area default_erosion_kernel_size in
  analyze_frame pred_mask_clean.

Record analysis := {
  all_biomass : list Z;
  component_counts : list Z;
  division_events : list nat;
  growth_rates : list pyfloat;
  metrics : list metrics_row
}.

Definition run_inference_pipeline (frames_gray : list (image pyfloat))
    (threshold : pyfloat) (min_area : Z) (fps : pyfloat) : option analysis :=
  let frames_normalized := map normalize_frame frames_gray in
  sequences ← create_frame_sequence frames_normalized 5;
  per_frame ← mapM (fun s => analyze_window s.2 threshold min_area) sequences;
  let all_biomass := fmap (fun a => a.1.1) per_frame in
  let all_phenotype_counts := fmap (fun a => a.1.2) per_frame in
  let all_components_list := fmap (fun a => a.2) per_frame in
  let component_counts :=
    fmap (fun comps => Z.of_nat (length comps)) all_components_list in
  let division_events :=
    detect_division_events_call all_biomass component_counts
      (Some f2_0) (Some 1) in
  let growth_rates := f0_0 :: growth_rate_loop all_biomass in
  rod_like ← mapM (fun pc : gmap string Z => pc !! "rod_like") all_phenotype_counts;
  elongated ← mapM (fun pc : gmap string Z => pc !! "elongated") all_phenotype_counts;
  compact ← mapM (fun pc : gmap string Z => pc !! "compact") all_phenotype_counts;
  other ← mapM (fun pc : gmap string Z => pc !! "other") all_phenotype_counts;
  let metrics_data :=
    {| frame := py_range 0 (length all_biomass);
       time := fmap (fun i => fdiv (of_int (Z.of_nat i)) fps)
                   (py_range 0 (length all_biomass));
       area_pred := all_biomass;
       growth_pred := growth_rates;
       component_count := component_counts;
       rod_like := rod_like;
       elongated := elongated;
       compact := compact;
       other := other;
       division_like :=
         fmap (fun i => if bool_decide (i ∈ division_events) then 1 else 0)
             (py_range 0 (length all_biomass)) |} in
  df ← DataFrame metrics_data;
  Some {| all_biomass := all_biomass;
          component_counts := component_counts;
          division_events := division_events;
          growth_rates := growth_rates;
          metrics := df |}.

End Pipeline.

(** ** job_manager.py *)

Inductive JobStatus := QUEUED | RUNNING | COMPLETED | FAILED.

Inductive JobStage :=
  UPLOAD | PREPROCESSING | INFERENCE | POSTPROCESSING | VIDEO_GENERATION
| SAVING_RESULTS.

(** Dicts are mutable objects: they live in a store and are passed around
    by reference. *)
Definition loc := positive.

Section JobManager.
Context `{PF : PyFloat} {payload : Type}.

(** A job dict.  Its keys are fixed at creation; [results] holds a
    reference to a results dict (or [None]). *)
Record job := {
  job_id : string;
  status : JobStatus;
  progress : pyfloat;
  stage : JobStage;
  message : string;
  file_type : string;
  filename : string;
  created_at : string;
  updated_at : string;
  error : option string;
  results : option loc
}.

Inductive object :=
| JobDict (d : job)
| ResultsDict (p : payload).

(** [self.jobs] maps a job id to its job dict; [store] is the object store
    of the process.  The lock makes every method one atomic step, so a run
    of the registry is a sequence of method calls. *)
Record JobManager := {
  jobs : gmap string loc;
  store : gmap loc object
}.

(** [JobManager()]: no jobs; the store holds what the process already
    allocated. *)
Definition new_manager (h : gmap loc object) : JobManager :=
  {| jobs := ∅; store := h |}.

Definition alloc (h : gmap loc object) (o : object) : loc * gmap loc object :=
  let l := fresh (dom h) in (l, <[l := o]> h).

(** The dict literal of [create_job]; [now_created] and [now_updated] are
    the two readings of [datetime.now().isoformat()]. *)
Definition new_job (job_id_ file_type_ filename_ : string)
    (now_created now_updated : string) : job :=
  {| job_id := job_id_;
     status := QUEUED;
     progress := f0_0;
     stage := UPLOAD;
     message := "Job queued";
     file_type := file_type_;
     filename := filename_;
     created_at := now_created;
     updated_at := now_updated;
     error := None;
     results := None |}.

Definition create_job (m : JobManager) (job_id_ file_type_ filename_ : string)
    (now_created now_updated : string) : loc * JobManager :=
  let d := new_job job_id_ file_type_ filename_ now_created now_updated in
  let '(l, h1) := alloc (store m) (JobDict d) in
  let jobs1 := <[job_id_ := l]> (jobs m) in
  (* return self.jobs[job_id].copy() *)
  let '(c, h2) := alloc h1 (JobDict d) in
  (c, {| jobs := jobs1; store := h2 |}).

(** The assignments of [update_job] to the job dict [d]: a key is rebound
    when its argument is not [None]; ["updated_at"] always is. *)
Definition apply_update (d : job)
    (status_ : option JobStatus) (progress_ : option pyfloat)
    (stage_ : option JobStage) (message_ : option string)
    (error_ : option string) (results_ : option loc) (now : string) : job :=
  {| job_id := job_id d;
     status := default (status d) status_;
     progress := default (progress d) progress_;
     stage := default (stage d) stage_;
     message := default (message d) message_;
     file_type := file_type d;
     filename := filename d;
     created_at := created_at d;
     updated_at := now;
     error := from_option Some (error d) error_;
     results := from_option Some (results d) results_ |}.

Definition update_job (m : JobManager) (job_id_ : string)
    (status_ : option JobStatus) (progress_ : option pyfloat)
    (stage_ : option JobStage) (message_ : option string)
    (error_ : option string) (results_ : option loc) (now : string)
    : JobManager :=
  match jobs m !! job_id_ with
  | None => m
  | Some l =>
    match store m !! l with
    | Some (JobDict d) =>
      let d' := apply_update d status_ progress_ stage_ message_ error_
                  results_ now in
      {| jobs := jobs m; store := <[l := JobDict d']> (store m) |}
    | _ => m
    end
  end.

(** [self.jobs.get(job_id, {}).copy() if job_id in self.jobs else None]:
    a new dict with the same values under the same keys. *)
Definition get_job (m : JobManager) (job_id_ : string)
    : option loc * JobManager :=
  match jobs m !! job_id_ with
  | None => (None, m)
  | Some l =>
    match store m !! l with
    | Some (JobDict d) =>
      let '(c, h) := alloc (store m) (JobDict d) in
      (Some c, {| jobs := jobs m; store := h |})
    | _ => (None, m)
    end
  end.

Definition mark_failed (m : JobManager) (job_id_ : string) (error_ : string)
    (now : string) : JobManager :=
  update_job m job_id_ (Some FAILED) (Some (lit (100 # 1))) None None
    (Some error_) None now.

Definition mark_completed (m : JobManager) (job_id_ : string) (results_ : loc)
    (now : string) : JobManager :=
  update_job m job_id_ (Some COMPLETED) (Some (lit (100 # 1)))
    (Some SAVING_RESULTS) (Some "Processing completed") None (Some results_)
    now.

(** The job dict registered under an id, and its status. *)
Definition live_job (m : JobManager) (job_id_ : string) : option job :=
  l ← jobs m !! job_id_;
  o ← store m !! l;
  match o with JobDict d => Some d | ResultsDict _ => None end.

Definition job_status (m : JobManager) (job_id_ : string) : option JobStatus :=
  status <$> live_job m job_id_.

(** The dict behind a reference returned by [create_job] or [get_job]. *)
Definition deref_job (m : JobManager) (l : loc) : option job :=
  o ← store m !! l;
  match o with JobDict d => Some d | ResultsDict _ => None end.

(** Method calls on the registry. *)
Inductive call :=
| CreateJob (job_id_ file_type_ filename_ now_created now_updated : string)
| UpdateJob (job_id_ : string) (status_ : option JobStatus)
    (progress_ : option pyfloat) (stage_ : option JobStage)
    (message_ : option string) (error_ : option string)
    (results_ : option loc) (now : string)
| GetJob (job_id_ : string)
| MarkFailed (job_id_ error_ now : string)
| MarkCompleted (job_id_ : string) (results_ : loc) (now : string).

Definition step (m : JobManager) (c : call) : JobManager :=
  match c with
  | CreateJob j ft fn n1 n2 => (create_job m j ft fn n1 n2).2
  | UpdateJob j s p st msg e r now => update_job m j s p st msg e r now
  | GetJob j => (get_job m j).2
  | MarkFailed j e now => mark_failed m j e now
  | MarkCompleted j r now => mark_completed m j r now
  end.

Definition run (m : JobManager) (cs : list call) : JobManager :=
  foldl step m cs.

(** Every registered reference points to a job dict, and no dict is
    registered under two ids. *)
Definition registry_ok (m : JobManager) : Prop :=
  (∀ j l, jobs m !! j = Some l → ∃ d, store m !! l = Some (JobDict d))
  ∧ (∀ j1 j2 l, jobs m !! j1 = Some l → jobs m !! j2 = Some l → j1 = j2).

(** The status an operation writes to job [j], if any. *)
Definition status_written (c : call) (j : string) : option JobStatus :=
  match c with
  | CreateJob j' _ _ _ _ => if decide (j' = j) then Some QUEUED else None
  | UpdateJob j' s _ _ _ _ _ _ => if decide (j' = j) then s else None
  | GetJob _ => None
  | MarkFailed j' _ _ => if decide (j' = j) then Some FAILED else None
  | MarkCompleted j' _ _ => if decide (j' = j) then Some COMPLETED else None
  end.

(** What a call makes of the job dict [d] registered under [j]. *)
Definition job_after (c : call) (j : string) (d : job) : job :=
  match c with
  | CreateJob j' ft fn n1 n2 =>
    if decide (j' = j) then new_job j' ft fn n1 n2 else d
  | UpdateJob j' s p st msg e r now =>
    if decide (j' = j) then apply_update d s p st msg e r now else d
  | GetJob _ => d
  | MarkFailed j' e now =>
    if decide (j' = j)
    then apply_update d (Some FAILED) (Some (lit (100 # 1))) None None
           (Some e) None now
    else d
  | MarkCompleted j' r now =>
    if decide (j' = j)
    then apply_update d (Some COMPLETED) (Some (lit (100 # 1)))
           (Some SAVING_RESULTS) (Some "Processing completed") None (Some r)
           now
    else d
  end.

(** Position of a status along Queued → Running → {Completed, Failed}. *)
Definition rank (s : JobStatus) : nat :=
  match s with QUEUED => 0 | RUNNING => 1 | COMPLETED => 2 | FAILED => 2 end.

(** A sequence of calls in which every status written to job [j] is at or
    ahead of the status the job has at that point, starting from [s]. *)
Fixpoint forward_calls (s : JobStatus) (j : string) (cs : list call) : Prop :=
  match cs with
  | [] => True
  | c :: cs =>
    let s' := default s (status_written c j) in
    (rank s ≤ rank s')%nat ∧ forward_calls s' j cs
  end.

End JobManager.

(** ** Sample inputs *)

(** A series with one growth spike and a flat component count. *)
Definition spike_biomass : list Z := [1; 1; 1; 1; 100].
Definition flat_counts : list Z := [1; 1; 1; 1; 1].

(** A straight line of three pixels: its minor axis has length 0, its
    major axis [4 * sqrt (2/3)] and its bounding box is [1 × 3]. *)
Definition line3 `{PyFloat} : region := {|
  label := 1;
  area := 3;
  minor_axis_length := f0_0;
  major_axis_length := lit (32659863 # 10000000);
  bbox := (0, 0, 1, 3);
  solidity := f1_0;
  centroid := (f0_0, f1_0)
|}.

(** The image library on masks that are entirely foreground or entirely
    background: the foreground, if any, is one component with label 1, and
    an erosion (whose border pixels do not constrain the result) leaves
    such a mask as it is. *)
Definition FullMaskLib `{PyFloat} : ImageLib := {|
  measure_label := fun img _ => imap (fun p => if 0 <? p then 1 else 0) img;
  regionprops := fun labeled =>
    let n := Z.of_nat (length (filter (fun p => p = 1) (pixels labeled))) in
    if 0 <? n then
      [ {| label := 1;
           area := n;
           minor_axis_length := f1_0;
           major_axis_length := f1_0;
           bbox := (0, 0, Z.of_nat (length labeled),
                    Z.of_nat (length (default [] (head labeled))));
           solidity := f1_0;
           centroid := (f0_0, f0_0) |} ]
    else [];
  getStructuringElement := fun _ ksize =>
    replicate (Z.to_nat ksize.1) (replicate (Z.to_nat ksize.2) 1);
  cv2_erode := fun img _ _ => img
|}.

(** A [2 × 2] probability map, everywhere above 0.5. *)
Definition sample_probs `{PyFloat} : image pyfloat :=
  [[lit (9 # 10); lit (8 # 10)]; [lit (7 # 10); lit (6 # 10)]].

(** A registry in a process whose store already holds one results dict,
    and the calls of a job's life. *)
Definition sample_manager : @JobManager IEEE unit :=
  new_manager {[ 1%positive := ResultsDict tt ]}.
Definition call_create : @call IEEE :=
  CreateJob "job-1" "video" "a.mp4" "t0" "t0".
Definition call_running : @call IEEE :=
  UpdateJob "job-1" (Some RUNNING) (Some (@lit IEEE (5 # 1)))
    (Some PREPROCESSING) (Some "Reading video frames") None None "t1".
Definition call_completed : @call IEEE := MarkCompleted "job-1" 1%positive "t2".
Definition call_back : @call IEEE :=
  UpdateJob "job-1" (Some RUNNING) None None None None None "t3".

(** A predictor that answers every window with a [2 × 2] mask of ones. *)
Definition OnesPredictor `{PyFloat} : Predictor := {|
  normalize_frame := fun f => f;
  predict := fun _ => Some [[f1_0; f1_0]; [f1_0; f1_0]]
|}.

(** Seven identical [2 × 2] frames. *)
Definition frames7 `{PyFloat} : list (image pyfloat) :=
  replicate 7 [[f0_0; f1_0]; [f1_0; f0_0]].

(** ** job_manager.py: the query methods *)

Section Queries.
Context `{PF : PyFloat} {payload : Type}.

(** The dict built by [get_job_status]. *)
Record status_dict := {
  s_job_id : string;
  s_status : JobStatus;
  s_progress : pyfloat;
  s_stage : JobStage;
  s_message : string;
  s_error : option string
}.

(** [get_job_status] reads the copy made by [get_job]; a copy of a job
    dict is never empty, so [not job] holds only for [None]. *)
Definition get_job_status (m : @JobManager PF payload) (job_id_ : string)
    : option status_dict * JobManager :=
  let '(job, m') := get_job m job_id_ in
  match job ≫= deref_job m' with
  | None => (None, m')
  | Some d =>
    (Some {| s_job_id := job_id d;
             s_status := status d;
             s_progress := progress d;
             s_stage := stage d;
             s_message := message d;
             s_error := error d |}, m')
  end.

Definition get_job_results (m : @JobManager PF payload) (job_id_ : string)
    : option loc * JobManager :=
  let '(job, m') := get_job m job_id_ in
  match job ≫= deref_job m' with
  | None => (None, m')
  | Some d =>
    match status d with
    | COMPLETED => (results d, m')
    | _ => (None, m')
    end
  end.

(** ** main.py: the endpoints over the registry *)

(** What an endpoint answers.  The text of an error detail that formats
    an enum member depends on the Python version and is given by
    [format_status]. *)
Inductive response :=
| HTTPException (status_code : nat) (detail : string)
| StatusResponse (s : status_dict)
| JSONResponse (content : loc)
| Message (text : string).

Context (format_status : JobStatus → string) (dict_empty : payload → bool).

(** [not results] for the value of the ["results"] key: [None] and an
    empty dict are false. *)
Definition results_missing (m : @JobManager PF payload) (r : option loc)
    : bool :=
  match r with
  | None => true
  | Some l =>
    match store m !! l with
    | Some (ResultsDict p) => dict_empty p
    | Some (JobDict _) => false
    | None => true
    end
  end.

Definition get_status (m : @JobManager PF payload) (job_id_ : string)
    : response * JobManager :=
  let '(st, m') := get_job_status m job_id_ in
  match st with
  | None => (HTTPException 404 "Job not found", m')
  | Some s => (StatusResponse s, m')
  end.

Definition get_results (m : @JobManager PF payload) (job_id_ : string)
    : response * JobManager :=
  let '(job, m1) := get_job m job_id_ in
  match job ≫= deref_job m1 with
  | None => (HTTPException 404 "Job not found", m1)
  | Some d =>
    match status d with
    | FAILED =>
      (HTTPException 500
         ("Job failed: " +:+ default "None" (error d)), m1)
    | COMPLETED =>
      let '(r, m2) := get_job_results m1 job_id_ in
      if results_missing m2 r
      then (HTTPException 404 "Results not found", m2)
      else match r with
           | Some l => (JSONResponse l, m2)
           | None => (HTTPException 404 "Results not found", m2)
           end
    | s =>
      (HTTPException 202
         ("Job still processing. Status: " +:+ format_status s), m1)
    end
  end.

(** [delete_job] looks the job up and removes its upload and output
    directories; the registry is only read. *)
Definition delete_job (m : @JobManager PF payload) (job_id_ : string)
    : response * JobManager :=
  let '(job, m') := get_job m job_id_ in
  match job with
  | None => (HTTPException 404 "Job not found", m')
  | Some _ => (Message ("Job " +:+ job_id_ +:+ " deleted successfully"), m')
  end.

End Queries.

(** The values of the enum [JobStatus]. *)
Definition JobStatus_value (s : JobStatus) : string :=
  match s with
  | QUEUED => "queued"
  | RUNNING => "running"
  | COMPLETED => "completed"
  | FAILED => "failed"
  end.

(** The sample registry after [call_create]. *)
Definition sample_registered : @JobManager IEEE unit :=
  step sample_manager call_create.


(** ** inference.py and main.py: the background task and its registry calls

    [process_video], [process_dataset] and [_run_inference_pipeline] of
    [InferenceEngine] and the two background functions of [main.py] do
    file, image and network work and, in between, call the job registry.
    They never read the registry, so a run of one of them is the sequence
    of registry calls it issues together with its outcome.  The work between
    two calls is a block of the class [Backend]; what a block returns is
    passed on as in the source. *)

(** The outcome of a block of code: a value, or a raised [Exception] [e],
    kept as [str(e)]. *)
Inductive result (A : Type) : Type :=
| Ok (a : A)
| Raise (e : string).
Arguments Ok {A} a.
Arguments Raise {A} e.

Section Task.
Context `{PF : PyFloat} {payload : Type}.

(** A call of the task to [job_manager], always for the task's own job id:
    [update_job] with the keyword arguments the task uses, [mark_failed]
    and [mark_completed]. *)
Inductive registry_call :=
| CallUpdate (status_ : option JobStatus) (progress_ : option pyfloat)
    (stage_ : option JobStage) (message_ : option string)
| CallFailed (error_ : string)
| CallCompleted (results_ : payload).

(** The calls issued so far, and how the code ended. *)
Definition Task (A : Type) : Type := list registry_call * result A.

Definition task_ret {A} (a : A) : Task A := ([], Ok a).

Definition task_bind {A B} (f : A → Task B) (t : Task A) : Task B :=
  match t.2 with
  | Ok a => (t.1 ++ (f a).1, (f a).2)
  | Raise e => (t.1, Raise e)
  end.

#[global] Instance task_mret : MRet Task := @task_ret.
#[global] Instance task_mbind : MBind Task := @task_bind.

(** A registry call; the methods of the registry do not raise. *)
Definition emit (c : registry_call) : Task unit := ([c], Ok tt).

(** A block that does not touch the registry. *)
Definition block {A} (r : result A) : Task A := ([], r).

Definition raise {A} (e : string) : Task A := ([], Raise e).

(** [try: body / except Exception as e: handler(str(e))]. *)
Definition try_except {A} (body : Task A) (handler : string → Task A)
    : Task A :=
  match body.2 with
  | Ok _ => body
  | Raise e => (body.1 ++ (handler e).1, (handler e).2)
  end.

(** [for idx, x in enumerate(l): ...], started at [idx], collecting what
    the rounds produce. *)
Fixpoint for_enumerate {A B} (body : nat → A → Task B) (idx : nat)
    (l : list A) : Task (list B) :=
  match l with
  | [] => task_ret []
  | x :: l =>
    b ← body idx x;
    bs ← for_enumerate body (S idx) l;
    mret (b :: bs)
  end.

(** What a registry call does to the registry at clock reading [now].
    The dict passed to [mark_completed] is a new object of the store. *)
Definition do_call (m : @JobManager PF payload) (job_id_ : string)
    (c : registry_call) (now : string) : JobManager :=
  match c with
  | CallUpdate s p st msg => update_job m job_id_ s p st msg None None now
  | CallFailed e => mark_failed m job_id_ e now
  | CallCompleted results_ =>
    let '(r, h) := alloc (store m) (ResultsDict results_) in
    mark_completed {| jobs := jobs m; store := h |} job_id_ r now
  end.

(** The registry after the calls [cs]; [now k] is the reading of the clock
    at the [k]-th call. *)
Fixpoint run_calls (m : @JobManager PF payload) (job_id_ : string)
    (now : nat → string) (k : nat) (cs : list registry_call) : JobManager :=
  match cs with
  | [] => m
  | c :: cs => run_calls (do_call m job_id_ c (now k)) job_id_ now (S k) cs
  end.

(** Other threads poll the registry while the task runs.  Every read
    method and endpoint acts on the registry as one or two calls of
    [get_job], so a schedule is the calls of the task interleaved with
    [get_job j'] for arbitrary ids; the lock makes each of them atomic. *)
Fixpoint run_schedule (m : @JobManager PF payload) (job_id_ : string)
    (now : nat → string) (k : nat) (sched : list (registry_call + string))
    : JobManager :=
  match sched with
  | [] => m
  | inl c :: sched =>
    run_schedule (do_call m job_id_ c (now k)) job_id_ now (S k) sched
  | inr j' :: sched => run_schedule (get_job m j').2 job_id_ now k sched
  end.

Definition task_calls (sched : list (registry_call + string))
    : list registry_call :=
  omap (fun a => match a with inl c => Some c | inr _ => None end) sched.

(** The status and the progress value a call writes. *)
Definition call_status (c : registry_call) : option JobStatus :=
  match c with
  | CallUpdate s _ _ _ => s
  | CallFailed _ => Some FAILED
  | CallCompleted _ => Some COMPLETED
  end.

Definition progress_written (c : registry_call) : option pyfloat :=
  match c with
  | CallUpdate _ p _ _ => p
  | CallFailed _ => Some (lit (100 # 1))
  | CallCompleted _ => Some (lit (100 # 1))
  end.

End Task.

Arguments registry_call {PF} payload.
Arguments Task {PF} payload A.

(** A task whose calls, as long as it has not returned, leave the status
    alone, and which satisfies [Q] when it returns. *)
Definition quiet `{PF : PyFloat} {payload A : Type}
    (Q : A → list (registry_call payload) → Prop) (t : Task payload A)
    : Prop :=
  match t.2 with
  | Ok a => Q a t.1
  | Raise _ => Forall (fun c => call_status c = None) t.1
  end.

(** In exact arithmetic: the progress values written by the calls [cs]
    never decrease and lie between [lo] and [hi]. *)
Definition progress_values {payload : Type}
    (cs : list (@registry_call Exact payload)) : list R :=
  omap (@progress_written Exact payload) cs.

Definition paced {payload : Type} (lo hi : R)
    (cs : list (@registry_call Exact payload)) : Prop :=
  (lo <= hi)%R
  ∧ StronglySorted Rle (progress_values cs)
  ∧ Forall (fun p : R => (lo <= p <= hi)%R) (progress_values cs).

(** The blocks of work between the registry calls.  Every block may
    raise. *)
Class Backend `{PF : PyFloat} (payload : Type) := {
  Rgb : Type;
  Gray : Type;
  GtMask : Type;
  Analysis : Type;
  Post : Type;
  Overlay : Type;
  (** main.py: [get_inference_engine()], and the removal of the upload
      directory after a successful run *)
  get_inference_engine : result unit;
  cleanup_upload : string → result unit;
  (** process_video *)
  read_video_frames : string → result (list Rgb * pyfloat);
  prepare_frames_for_inference : list Rgb → result (list Gray);
  (** process_dataset: [Path.is_dir], the two loaders (the zip loader also
      returns the extraction path, which is only used for a removal whose
      failure is ignored) and the grey-to-RGB stacking *)
  is_dir : string → bool;
  load_frames_from_directory : string → result (list Gray * list GtMask);
  extract_dataset_from_zip : string → result (list Gray * list GtMask);
  stack_rgb : list Gray → result (list Rgb);
  (** _run_inference_pipeline: output directories; normalisation of one
      frame; for one window the 13-channel input, the forward pass,
      thresholding, [clean_mask] and [analyze_frame]; division detection
      and growth rates; for one window the saved images and the overlay;
      the video writer on a non-empty list of overlays; the metrics table,
      the CSV file and the results dict *)
  make_output_dirs : string → result unit;
  normalize_gray : Gray → result Gray;
  infer_window : list Gray → pyfloat → Z → result Analysis;
  detect_and_growth : list Analysis → result Post;
  render_frame : string → nat → nat → list Rgb → option (list GtMask) →
                 list Analysis → Post → pyfloat → result Overlay;
  write_video : string → list Overlay → pyfloat → result unit;
  save_metrics :
    string → list (nat * list Gray) → list Analysis → Post →
    list Overlay → option (list GtMask) → pyfloat → result payload
}.

Section Orchestrator.
Context `{PF : PyFloat} {payload : Type} `{BE : !Backend payload}.

(** [for frame in frames_gray: ... frames_normalized.append(frame_norm)]. *)
Fixpoint normalize_frames (frames_gray : list Gray) : result (list Gray) :=
  match frames_gray with
  | [] => Ok []
  | frame :: frames_gray =>
    match normalize_gray frame with
    | Raise e => Raise e
    | Ok frame_norm =>
      match normalize_frames frames_gray with
      | Raise e => Raise e
      | Ok frames_normalized => Ok (frame_norm :: frames_normalized)
      end
    end
  end.

(** render.py, [create_video_from_frames]: an empty list is refused. *)
Definition create_video_from_frames (job_id_ : string)
    (frames : list Overlay) (fps : pyfloat) : result unit :=
  if (length frames =? 0)%nat then Raise "No frames to write"
  else write_video job_id_ frames fps.

(** [f"{what}: frame {idx + 1}/{total_frames}"]. *)
Definition frame_message (what : string) (idx total_frames : nat) : string :=
  what +:+ ": frame " +:+ pretty (idx + 1)%nat +:+ "/" +:+ pretty total_frames.

(** [base + (idx / total_frames) * span]. *)
Definition loop_progress (base span : pyfloat) (idx total_frames : nat)
    : pyfloat :=
  fadd base
       (fmul (fdiv (of_int (Z.of_nat idx)) (of_int (Z.of_nat total_frames)))
             span).

(** [progress = base + (idx / total_frames) * span] and
    [if idx % max(1, total_frames // parts) == 0:
       job_manager.update_job(job_id, progress=progress, message=...)]. *)
Definition report_progress (what : string) (base span : pyfloat)
    (parts idx total_frames : nat) : Task payload unit :=
  let progress := loop_progress base span idx total_frames in
  if (idx mod (Nat.max 1 (total_frames / parts)) =? 0)%nat then
    emit (CallUpdate None (Some progress) None
            (Some (frame_message what idx total_frames)))
  else mret tt.

Definition _run_inference_pipeline (frames_gray : list Gray)
    (frames_rgb : list Rgb) (gt_masks : option (list GtMask))
    (job_id_ : string) (threshold : pyfloat) (min_area : Z) (fps : pyfloat)
    : Task payload payload :=
  block (make_output_dirs job_id_);;
  frames_normalized ← block (normalize_frames frames_gray);
  emit (CallUpdate None (Some (lit (10 # 1))) (Some INFERENCE)
          (Some "Creating temporal windows"));;
  sequences ← block (match create_frame_sequence frames_normalized 5 with
                     | Some sequences => Ok sequences
                     | None => Raise "list index out of range"
                     end);
  let total_frames := length sequences in
  analyses ← for_enumerate
    (fun idx (s : nat * list Gray) =>
       report_progress "Inference" (lit (10 # 1)) (lit (50 # 1)) 20
         idx total_frames;;
       block (infer_window s.2 threshold min_area))
    0 sequences;
  emit (CallUpdate None (Some (lit (65 # 1))) (Some POSTPROCESSING)
          (Some "Detecting division events"));;
  post ← block (detect_and_growth analyses);
  emit (CallUpdate None (Some (lit (70 # 1))) (Some VIDEO_GENERATION)
          (Some "Generating overlay frames"));;
  overlays ← for_enumerate
    (fun idx (s : nat * list Gray) =>
       report_progress "Rendering" (lit (70 # 1)) (lit (20 # 1)) 10
         idx total_frames;;
       block (render_frame job_id_ idx s.1 frames_rgb gt_masks analyses post
                fps))
    0 sequences;
  emit (CallUpdate None (Some (lit (90 # 1))) None
          (Some "Creating output video"));;
  block (create_video_from_frames job_id_ overlays fps);;
  emit (CallUpdate None (Some (lit (95 # 1))) None (Some "Saving metrics"));;
  results_ ← block (save_metrics job_id_ sequences analyses post overlays
                      gt_masks fps);
  emit (CallCompleted results_);;
  mret results_.

Definition process_video (video_path job_id_ : string) (threshold : pyfloat)
    (min_area : Z) : Task payload payload :=
  try_except
    (emit (CallUpdate (Some RUNNING) (Some (lit (5 # 1)))
             (Some PREPROCESSING) (Some "Reading video frames"));;
     read ← block (read_video_frames video_path);
     let '(frames_rgb, fps) := read in
     frames_gray ← block (prepare_frames_for_inference frames_rgb);
     _run_inference_pipeline frames_gray frames_rgb None job_id_ threshold
       min_area fps)
    (fun e => emit (CallFailed e);; raise e).

Definition process_dataset (dataset_path job_id_ : string)
    (threshold : pyfloat) (min_area : Z) : Task payload payload :=
  try_except
    (emit (CallUpdate (Some RUNNING) (Some (lit (5 # 1)))
             (Some PREPROCESSING) (Some "Loading dataset"));;
     loaded ← block (if is_dir dataset_path
                     then load_frames_from_directory dataset_path
                     else extract_dataset_from_zip dataset_path);
     let '(frames_gray, gt_masks) := loaded in
     (if (length frames_gray =? 0)%nat
      then raise "No frames found in dataset" else mret tt);;
     frames_rgb ← block (stack_rgb frames_gray);
     _run_inference_pipeline frames_gray frames_rgb
       (if (0 <? length gt_masks)%nat then Some gt_masks else None)
       job_id_ threshold min_area (lit (2 # 1)))
    (fun e => emit (CallFailed e);; raise e).

(** The [try] block of [process_file_background]. *)
Definition process_file_body (job_id_ file_path file_type_ : string)
    (threshold : pyfloat) (min_area : Z) : Task payload unit :=
  block get_inference_engine;;
  (if bool_decide (file_type_ = "video")
   then process_video file_path job_id_ threshold min_area
   else if bool_decide (file_type_ = "dataset")
   then process_dataset file_path job_id_ threshold min_area
   else raise ("Unknown file type: " +:+ file_type_));;
  block (cleanup_upload job_id_).

Definition process_file_background (job_id_ file_path file_type_ : string)
    (threshold : pyfloat) (min_area : Z) : Task payload unit :=
  try_except (process_file_body job_id_ file_path file_type_ threshold
                min_area)
    (fun e => emit (CallFailed e)).

(** The [try] block of [process_example_background]. *)
Definition process_example_body (job_id_ dataset_path : string)
    (threshold : pyfloat) (min_area : Z) : Task payload unit :=
  block get_inference_engine;;
  process_dataset dataset_path job_id_ threshold min_area;;
  mret tt.

Definition process_example_background (job_id_ dataset_path : string)
    (threshold : pyfloat) (min_area : Z) : Task payload unit :=
  try_except (process_example_body job_id_ dataset_path threshold min_area)
    (fun e => emit (CallFailed e)).

End Orchestrator.

(** A backend on frames without content, in which every block succeeds,
    videos and datasets have [n_frames] frames, and the removal of the
    upload directory ends as [cleanup]. *)
Definition SampleBackend `{PF : PyFloat} (n_frames : nat)
    (cleanup : result unit) : Backend unit := {|
  Rgb := unit;
  Gray := unit;
  GtMask := unit;
  Analysis := unit;
  Post := unit;
  Overlay := unit;
  get_inference_engine := Ok tt;
  cleanup_upload := fun _ => cleanup;
  read_video_frames := fun _ => Ok (replicate n_frames tt, lit (30 # 1));
  prepare_frames_for_inference := fun frames => Ok frames;
  is_dir := fun _ => false;
  load_frames_from_directory := fun _ => Ok (replicate n_frames tt, []);
  extract_dataset_from_zip := fun _ => Ok (replicate n_frames tt, []);
  stack_rgb := fun frames => Ok frames;
  make_output_dirs := fun _ => Ok tt;
  normalize_gray := fun frame => Ok frame;
  infer_window := fun _ _ _ => Ok tt;
  detect_and_growth := fun _ => Ok tt;
  render_frame := fun _ _ _ _ _ _ _ _ => Ok tt;
  write_video := fun _ _ _ => Ok tt;
  save_metrics := fun _ _ _ _ _ _ _ => Ok tt
|}.

(** A clock, and a registry over exact floats with one new job. *)
Definition sample_now (k : nat) : string := "t" +:+ pretty k.
Definition sample_registered_exact : @JobManager Exact unit :=
  step (new_manager ∅) (CreateJob "job-1" "video" "a.mp4" "t0" "t0").

(** * Properties *)

(** ** FrameWindower *)

Section Windower.
Context {A : Type}.
Implicit Types (all_frames : list A) (W : nat).

Lemma mapM_lookup_seq all_frames (k n s : nat) :
  (k + s + n ≤ length all_frames)%nat →
  mapM (fun i => all_frames !! (k + i)%nat) (seq s n)
  = Some (take n (drop (k + s) all_frames)).
Proof.
  revert s. induction n as [|n IH]; intros s Hlen; simpl.
  - by rewrite take_0.
  - destruct (lookup_lt_is_Some_2 all_frames (k + s)) as [x Hx]; [lia|].
    rewrite Hx. simpl. rewrite IH by lia.
    rewrite (drop_S _ _ _ Hx). simpl.
    by replace (k + S s)%nat with (S (k + s)) by lia.
Qed.

Lemma window_frames_Some all_frames (center half W : nat) :
  (half ≤ center)%nat → (center - half + W ≤ length all_frames)%nat →
  window_frames all_frames center half W
  = Some (take W (drop (center - half) all_frames)).
Proof.
  intros Hh Hlen. unfold window_frames, py_range.
  rewrite Nat.sub_0_r, mapM_lookup_seq by lia.
  by rewrite Nat.add_0_r.
Qed.

Lemma mapM_ext_Some {B C} (f : B → option C) (g : B → C) (l : list B) :
  (∀ x, x ∈ l → f x = Some (g x)) → mapM f l = Some (map g l).
Proof.
  induction l as [|x l IH]; intros Hf; simpl; [done|].
  rewrite Hf by left. simpl.
  rewrite IH; [done|]. intros y Hy. apply Hf. by right.
Qed.

Lemma create_frame_sequence_eq all_frames (h : nat) :
  create_frame_sequence all_frames (2 * h + 1)
  = Some (fmap (fun c => (c, take (2 * h + 1) (drop (c - h) all_frames)))
              (seq h (length all_frames - h - h))).
Proof.
  unfold create_frame_sequence, py_range.
  replace ((2 * h + 1) / 2)%nat with h
    by (apply Nat.div_unique with 1%nat; lia).
  apply mapM_ext_Some. intros c Hc.
  apply elem_of_seq in Hc.
  rewrite window_frames_Some by lia. done.
Qed.

End Windower.

(** C3.  For an odd window size [W] and [N] frames, [create_frame_sequence]
    returns without raising; the centre indices are
    [W/2, W/2 + 1, ..., N - 1 - W/2] in this order, every window has exactly
    [W] frames (the [W] consecutive frames around its centre), there are
    [N - W + 1] windows when [N >= W] and none when [N < W]. *)
Theorem create_frame_sequence_windows {A} (all_frames : list A) (W : nat) :
  Nat.Odd W →
  ∃ sequences,
    create_frame_sequence all_frames W = Some sequences
    ∧ sequences.*1 = seq (W / 2) (length all_frames + 1 - W)
    ∧ Forall (fun s => length s.2 = W
                ∧ s.2 = take W (drop (s.1 - W / 2) all_frames)) sequences
    ∧ ((W ≤ length all_frames)%nat →
       length sequences = (length all_frames - W + 1)%nat
       ∧ Forall (fun s => (W / 2 ≤ s.1 ≤ length all_frames - 1 - W / 2)%nat)
           sequences)
    ∧ ((length all_frames < W)%nat → sequences = []).
Proof.
  intros [h ->]. eexists. split; [apply create_frame_sequence_eq|].
  assert (Hh : ((2 * h + 1) / 2)%nat = h)
    by (symmetry; apply Nat.div_unique with 1%nat; lia).
  rewrite Hh.
  replace (length all_frames + 1 - (2 * h + 1))%nat
    with (length all_frames - h - h)%nat by lia.
  split; [|split; [|split]].
  - rewrite <- list_fmap_compose. apply list_fmap_id.
  - apply Forall_fmap, Forall_forall. intros c Hc. apply elem_of_seq in Hc.
    simpl. split; [|done].
    rewrite length_take, length_drop. lia.
  - intros HW. rewrite length_fmap, length_seq. split; [lia|].
    apply Forall_fmap, Forall_forall. intros c Hc. apply elem_of_seq in Hc.
    simpl. lia.
  - intros HW. by replace (length all_frames - h - h)%nat with 0%nat by lia.
Qed.

Lemma create_frame_sequence_windows_witness :
  Nat.Odd 5
  ∧ ∃ sequences,
      create_frame_sequence [10; 11; 12; 13; 14; 15; 16] 5 = Some sequences
      ∧ sequences.*1 = [2; 3; 4]%nat
      ∧ length sequences = 3%nat.
Proof.
  assert (H5 : Nat.Odd 5) by (exists 2%nat; reflexivity).
  split; [exact H5|].
  destruct (create_frame_sequence_windows [10; 11; 12; 13; 14; 15; 16] 5 H5)
    as (sequences & Heq & Hc & _ & Hlen & _).
  exists sequences. split; [exact Heq|]. split; [exact Hc|].
  apply Hlen. simpl. lia.
Defined.

(** ** DivisionDetector *)

Section DivisionDetector.
Context `{PF : PyFloat} `{NP : !NumPy}.
Implicit Types (b c : list Z) (k : pyfloat) (thr : Z).

Lemma growth_rate_loop_length b :
  length (growth_rate_loop b) = (length b - 1)%nat.
Proof.
  unfold growth_rate_loop, py_range. rewrite length_fmap, length_seq.
  reflexivity.
Qed.

Lemma growth_rate_loop_lookup b (i : nat) :
  (1 ≤ i < length b)%nat →
  growth_rate_loop b !! (i - 1)%nat
  = Some (if nth (i - 1) b 0 >? 0
          then np_log (fdiv (of_int (nth i b 0))
                            (fadd (of_int (nth (i - 1) b 0)) f1e_6))
          else f0_0).
Proof.
  intros Hi. unfold growth_rate_loop, py_range.
  rewrite list_lookup_fmap, lookup_seq_lt by lia. simpl.
  replace (S (i - 1)) with i by lia.
  by rewrite Nat.sub_0_r.
Qed.

Lemma growth_spike_true g (mean_rate std_rate : pyfloat) k (i : nat) :
  growth_spike g mean_rate std_rate k i = true
  ↔ fgt std_rate (of_int 0) = true
    ∧ fgt (nth i g f0_0) (fadd mean_rate (fmul k std_rate)) = true.
Proof.
  unfold growth_spike. destruct (fgt std_rate (of_int 0)); [tauto|].
  split; [discriminate|]. intros [? _]. discriminate.
Qed.

Lemma component_increase_true c thr (frame_idx : nat) :
  component_increase c thr frame_idx = true
  ↔ (0 < frame_idx < length c)%nat
    ∧ thr ≤ nth frame_idx c 0 - nth (frame_idx - 1) c 0.
Proof.
  unfold component_increase.
  destruct (Nat.ltb_spec frame_idx (length c)),
           (Nat.ltb_spec 0 frame_idx); simpl;
    rewrite ?Z.geb_le; split; try lia; try (intros [? ?]; lia);
    intros; discriminate.
Qed.

Lemma detect_division_events_short b c k thr :
  (length b < 3)%nat → detect_division_events b c k thr = [].
Proof.
  intros H. unfold detect_division_events.
  by destruct (Nat.ltb_spec (length b) 3); [|lia].
Qed.

Lemma detect_division_events_long b c k thr :
  (3 ≤ length b)%nat →
  detect_division_events b c k thr
  = omap (fun i =>
            if growth_spike (growth_rate_loop b)
                 (np_mean (growth_rate_loop b)) (np_std (growth_rate_loop b))
                 k i
               || component_increase c thr (i + 1)
            then Some (i + 1)%nat else None)
         (py_range 1 (length (growth_rate_loop b))).
Proof.
  intros H. unfold detect_division_events.
  destruct (Nat.ltb_spec (length b) 3); [lia|].
  rewrite growth_rate_loop_length.
  by destruct (Nat.eqb_spec (length b - 1) 0); [lia|].
Qed.

(** C1.  For a biomass series [b] (pixel counts, so non-negative) of length
    [n >= 3], the list [g] of growth rates has the [n - 1] entries
    [ln (b[i] / (b[i-1] + 1e-6))] for [i = 1 .. n-1] (the entry for [i] at
    list position [i - 1]), with [0] in place of the entry whenever
    [b[i-1] = 0]; the detector returns [frame_idx] exactly when
    [frame_idx = i + 1] for a list position [i] in [1 .. len(g) - 1] such
    that the population standard deviation of [g] is positive and
    [g[i] > mean(g) + growth_spike_std * std(g)], or [frame_idx] is a valid
    index of [c] and [c[frame_idx] - c[frame_idx - 1]] reaches
    [component_increase_threshold].  For [n < 3] the result is empty.  This
    holds for every interpretation of the float operations. *)
Theorem detect_division_events_spec b c k thr :
  Forall (fun x => 0 ≤ x) b →
  let n := length b in
  let g := growth_rate_loop b in
  ((3 ≤ n)%nat →
     length g = (n - 1)%nat
     ∧ (∀ i : nat, (1 ≤ i ≤ n - 1)%nat →
          g !! (i - 1)%nat
          = Some (if nth (i - 1) b 0 =? 0 then f0_0
                  else np_log (fdiv (of_int (nth i b 0))
                                    (fadd (of_int (nth (i - 1) b 0)) f1e_6))))
     ∧ (∀ frame_idx : nat,
          frame_idx ∈ detect_division_events b c k thr
          ↔ ∃ i : nat,
              (1 ≤ i ≤ length g - 1)%nat ∧ frame_idx = (i + 1)%nat
              ∧ ((fgt (np_std g) (of_int 0) = true
                  ∧ fgt (nth i g f0_0)
                        (fadd (np_mean g) (fmul k (np_std g))) = true)
                 ∨ ((frame_idx < length c)%nat
                    ∧ thr ≤ nth frame_idx c 0 - nth (frame_idx - 1) c 0))))
  ∧ ((n < 3)%nat → detect_division_events b c k thr = []).
Proof.
  intros Hpos n g. split; [|apply detect_division_events_short].
  intros Hn. split; [apply growth_rate_loop_length|]. split.
  - intros i Hi. unfold g. rewrite growth_rate_loop_lookup by (unfold n in Hi; lia).
    f_equal.
    assert (0 ≤ nth (i - 1) b 0) as Hge.
    { destruct (nth_in_or_default (i - 1) b 0) as [Hin | ->]; [|lia].
      rewrite Forall_forall in Hpos. apply Hpos, list_elem_of_In, Hin. }
    destruct (Z.gtb_spec (nth (i - 1) b 0) 0), (Z.eqb_spec (nth (i - 1) b 0) 0);
      (done || lia).
  - intros frame_idx. rewrite detect_division_events_long by done.
    fold g. rewrite list_elem_of_omap. unfold py_range. split.
    + intros (i & Hi & Hev). apply elem_of_seq in Hi.
      destruct (growth_spike _ _ _ _ _ || component_increase _ _ _) eqn:Hc;
        [|discriminate].
      injection Hev as <-. exists i. split; [lia|]. split; [done|].
      apply orb_true_iff in Hc as [Hc | Hc].
      * left. by apply growth_spike_true.
      * right. apply component_increase_true in Hc. split; [lia|tauto].
    + intros (i & Hi & -> & Hc). exists i. split; [apply elem_of_seq; lia|].
      assert (growth_spike g (np_mean g) (np_std g) k i
              || component_increase c thr (i + 1) = true) as ->; [|done].
      apply orb_true_iff. destruct Hc as [Hc | [Hlt Hc]].
      * left. by apply growth_spike_true.
      * right. apply component_increase_true. split; [lia|done].
Qed.

End DivisionDetector.

Lemma detect_division_events_spec_witness :
  Forall (fun x => 0 ≤ x) [4; 4; 4]
  ∧ 2%nat ∈ @detect_division_events Exact ExactNumPy
              [4; 4; 4] [1; 1; 2] (@f2_0 Exact) 1.
Proof.
  assert (Hpos : Forall (fun x => 0 ≤ x) [4; 4; 4])
    by (repeat constructor; lia).
  split; [exact Hpos|].
  destruct (@detect_division_events_spec Exact ExactNumPy
              [4; 4; 4] [1; 1; 2] (@f2_0 Exact) 1 Hpos) as [Hlong _].
  destruct Hlong as (Hlen & _ & Hev); [simpl; lia|].
  apply Hev. exists 1%nat. rewrite Hlen. simpl.
  split; [lia|]. split; [reflexivity|]. right. lia.
Defined.

(** *** The detector in exact arithmetic *)

Lemma Rgtb_spec (u v : R) : Rgtb u v = true ↔ (u > v)%R.
Proof. unfold Rgtb. destruct (Rgt_dec u v); split; (done || tauto). Qed.

Lemma Rgtb_true (u v : R) : (u > v)%R → Rgtb u v = true.
Proof. apply Rgtb_spec. Qed.

Lemma Rgtb_false (u v : R) : ¬ (u > v)%R → Rgtb u v = false.
Proof. intros H. apply not_true_iff_false. by rewrite Rgtb_spec. Qed.

(** Three equal values and one larger value: the larger one lies between
    one and two standard deviations above the mean. *)
Lemma exact_spike_stats (a x : R) :
  (a < x)%R →
  let g := [a; a; a; x] in
  (Rstd g > 0)%R
  ∧ (x > Rmean g + 1 * Rstd g)%R
  ∧ ¬ (x > Rmean g + 2 * Rstd g)%R
  ∧ ¬ (a > Rmean g + 1 * Rstd g)%R
  ∧ ¬ (a > Rmean g + 2 * Rstd g)%R.
Proof.
  intros Hax g.
  assert (Hm : Rmean g = (a + (x - a) / 4)%R).
  { unfold g, Rmean, Rsum. simpl. lra. }
  assert (Hv : (Rstd g * Rstd g = 3 * (x - a) * (x - a) / 16)%R).
  { unfold Rstd. rewrite sqrt_sqrt.
    - rewrite Hm. unfold g, Rmean, Rsum. simpl. field.
    - rewrite Hm. unfold g, Rmean, Rsum. simpl. nra. }
  assert (Hs : (0 <= Rstd g)%R) by apply sqrt_pos.
  rewrite Hm. repeat split; nra.
Qed.

Lemma exact_detect_spike (k : R) :
  (k = 1 ∨ k = 2)%R →
  @detect_division_events Exact ExactNumPy spike_biomass flat_counts k 1
  = if Rgtb k 1 then [] else [4%nat].
Proof.
  intros Hk.
  rewrite detect_division_events_long by (simpl; lia).
  set (a := ln (1 / (1 + Q2R (1 # 1000000)))).
  set (x := ln (100 / (1 + Q2R (1 # 1000000)))).
  assert (Hg : @growth_rate_loop Exact ExactNumPy spike_biomass = [a; a; a; x])
    by reflexivity.
  rewrite Hg.
  assert (Hax : (a < x)%R).
  { unfold a, x. apply ln_increasing; unfold Q2R; simpl; lra. }
  destruct (exact_spike_stats a x Hax) as (Hs & Hx1 & Hx2 & Ha1 & Ha2).
  change (py_range 1 (length [a; a; a; x])) with [1; 2; 3]%nat.
  assert (Hlow : ∀ i : nat, (i = 1 ∨ i = 2)%nat →
            @growth_spike Exact [a; a; a; x] (Rmean [a; a; a; x])
              (Rstd [a; a; a; x]) k i = false).
  { intros i Hi. apply not_true_iff_false. rewrite growth_spike_true.
    intros [_ H]. apply Rgtb_spec in H.
    destruct Hi as [-> | ->]; simpl in H; destruct Hk as [-> | ->]; tauto. }
  cbn [omap list_omap].
  change (@np_mean Exact ExactNumPy) with Rmean.
  change (@np_std Exact ExactNumPy) with Rstd.
  rewrite !Hlow by auto.
  change (component_increase flat_counts 1 (1 + 1)) with false.
  change (component_increase flat_counts 1 (2 + 1)) with false.
  change (component_increase flat_counts 1 (3 + 1)) with false.
  simpl orb. cbv iota.
  destruct Hk as [-> | ->].
  - rewrite (Rgtb_false 1 1) by lra.
    assert (@growth_spike Exact [a; a; a; x] (Rmean [a; a; a; x])
              (Rstd [a; a; a; x]) 1%R 3 = true) as ->; [|reflexivity].
    apply growth_spike_true. split; apply Rgtb_spec; simpl; lra.
  - rewrite (Rgtb_true 2 1) by lra.
    assert (@growth_spike Exact [a; a; a; x] (Rmean [a; a; a; x])
              (Rstd [a; a; a; x]) 2%R 3 = false) as ->; [|reflexivity].
    apply not_true_iff_false. rewrite growth_spike_true.
    intros [_ H]. apply Rgtb_spec in H. simpl in H. tauto.
Qed.

(** C7, as the code has it.  The keyword defaults of
    [detect_division_events] are [growth_spike_std = 1.0] and
    [component_increase_threshold = 1]: a call that leaves both out behaves
    as the call with [1.0] and [1], and a call that supplies them uses the
    supplied values (the pipeline supplies [2.0] and [1]). *)
Theorem detect_division_events_defaults `{PF : PyFloat} `{NP : !NumPy}
    (b c : list Z) (k : pyfloat) (thr : Z) :
  default_growth_spike_std = lit (1 # 1)
  ∧ default_component_increase_threshold = 1
  ∧ detect_division_events_call b c None None
    = detect_division_events b c (lit (1 # 1)) 1
  ∧ detect_division_events_call b c (Some k) None
    = detect_division_events b c k 1
  ∧ detect_division_events_call b c None (Some thr)
    = detect_division_events b c (lit (1 # 1)) thr
  ∧ detect_division_events_call b c (Some k) (Some thr)
    = detect_division_events b c k thr.
Proof. repeat split. Qed.

(** C7 fails as stated: on the series [1, 1, 1, 1, 100] with a flat
    component count, the call without the two parameters flags frame 4,
    the call with [growth_spike_std = 2.0] flags nothing. *)
Lemma detect_division_events_defaults_counterexample :
  @detect_division_events_call Exact ExactNumPy spike_biomass flat_counts
    None None = [4%nat]
  ∧ @detect_division_events_call Exact ExactNumPy spike_biomass flat_counts
      (Some (@f2_0 Exact)) (Some 1) = [].
Proof.
  unfold detect_division_events_call, default_growth_spike_std,
    default_component_increase_threshold. simpl default.
  assert (H1 : Q2R 1 = 1%R) by (unfold Q2R; simpl; lra).
  assert (H2 : Q2R 2 = 2%R) by (unfold Q2R; simpl; lra).
  rewrite H1, H2. rewrite !exact_detect_spike by auto.
  rewrite (Rgtb_false 1 1), (Rgtb_true 2 1) by lra. done.
Qed.

(** ** FrameAnalyzer *)

Section Classification.
Context `{PF : PyFloat}.

Lemma classify_phenotype_cases (r : region) :
  classify_phenotype r = "elongated" ∨ classify_phenotype r = "rod_like"
  ∨ classify_phenotype r = "compact" ∨ classify_phenotype r = "other".
Proof.
  unfold classify_phenotype.
  destruct (fge _ f3_0); [tauto|].
  destruct (fge _ f2_0 && flt _ f3_0); [destruct (area r >? 200); tauto|].
  destruct (flt _ f1_8 && fge _ f0_8); tauto.
Qed.

(** C5, as the code has it.  The phenotype follows the ordered rule chain
    on [aspect_ratio], [area] and [solidity]; [aspect_ratio] is major over
    minor axis length when the minor axis length is positive, and otherwise
    the long side of the bounding box over (the short side plus [1e-6]). *)
Theorem classify_phenotype_rules (r : region) :
  let ar := aspect_ratio r in
  (fgt (minor_axis_length r) (of_int 0) = true →
   ar = fdiv (major_axis_length r) (minor_axis_length r))
  ∧ (fgt (minor_axis_length r) (of_int 0) = false →
     ∀ minr minc maxr maxc, bbox r = (minr, minc, maxr, maxc) →
     ar = fdiv (of_int (Z.max (maxr - minr) (maxc - minc)))
               (fadd (of_int (Z.min (maxr - minr) (maxc - minc))) f1e_6))
  ∧ (fge ar f3_0 = true → classify_phenotype r = "elongated")
  ∧ (fge ar f3_0 = false → fge ar f2_0 = true → flt ar f3_0 = true →
     area r > 200 → classify_phenotype r = "rod_like")
  ∧ (fge ar f3_0 = false → fge ar f2_0 = true → flt ar f3_0 = true →
     area r ≤ 200 → classify_phenotype r = "other")
  ∧ (fge ar f3_0 = false → fge ar f2_0 && flt ar f3_0 = false →
     flt ar f1_8 = true → fge (solidity r) f0_8 = true →
     classify_phenotype r = "compact")
  ∧ (fge ar f3_0 = false → fge ar f2_0 && flt ar f3_0 = false →
     flt ar f1_8 && fge (solidity r) f0_8 = false →
     classify_phenotype r = "other").
Proof.
  intros ar. repeat split.
  - intros H. unfold ar, aspect_ratio. by rewrite H.
  - intros H minr minc maxr maxc Hb. unfold ar, aspect_ratio.
    by rewrite H, Hb.
  - intros H. unfold classify_phenotype. fold ar. by rewrite H.
  - intros H3 H2 H3' Ha. unfold classify_phenotype. fold ar.
    rewrite H3, H2, H3'. simpl.
    by destruct (Z.gtb_spec (area r) 200); [|lia].
  - intros H3 H2 H3' Ha. unfold classify_phenotype. fold ar.
    rewrite H3, H2, H3'. simpl.
    by destruct (Z.gtb_spec (area r) 200); [lia|].
  - intros H3 H23 H18 Hs. unfold classify_phenotype. fold ar.
    by rewrite H3, H23, H18, Hs.
  - intros H3 H23 Hc. unfold classify_phenotype. fold ar.
    by rewrite H3, H23, Hc.
Qed.

End Classification.

(** C5 fails as stated: for a straight line of three pixels the bounding
    box is [1 × 3], so the ratio of its long to its short side is 3 and the
    rule chain on that ratio answers "elongated"; the code divides by
    [1 + 1e-6], gets a ratio below 3.0 and answers "other". *)
Lemma classify_phenotype_rules_counterexample :
  @fgt IEEE (@minor_axis_length IEEE line3) (@of_int IEEE 0) = false
  ∧ @classify_phenotype_spec IEEE line3 = "elongated"
  ∧ @classify_phenotype IEEE line3 = "other".
Proof. vm_compute. done. Qed.

Lemma classify_phenotype_rules_witness :
  @classify_phenotype IEEE line3 = "other".
Proof.
  destruct (@classify_phenotype_rules IEEE line3)
    as (_ & _ & _ & _ & Hother & _).
  apply Hother; [reflexivity | reflexivity | reflexivity | simpl; lia].
Defined.

Section Analyzer.
Context `{PF : PyFloat} `{IL : !ImageLib}.

Lemma counts_ok_init : counts_ok phenotype_counts0 [] [].
Proof.
  split; [|split; [|done]].
  - unfold phenotype_counts0. rewrite !dom_insert_L, dom_empty_L.
    set_solver.
  - exists 0, 0, 0, 0. repeat split; done.
Qed.

Lemma counts_ok_step pc comps props prop :
  counts_ok pc comps props →
  ∃ pc',
    incr pc (classify_phenotype prop) = Some pc'
    ∧ counts_ok pc'
        (comps ++ [ {| c_label := label prop;
                       c_phenotype := classify_phenotype prop;
                       c_area := area prop;
                       c_centroid := centroid prop;
                       c_bbox := bbox prop |} ])
        (props ++ [prop]).
Proof.
  intros (Hdom & (n1 & n2 & n3 & n4 & H1 & H2 & H3 & H4 & ? & ? & ? & ? & ?)
          & Hlen & Hph).
  assert (Htail : ∀ pc', dom pc' = dom pc →
    (∃ n1 n2 n3 n4,
       pc' !! "rod_like" = Some n1 ∧ pc' !! "elongated" = Some n2
       ∧ pc' !! "compact" = Some n3 ∧ pc' !! "other" = Some n4
       ∧ 0 ≤ n1 ∧ 0 ≤ n2 ∧ 0 ≤ n3 ∧ 0 ≤ n4
       ∧ n1 + n2 + n3 + n4 = Z.of_nat (length comps) + 1) →
    counts_ok pc'
        (comps ++ [ {| c_label := label prop;
                       c_phenotype := classify_phenotype prop;
                       c_area := area prop;
                       c_centroid := centroid prop;
                       c_bbox := bbox prop |} ])
        (props ++ [prop])).
  { intros pc' Hd Hn. split; [by rewrite Hd|]. split; [|split].
    - destruct Hn as (m1 & m2 & m3 & m4 & ? & ? & ? & ? & ? & ? & ? & ? & ?).
      exists m1, m2, m3, m4. rewrite length_app. simpl.
      repeat split; (done || lia).
    - rewrite !length_app. simpl. lia.
    - rewrite !fmap_app. simpl. by rewrite Hph. }
  assert (Hd : ∀ k n, is_Some (pc !! k) → dom (<[k := n]> pc) = dom pc).
  { intros k n Hk. rewrite dom_insert_L.
    by apply subseteq_union_1_L, singleton_subseteq_l, elem_of_dom. }
  assert (Hincr : ∀ k, k = "elongated" ∨ k = "rod_like" ∨ k = "compact"
                       ∨ k = "other" →
    ∃ pc', incr pc k = Some pc' ∧ dom pc' = dom pc
      ∧ ∃ n1 n2 n3 n4,
          pc' !! "rod_like" = Some n1 ∧ pc' !! "elongated" = Some n2
          ∧ pc' !! "compact" = Some n3 ∧ pc' !! "other" = Some n4
          ∧ 0 ≤ n1 ∧ 0 ≤ n2 ∧ 0 ≤ n3 ∧ 0 ≤ n4
          ∧ n1 + n2 + n3 + n4 = Z.of_nat (length comps) + 1).
  { unfold incr. intros k [-> | [-> | [-> | ->]]].
    - rewrite H2. simpl. eexists. split; [done|]. split; [by apply Hd|].
      exists n1, (n2 + 1), n3, n4. rewrite lookup_insert_eq.
      rewrite !lookup_insert_ne by done. repeat split; (done || lia).
    - rewrite H1. simpl. eexists. split; [done|]. split; [by apply Hd|].
      exists (n1 + 1), n2, n3, n4. rewrite lookup_insert_eq.
      rewrite !lookup_insert_ne by done. repeat split; (done || lia).
    - rewrite H3. simpl. eexists. split; [done|]. split; [by apply Hd|].
      exists n1, n2, (n3 + 1), n4. rewrite lookup_insert_eq.
      rewrite !lookup_insert_ne by done. repeat split; (done || lia).
    - rewrite H4. simpl. eexists. split; [done|]. split; [by apply Hd|].
      exists n1, n2, n3, (n4 + 1). rewrite lookup_insert_eq.
      rewrite !lookup_insert_ne by done. repeat split; (done || lia). }
  destruct (Hincr _ (classify_phenotype_cases prop)) as (pc' & Hi & Hd' & Hn).
  exists pc'. split; [exact Hi|]. by apply Htail.
Qed.

Lemma analyze_frame_loop (props : list region) :
  ∃ pc comps,
    foldl (fun acc prop => acc ≫= (fun a => analyze_step a prop))
          (Some (phenotype_counts0, [])) props
    = Some (pc, comps)
    ∧ counts_ok pc comps props.
Proof.
  induction props as [|prop props IH] using rev_ind.
  - exists phenotype_counts0, []. split; [done|apply counts_ok_init].
  - destruct IH as (pc & comps & Heq & Hok).
    destruct (counts_ok_step pc comps props prop Hok) as (pc' & Hi & Hok').
    exists pc'. eexists. rewrite foldl_snoc, Heq. simpl. rewrite Hi. simpl.
    split; [done|exact Hok'].
Qed.

Lemma analyze_frame_ok (mask : image Z) :
  ∃ pc comps,
    analyze_frame mask = Some (compute_biomass mask, pc, comps)
    ∧ counts_ok pc comps (regionprops (measure_label mask 2)).
Proof.
  destruct (analyze_frame_loop (regionprops (measure_label mask 2)))
    as (pc & comps & Heq & Hok).
  exists pc, comps. split; [unfold analyze_frame; by rewrite Heq|exact Hok].
Qed.

(** C10.  [analyze_frame] returns (it does not raise); its phenotype-count
    mapping has exactly the keys rod_like, elongated, compact and other,
    every count is non-negative, the four counts add up to the number of
    returned components, and there is one component, tagged with its one
    phenotype, per region of the labelling of the mask with connectivity 2
    (8-connectivity). *)
Theorem analyze_frame_counts (mask : image Z) :
  ∃ pc comps,
    analyze_frame mask = Some (compute_biomass mask, pc, comps)
    ∧ dom pc = ({["rod_like"; "elongated"; "compact"; "other"]} : gset string)
    ∧ (∀ k n, pc !! k = Some n → 0 ≤ n)
    ∧ (∃ n1 n2 n3 n4,
         pc !! "rod_like" = Some n1 ∧ pc !! "elongated" = Some n2
         ∧ pc !! "compact" = Some n3 ∧ pc !! "other" = Some n4
         ∧ n1 + n2 + n3 + n4 = Z.of_nat (length comps))
    ∧ length comps = length (regionprops (measure_label mask 2))
    ∧ c_phenotype <$> comps
      = classify_phenotype <$> regionprops (measure_label mask 2).
Proof.
  destruct (analyze_frame_ok mask) as (pc & comps & Heq & Hdom & Hn & Hlen & Hph).
  destruct Hn as (n1 & n2 & n3 & n4 & H1 & H2 & H3 & H4 & ? & ? & ? & ? & ?).
  exists pc, comps. split; [exact Heq|].
  split; [exact Hdom|]. split; [|split; [|done]].
  - intros k n Hk. assert (k ∈ dom pc) as Hin by (apply elem_of_dom; eauto).
    rewrite Hdom in Hin. rewrite !elem_of_union, !elem_of_singleton in Hin.
    destruct Hin as [[[-> | ->] | ->] | ->]; congruence.
  - exists n1, n2, n3, n4. done.
Qed.
End Analyzer.

(** ** MaskCleaner *)

Section MaskCleaner.
Context `{PF : PyFloat} `{IL : !ImageLib}.

Lemma pixel_imap {A B} (f : A → B) (img : image A) (r c : nat) :
  pixel (imap f img) r c = f <$> pixel img r c.
Proof.
  unfold pixel, imap. rewrite list_lookup_fmap.
  destruct (img !! r) as [row|]; simpl; [|done].
  by rewrite list_lookup_fmap.
Qed.

Lemma pixel_assign_where (cleaned labeled : image Z) (l : Z) (r c : nat) :
  pixel (assign_where cleaned labeled l) r c
  = c0 ← pixel cleaned r c; lab ← pixel labeled r c;
    Some (if lab =? l then 1 else c0).
Proof.
  unfold pixel, assign_where, imap2. rewrite lookup_zip_with.
  destruct (cleaned !! r) as [crow|]; simpl; [|done].
  destruct (labeled !! r) as [lrow|]; simpl.
  - by rewrite lookup_zip_with.
  - by destruct (crow !! c).
Qed.

Lemma pixel_keep_large_components (labeled : image Z) (props : list region)
    (min_area : Z) (cleaned : image Z) (r c : nat) (lab : Z) :
  pixel labeled r c = Some lab →
  pixel (keep_large_components labeled props min_area cleaned) r c
  = (fun c0 =>
       if existsb (fun p => (area p >=? min_area) && (lab =? label p)) props
       then 1 else c0) <$> pixel cleaned r c.
Proof.
  intros Hlab. unfold keep_large_components. revert cleaned.
  induction props as [|prop props IH]; intros cleaned; simpl.
  - by destruct (pixel cleaned r c).
  - rewrite IH. destruct (area prop >=? min_area); simpl; [|done].
    rewrite pixel_assign_where, Hlab.
    destruct (pixel cleaned r c) as [c0|]; simpl; [|done].
    destruct (lab =? label prop); simpl; [|done].
    by destruct (existsb _ props).
Qed.

(** A mask with values 0 and 1 whose ones carry the label [l] and whose
    zeros do not is rebuilt by writing 1 where the label is [l]. *)
Lemma assign_where_blob (mask_binary labeled : image Z) (l : Z) :
  Forall2 (Forall2 (fun m lab => (m = 0 ∨ m = 1) ∧ (lab = l ↔ m = 1)))
          mask_binary labeled →
  assign_where (zeros_like mask_binary) labeled l = mask_binary.
Proof.
  unfold assign_where, imap2, zeros_like, imap.
  induction 1 as [|mrow lrow ms ls Hrow _ IH]; simpl; [done|].
  f_equal; [|exact IH]. clear IH.
  induction Hrow as [|m lab mr lr [Hm Hl] _ IH]; simpl; [done|].
  f_equal; [|exact IH].
  destruct (Z.eqb_spec lab l) as [Heq|Hne].
  - symmetry. by apply Hl.
  - destruct Hm as [-> | ->]; [done|]. exfalso. apply Hne. by apply Hl.
Qed.

Lemma binarize_01 (mask : image pyfloat) :
  Forall (Forall (fun m => m = 0 ∨ m = 1)) (binarize mask).
Proof.
  unfold binarize, imap. apply Forall_fmap, Forall_forall. intros row _.
  apply Forall_fmap, Forall_forall. intros p _. simpl.
  destruct (fgt p (of_int 0)); auto.
Qed.

Lemma Forall2_Forall_l_and {A B} (P : A → Prop) (Q : A → B → Prop) l k :
  Forall P l → Forall2 Q l k → Forall2 (fun a b => P a ∧ Q a b) l k.
Proof.
  intros HP HQ. induction HQ; [constructor|].
  inversion HP; subst. constructor; auto.
Qed.

(** C4.  MaskCleaner thresholds the probability mask at [t], labels the
    binary mask with connectivity 2 (8-connectivity), keeps exactly the
    pixels of the components whose area is at least [min_area], and only
    then, and only if [k > 0], erodes once with the elliptical [k × k]
    element.  A mask whose only component has area [A] is emptied by the
    filter when [min_area = A + 1] and left as it is when [min_area <= A]. *)
Theorem mask_cleaner_steps (pred_mask : image pyfloat) (t : pyfloat)
    (min_area k : Z) :
  let binary := threshold_mask pred_mask t in
  let mask_binary := binarize binary in
  let labeled := measure_label mask_binary 2 in
  let props := regionprops labeled in
  let filtered :=
    keep_large_components labeled props min_area (zeros_like mask_binary) in
  mask_cleaner pred_mask t min_area k
  = (if k >? 0
     then cv2_erode filtered (getStructuringElement MORPH_ELLIPSE (k, k)) 1
     else filtered)
  ∧ (∀ r c, pixel binary r c
            = (fun p => if fgt p t then f1_0 else f0_0) <$> pixel pred_mask r c)
  ∧ (fgt f1_0 (of_int 0) = true → fgt f0_0 (of_int 0) = false →
     ∀ r c, pixel mask_binary r c
            = (fun p => if fgt p t then 1 else 0) <$> pixel pred_mask r c)
  ∧ (∀ r c lab, pixel labeled r c = Some lab →
       pixel filtered r c
       = (fun _ => if existsb (fun p => (area p >=? min_area)
                                        && (lab =? label p)) props
                   then 1 else 0) <$> pixel mask_binary r c)
  ∧ (∀ blob, props = [blob] →
       Forall2 (Forall2 (fun m lab => lab = label blob ↔ m = 1))
               mask_binary labeled →
       (min_area = area blob + 1 → filtered = zeros_like mask_binary)
       ∧ (min_area ≤ area blob → filtered = mask_binary)).
Proof.
  intros binary mask_binary labeled props filtered.
  split; [reflexivity|]. split; [|split; [|split]].
  - intros r c. apply pixel_imap.
  - intros H1 H0 r c. unfold mask_binary, binarize, binary, threshold_mask.
    rewrite !pixel_imap. destruct (pixel pred_mask r c) as [p|]; simpl; [|done].
    destruct (fgt p t); by rewrite ?H1, ?H0.
  - intros r c lab Hlab. unfold filtered.
    rewrite (pixel_keep_large_components _ _ _ _ _ _ lab Hlab).
    unfold zeros_like. rewrite pixel_imap.
    by destruct (pixel mask_binary r c).
  - intros blob Hprops Hblob. unfold filtered, keep_large_components.
    rewrite Hprops. simpl. split.
    + intros ->. by destruct (Z.geb_spec (area blob) (area blob + 1)); [lia|].
    + intros Hle. destruct (Z.geb_spec (area blob) min_area); [|lia].
      apply assign_where_blob.
      apply Forall2_impl with
        (fun mrow lrow =>
           Forall (fun m => m = 0 ∨ m = 1) mrow
           ∧ Forall2 (fun m lab => lab = label blob ↔ m = 1) mrow lrow).
      * apply Forall2_Forall_l_and; [apply binarize_01|exact Hblob].
      * intros mrow lrow [H01 Hrow]. by apply Forall2_Forall_l_and.
Qed.

End MaskCleaner.

Lemma full_blob_marks :
  Forall2 (Forall2 (fun m lab : Z => lab = 1 ↔ m = 1))
          [[1; 1]; [1; 1]] [[1; 1]; [1; 1]].
Proof.
  assert (Hrow : Forall2 (fun m lab : Z => lab = 1 ↔ m = 1) [1; 1] [1; 1]).
  { constructor; [tauto|]. constructor; [tauto|]. constructor. }
  constructor; [exact Hrow|]. constructor; [exact Hrow|]. constructor.
Qed.

Lemma mask_cleaner_steps_witness :
  @mask_cleaner IEEE FullMaskLib sample_probs (@lit IEEE (1 # 2)) 5 0
  = [[0; 0]; [0; 0]]
  ∧ @mask_cleaner IEEE FullMaskLib sample_probs (@lit IEEE (1 # 2)) 4 0
    = [[1; 1]; [1; 1]].
Proof.
  split.
  - pose proof (@mask_cleaner_steps IEEE FullMaskLib sample_probs
                  (@lit IEEE (1 # 2)) 5 0) as H.
    cbv zeta in H. destruct H as (Heq & _ & _ & _ & Hblob).
    rewrite Heq.
    destruct (Hblob _ eq_refl full_blob_marks) as [Hzero _].
    rewrite Hzero; reflexivity.
  - pose proof (@mask_cleaner_steps IEEE FullMaskLib sample_probs
                  (@lit IEEE (1 # 2)) 4 0) as H.
    cbv zeta in H. destruct H as (Heq & _ & _ & _ & Hblob).
    rewrite Heq.
    destruct (Hblob _ eq_refl full_blob_marks) as [_ Hkeep].
    rewrite Hkeep; [reflexivity|]. simpl. lia.
Defined.

(** ** JobRegistry *)

Section Registry.
Context `{PF : PyFloat} {payload : Type}.
Implicit Types (m : @JobManager PF payload) (h : gmap loc (@object PF payload))
  (d : @job PF) (c : @call PF) (j : string) (l : loc).

Lemma fresh_unused h : h !! fresh (dom h) = None.
Proof. apply not_elem_of_dom_1, is_fresh. Qed.

Lemma create_job_eq m j ft fn n1 n2 :
  let d := new_job j ft fn n1 n2 in
  let l := fresh (dom (store m)) in
  let h1 := <[l := JobDict d]> (store m) in
  let c := fresh (dom h1) in
  create_job m j ft fn n1 n2
  = (c, {| jobs := <[j := l]> (jobs m); store := <[c := JobDict d]> h1 |}).
Proof. reflexivity. Qed.

Lemma registry_ok_empty h : registry_ok (new_manager h).
Proof. split; intros *; simpl; by rewrite lookup_empty. Qed.

Lemma step_store m c l o :
  registry_ok m → store m !! l = Some o → (∀ j', jobs m !! j' ≠ Some l) →
  store (step m c) !! l = Some o ∧ (∀ j', jobs (step m c) !! j' ≠ Some l).
Proof.
  intros [Hdict Hinj] Hl Hfree.
  assert (Hnew : ∀ h' o', h' !! l = Some o → <[fresh (dom h') := o']> h' !! l = Some o).
  { intros h' o' Hh. rewrite lookup_insert_ne; [done|].
    intros <-. by rewrite fresh_unused in Hh. }
  assert (Hupd : ∀ j' s p st msg e r now,
    store (update_job m j' s p st msg e r now) !! l = Some o
    ∧ (∀ j'', jobs (update_job m j' s p st msg e r now) !! j'' ≠ Some l)).
  { intros. unfold update_job.
    destruct (jobs m !! j') as [l1|] eqn:Hj; [|done].
    destruct (store m !! l1) as [[d|p0]|] eqn:Hs; [|done|done].
    simpl. split; [|done]. rewrite lookup_insert_ne; [done|].
    intros ->. by apply (Hfree j'). }
  destruct c as [j0 ft fn n1 n2 | j0 s p st msg e r now | j0 | j0 e now
                | j0 r now];
    cbn [step]; unfold mark_failed, mark_completed; try apply Hupd.
  - rewrite create_job_eq. simpl. split.
    + by apply Hnew, Hnew.
    + intros j'. destruct (decide (j0 = j')) as [->|Hne].
      * rewrite lookup_insert_eq. intros [= <-].
        by rewrite fresh_unused in Hl.
      * rewrite lookup_insert_ne by done. apply Hfree.
  - unfold get_job. destruct (jobs m !! j0) as [l1|] eqn:Hj; [|done].
    destruct (store m !! l1) as [[d|p0]|] eqn:Hs; [|done|done].
    simpl. split; [by apply Hnew|done].
Qed.

Lemma step_ok m c : registry_ok m → registry_ok (step m c).
Proof.
  intros [Hdict Hinj].
  assert (Hnew : ∀ h' l o o', h' !! l = Some o →
            <[fresh (dom h') := o']> h' !! l = Some o).
  { intros h' l o o' Hh. rewrite lookup_insert_ne; [done|].
    intros <-. by rewrite fresh_unused in Hh. }
  assert (Hupd : ∀ j' s p st msg e r now,
            registry_ok (update_job m j' s p st msg e r now)).
  { intros. unfold update_job.
    destruct (jobs m !! j') as [l1|] eqn:Hj; [|done].
    destruct (store m !! l1) as [[d|p0]|] eqn:Hs; [|done|done].
    split; simpl; [|done]. intros j l Hl.
    destruct (decide (l1 = l)) as [->|Hne].
    - rewrite lookup_insert_eq. eauto.
    - rewrite lookup_insert_ne by done. eauto. }
  destruct c as [j0 ft fn n1 n2 | j0 s p st msg e r now | j0 | j0 e now
                | j0 r now];
    cbn [step]; unfold mark_failed, mark_completed; try apply Hupd.
  - rewrite create_job_eq. simpl. split; simpl.
    + intros j l. destruct (decide (j0 = j)) as [->|Hne].
      * rewrite lookup_insert_eq. intros [= <-].
        eexists. erewrite Hnew; [done|]. by rewrite lookup_insert_eq.
      * rewrite lookup_insert_ne by done. intros Hl.
        destruct (Hdict j l Hl) as [d Hd]. exists d.
        by apply Hnew, Hnew.
    + intros j1 j2 l.
      destruct (decide (j0 = j1)) as [<-|Hne1];
        destruct (decide (j0 = j2)) as [<-|Hne2];
        rewrite ?lookup_insert_eq, ?lookup_insert_ne by done; [done|..].
      * intros [= <-] Hl. destruct (Hdict _ _ Hl) as [d Hd].
        by rewrite fresh_unused in Hd.
      * intros Hl [= <-]. destruct (Hdict _ _ Hl) as [d Hd].
        by rewrite fresh_unused in Hd.
      * apply Hinj.
  - unfold get_job. destruct (jobs m !! j0) as [l1|] eqn:Hj; [|done].
    destruct (store m !! l1) as [[d|p0]|] eqn:Hs; [|done|done].
    split; simpl; [|done]. intros j l Hl.
    destruct (Hdict j l Hl) as [d' Hd]. exists d'. by apply Hnew.
Qed.

Lemma run_ok m cs : registry_ok m → registry_ok (run m cs).
Proof.
  revert m. induction cs as [|c cs IH]; intros m Hok; simpl; [done|].
  by apply IH, step_ok.
Qed.

Lemma run_store m cs l o :
  registry_ok m → store m !! l = Some o → (∀ j', jobs m !! j' ≠ Some l) →
  store (run m cs) !! l = Some o.
Proof.
  revert m. induction cs as [|c cs IH]; intros m Hok Hl Hfree; simpl; [done|].
  destruct (step_store m c l o Hok Hl Hfree) as [Hl' Hfree'].
  by apply IH; [apply step_ok| |].
Qed.

Lemma live_job_Some m j d :
  live_job m j = Some d
  ↔ ∃ l, jobs m !! j = Some l ∧ store m !! l = Some (JobDict d).
Proof.
  unfold live_job. split.
  - destruct (jobs m !! j) as [l|]; simpl; [|done].
    destruct (store m !! l) as [[d'|p]|] eqn:Hs; simpl; [|done|done].
    intros [= ->]. eauto.
  - intros (l & -> & Hs). simpl. by rewrite Hs.
Qed.

Lemma live_job_update m j0 j d s p st msg e r now :
  registry_ok m → live_job m j = Some d →
  live_job (update_job m j0 s p st msg e r now) j
  = Some (if decide (j0 = j) then apply_update d s p st msg e r now else d).
Proof.
  intros [Hdict Hinj] Hl. apply live_job_Some in Hl as (l & Hj & Hs).
  unfold update_job. destruct (decide (j0 = j)) as [->|Hne].
  - rewrite Hj, Hs. apply live_job_Some. exists l. simpl.
    by rewrite lookup_insert_eq.
  - destruct (jobs m !! j0) as [l1|] eqn:Hj0;
      [|apply live_job_Some; eauto].
    destruct (store m !! l1) as [[d1|p1]|] eqn:Hs1;
      [|apply live_job_Some; eauto..].
    apply live_job_Some. exists l. simpl. split; [done|].
    rewrite lookup_insert_ne; [done|]. intros ->. by apply Hne, (Hinj _ _ l).
Qed.

Lemma live_job_step m c j d :
  registry_ok m → live_job m j = Some d →
  live_job (step m c) j = Some (job_after c j d).
Proof.
  intros Hok Hl.
  destruct c as [j0 ft fn n1 n2 | j0 s p st msg e r now | j0 | j0 e now
                | j0 r now];
    cbn [step job_after]; unfold mark_failed, mark_completed;
    try by apply live_job_update.
  - apply live_job_Some in Hl as (l & Hj & Hs).
    rewrite create_job_eq. apply live_job_Some. simpl.
    destruct (decide (j0 = j)) as [->|Hne].
    + eexists. rewrite lookup_insert_eq. split; [done|].
      rewrite lookup_insert_ne; [by rewrite lookup_insert_eq|].
      intros Heq. pose proof (fresh_unused
        (<[fresh (dom (store m)) := JobDict (new_job j ft fn n1 n2)]> (store m))) as Hf.
      by rewrite Heq, lookup_insert_eq in Hf.
    + exists l. rewrite lookup_insert_ne by done. split; [done|].
      rewrite !lookup_insert_ne; [done|..].
      * intros Heq. by rewrite <- Heq, fresh_unused in Hs.
      * intros Heq. pose proof (fresh_unused
          (<[fresh (dom (store m)) := JobDict (new_job j0 ft fn n1 n2)]> (store m))) as Hf.
        rewrite Heq, lookup_insert_ne in Hf; [congruence|].
        intros Heq'. by rewrite <- Heq', fresh_unused in Hs.
  - apply live_job_Some in Hl as (l & Hj & Hs).
    apply live_job_Some. unfold get_job.
    destruct (jobs m !! j0) as [l1|] eqn:Hj0; [|eauto].
    destruct (store m !! l1) as [[d1|p1]|] eqn:Hs1; [|eauto..].
    exists l. simpl. split; [done|]. rewrite lookup_insert_ne; [done|].
    intros Heq. by rewrite <- Heq, fresh_unused in Hs.
Qed.

Lemma status_job_after c j d :
  status (job_after c j d) = default (status d) (status_written c j).
Proof. destruct c; simpl; try case_decide; done. Qed.

Lemma job_status_step m c j s :
  registry_ok m → job_status m j = Some s →
  job_status (step m c) j = Some (default s (status_written c j)).
Proof.
  intros Hok Hs. unfold job_status in *.
  destruct (live_job m j) as [d|] eqn:Hl; [|done].
  injection Hs as <-.
  by rewrite (live_job_step m c j d Hok Hl), <- status_job_after.
Qed.

(** C2, as the code has it.  [create_job] never fails: whether or not the
    id is already registered, afterwards the id is bound to a new job in
    Queued state with progress 0 (an earlier job under that id is replaced),
    the returned dict is a copy of it, and every other job is unchanged. *)
Theorem create_job_inserts m j ft fn n1 n2 :
  registry_ok m →
  let d := new_job j ft fn n1 n2 in
  let m' := (create_job m j ft fn n1 n2).2 in
  live_job m' j = Some d
  ∧ deref_job m' (create_job m j ft fn n1 n2).1 = Some d
  ∧ status d = QUEUED ∧ progress d = f0_0
  ∧ registry_ok m'
  ∧ ∀ j', j' ≠ j → live_job m' j' = live_job m j'.
Proof.
  intros Hok d m'.
  assert (Hstep : m' = step m (CreateJob j ft fn n1 n2)) by done.
  split; [|split; [|split; [done|split; [done|split]]]].
  - apply live_job_Some. unfold m'. rewrite create_job_eq. simpl.
    eexists. rewrite lookup_insert_eq. split; [done|].
    rewrite lookup_insert_ne; [by rewrite lookup_insert_eq|].
    intros Heq. pose proof (fresh_unused
      (<[fresh (dom (store m)) := JobDict (new_job j ft fn n1 n2)]>
         (store m))) as Hf.
    by rewrite Heq, lookup_insert_eq in Hf.
  - unfold m', deref_job. rewrite create_job_eq. simpl.
    by rewrite lookup_insert_eq.
  - rewrite Hstep. by apply step_ok.
  - intros j' Hne. destruct (live_job m j') as [d'|] eqn:Hl.
    + rewrite Hstep, (live_job_step _ _ _ _ Hok Hl). simpl.
      by rewrite decide_False.
    + unfold m'. rewrite create_job_eq. unfold live_job in *. simpl.
      rewrite lookup_insert_ne by done.
      destruct (jobs m !! j') as [l|] eqn:Hj; [|done].
      destruct Hok as [Hdict _]. destruct (Hdict _ _ Hj) as [d' Hd].
      simpl in Hl. by rewrite Hd in Hl.
Qed.

(** C8.  [get_job] on a registered id returns a new dict, different from
    the registered one, that holds the job's values; whatever calls follow
    (update, mark_failed, mark_completed, and also create and get), every
    field of that dict stays as it was returned, and so does the results
    dict its ["results"] field refers to. *)
Theorem get_job_snapshot m j snap m' :
  registry_ok m →
  get_job m j = (Some snap, m') →
  ∃ d,
    live_job m j = Some d
    ∧ deref_job m' snap = Some d
    ∧ (∀ j', jobs m' !! j' ≠ Some snap)
    ∧ ∀ cs,
        deref_job (run m' cs) snap = Some d
        ∧ ∀ r p, results d = Some r →
            store m' !! r = Some (ResultsDict p) →
            store (run m' cs) !! r = Some (ResultsDict p).
Proof.
  intros Hok Hget. unfold get_job in Hget.
  destruct (jobs m !! j) as [l|] eqn:Hj; [|done].
  destruct (store m !! l) as [[d|p0]|] eqn:Hs; [|done|done].
  simpl in Hget. injection Hget as <- <-.
  set (snap := fresh (dom (store m))).
  set (m' := {| jobs := jobs m; store := <[snap := JobDict d]> (store m) |}).
  assert (Hok' : registry_ok m').
  { replace m' with (step m (GetJob j)); [by apply step_ok|].
    cbn [step]. unfold get_job. by rewrite Hj, Hs. }
  assert (Hfree : ∀ j', jobs m' !! j' ≠ Some snap).
  { intros j' Hj'. destruct Hok as [Hdict _].
    destruct (Hdict _ _ Hj') as [d' Hd']. unfold snap in Hd'.
    by rewrite fresh_unused in Hd'. }
  exists d. split; [apply live_job_Some; eauto|].
  split; [unfold deref_job; simpl; by rewrite lookup_insert_eq|].
  split; [done|]. intros cs. split.
  - unfold deref_job.
    rewrite (run_store m' cs snap (JobDict d)); [done|done| |done].
    simpl. by rewrite lookup_insert_eq.
  - intros r p _ Hr. apply run_store; [done|done|].
    intros j' Hj'. destruct Hok' as [Hdict _].
    destruct (Hdict _ _ Hj') as [d' Hd']. congruence.
Qed.

Lemma run_forward m cs j s :
  registry_ok m → job_status m j = Some s → forward_calls s j cs →
  ∃ s', job_status (run m cs) j = Some s' ∧ (rank s ≤ rank s')%nat.
Proof.
  revert m s. induction cs as [|c cs IH]; intros m s Hok Hs Hfw; simpl.
  - eauto.
  - destruct Hfw as [Hle Hfw].
    destruct (IH (step m c) _ (step_ok _ c Hok)
                 (job_status_step _ c _ _ Hok Hs) Hfw) as (s' & Hs' & Hle').
    exists s'. split; [done|lia].
Qed.

(** C9, as the code has it.  The registry does not check the direction of
    a transition: after a call, the status of a registered job is the status
    that call writes for it (Queued for [create_job] with its id, the given
    status for [update_job], Failed for [mark_failed], Completed for
    [mark_completed]) and is unchanged when the call writes none.  So the
    status moves forward along Queued → Running → {Completed, Failed} through
    any sequence of calls in which every written status is at or ahead of
    the current one. *)
Theorem job_status_transitions m j s :
  registry_ok m →
  job_status m j = Some s →
  (∀ c, job_status (step m c) j = Some (default s (status_written c j)))
  ∧ (∀ e now, job_status (mark_failed m j e now) j = Some FAILED)
  ∧ (∀ r now, job_status (mark_completed m j r now) j = Some COMPLETED)
  ∧ (∀ s' p st msg e r now,
       job_status (update_job m j (Some s') p st msg e r now) j = Some s')
  ∧ (∀ cs, forward_calls s j cs →
       ∃ s', job_status (run m cs) j = Some s' ∧ (rank s ≤ rank s')%nat).
Proof.
  intros Hok Hs. split; [|split; [|split; [|split]]].
  - intros c. by apply job_status_step.
  - intros e now.
    change (mark_failed m j e now) with (step m (MarkFailed j e now)).
    rewrite (job_status_step m (MarkFailed j e now) j s Hok Hs). simpl.
    by rewrite decide_True.
  - intros r now.
    change (mark_completed m j r now) with (step m (MarkCompleted j r now)).
    rewrite (job_status_step m (MarkCompleted j r now) j s Hok Hs). simpl.
    by rewrite decide_True.
  - intros s' p st msg e r now.
    change (update_job m j (Some s') p st msg e r now)
      with (step m (UpdateJob j (Some s') p st msg e r now)).
    rewrite (job_status_step m (UpdateJob j (Some s') p st msg e r now)
               j s Hok Hs). simpl.
    by rewrite decide_True.
  - intros cs. by apply run_forward.
Qed.

End Registry.

Lemma create_job_inserts_witness :
  registry_ok sample_manager
  ∧ live_job (create_job sample_manager "job-1" "video" "a.mp4" "t0" "t0").2
      "job-1"
    = Some (new_job "job-1" "video" "a.mp4" "t0" "t0").
Proof.
  assert (Hok : registry_ok sample_manager) by apply registry_ok_empty.
  split; [exact Hok|].
  pose proof (create_job_inserts sample_manager "job-1" "video" "a.mp4"
                "t0" "t0" Hok) as H.
  cbv zeta in H. exact (proj1 H).
Defined.

(** C2 fails as stated: creating a job under the id of a running job does
    not fail; the running job is replaced by a new Queued one. *)
Lemma create_job_inserts_counterexample :
  job_status (run sample_manager [call_create; call_running]) "job-1"
  = Some RUNNING
  ∧ job_status
      (create_job (run sample_manager [call_create; call_running])
         "job-1" "video" "b.mp4" "t4" "t4").2 "job-1"
    = Some QUEUED.
Proof. split; reflexivity. Qed.

Lemma get_job_snapshot_witness :
  registry_ok (step sample_manager call_create)
  ∧ ∃ d,
      live_job (step sample_manager call_create) "job-1" = Some d
      ∧ ∀ cs,
          deref_job
            (run (get_job (step sample_manager call_create) "job-1").2 cs)
            4%positive
          = Some d.
Proof.
  assert (Hok : registry_ok (step sample_manager call_create))
    by apply step_ok, registry_ok_empty.
  split; [exact Hok|].
  destruct (get_job_snapshot (step sample_manager call_create) "job-1"
              4%positive
              (get_job (step sample_manager call_create) "job-1").2
              Hok eq_refl) as (d & Hlive & _ & _ & Hcs).
  exists d. split; [exact Hlive|]. intros cs. exact (proj1 (Hcs cs)).
Defined.

Lemma job_status_transitions_witness :
  registry_ok (step sample_manager call_create)
  ∧ job_status (step sample_manager call_create) "job-1" = Some QUEUED
  ∧ job_status
      (mark_failed (step sample_manager call_create) "job-1" "boom" "t9")
      "job-1"
    = Some FAILED.
Proof.
  assert (Hok : registry_ok (step sample_manager call_create))
    by apply step_ok, registry_ok_empty.
  assert (Hs : job_status (step sample_manager call_create) "job-1"
               = Some QUEUED) by reflexivity.
  split; [exact Hok|]. split; [exact Hs|].
  destruct (job_status_transitions (step sample_manager call_create)
              "job-1" QUEUED Hok Hs) as (_ & Hfailed & _).
  apply Hfailed.
Defined.

(** C9 fails as stated: an update that names the status Running takes a
    Completed job back to Running. *)
Lemma job_status_transitions_counterexample :
  job_status (run sample_manager [call_create; call_running; call_completed])
    "job-1"
  = Some COMPLETED
  ∧ job_status
      (run sample_manager
         [call_create; call_running; call_completed; call_back]) "job-1"
    = Some RUNNING.
Proof. split; reflexivity. Qed.

(** ** PipelineOrchestrator on a constant series *)

Lemma nth_replicate_lt {A} (n i : nat) (x d : A) :
  (i < n)%nat → nth i (replicate n x) d = x.
Proof.
  revert i. induction n as [|n IH]; intros [|i] Hi; simpl; try lia; [done|].
  apply IH. lia.
Qed.

Lemma fmap_const_replicate {A B} (f : A → B) (y : B) (l : list A) :
  (∀ x, x ∈ l → f x = y) → f <$> l = replicate (length l) y.
Proof.
  induction l as [|x l IH]; intros Hf; simpl; [done|].
  rewrite Hf by left. f_equal. apply IH. intros z Hz. apply Hf. by right.
Qed.

Lemma mapM_const_replicate {A B} (f : A → option B) (y : B) (l : list A) :
  (∀ x, x ∈ l → f x = Some y) → mapM f l = Some (replicate (length l) y).
Proof.
  intros Hf. rewrite (mapM_ext_Some f (fun _ => y) l Hf).
  f_equal. by apply fmap_const_replicate.
Qed.

Lemma omap_all_None {A B} (f : A → option B) (l : list A) :
  (∀ x, x ∈ l → f x = None) → omap f l = [].
Proof.
  induction l as [|x l IH]; intros Hf; simpl; [done|].
  rewrite Hf by left. apply IH. intros z Hz. apply Hf. by right.
Qed.

Lemma fmap_nth_seq {A} (l : list A) (d : A) :
  (fun i => nth i l d) <$> seq 0 (length l) = l.
Proof.
  induction l as [|x l IH]; simpl; [done|]. f_equal.
  rewrite <- seq_shift, <- list_fmap_compose. exact IH.
Qed.

Section ConstantSeries.
Context `{PF : PyFloat} `{NP : !NumPy}.

Lemma growth_rate_loop_constant (v : Z) (n : nat) :
  0 < v →
  growth_rate_loop (replicate n v) = replicate (n - 1) (steady_rate v).
Proof.
  intros Hv. unfold growth_rate_loop, py_range. rewrite length_replicate.
  rewrite (fmap_const_replicate _ (steady_rate v)); [by rewrite length_seq|].
  intros i Hi. apply elem_of_seq in Hi.
  rewrite !nth_replicate_lt by lia.
  by destruct (Z.gtb_spec v 0); [|lia].
Qed.

Lemma component_increase_constant (cc : Z) (n frame_idx : nat) :
  component_increase (replicate n cc) 1 frame_idx = false.
Proof.
  apply not_true_iff_false. rewrite component_increase_true.
  rewrite length_replicate. intros [Hi Hc].
  rewrite !nth_replicate_lt in Hc by lia. lia.
Qed.

Lemma detect_division_events_constant (v cc : Z) (n : nat) (k : pyfloat) :
  0 < v →
  fgt (np_std (replicate (n - 1) (steady_rate v))) (of_int 0) = false →
  detect_division_events (replicate n v) (replicate n cc) k 1 = [].
Proof.
  intros Hv Hstd.
  destruct (Nat.lt_ge_cases n 3) as [Hn | Hn].
  - apply detect_division_events_short. by rewrite length_replicate.
  - rewrite detect_division_events_long by (by rewrite length_replicate).
    rewrite growth_rate_loop_constant by done.
    apply omap_all_None. intros i _.
    unfold growth_spike. rewrite Hstd. simpl.
    by rewrite component_increase_constant.
Qed.

End ConstantSeries.

Section PipelineConstant.
Context `{PF : PyFloat} `{NP : !NumPy} `{IL : !ImageLib} `{PR : !Predictor}.

Lemma create_frame_sequence_constant (f : image pyfloat) (N : nat) :
  (5 ≤ N)%nat →
  create_frame_sequence (replicate N f) 5
  = Some ((fun c => (c, replicate 5 f)) <$> seq 2 (N - 4)).
Proof.
  intros HN. pose proof (create_frame_sequence_eq (replicate N f) 2) as H.
  change (2 * 2 + 1)%nat with 5%nat in H. rewrite H.
  rewrite length_replicate. f_equal.
  replace (N - 2 - 2)%nat with (N - 4)%nat by lia.
  apply list_fmap_ext. intros i c Hc.
  apply lookup_seq in Hc as [-> Hi].
  rewrite drop_replicate, take_replicate. f_equal. f_equal. lia.
Qed.

Lemma analyze_window_keys (w : list (image pyfloat)) (thr : pyfloat)
    (min_area v : Z) (pc : gmap string Z) (comps : list component) :
  analyze_window w thr min_area = Some (v, pc, comps) →
  ∃ n1 n2 n3 n4,
    pc !! "rod_like" = Some n1 ∧ pc !! "elongated" = Some n2
    ∧ pc !! "compact" = Some n3 ∧ pc !! "other" = Some n4.
Proof.
  unfold analyze_window. destruct (predict w) as [pm|]; simpl; [|done].
  destruct (analyze_frame_ok
              (mask_cleaner pm thr min_area default_erosion_kernel_size))
    as (pc' & comps' & Heq & _ & (n1 & n2 & n3 & n4 & Hn) & _).
  rewrite Heq. intros [= _ <- _]. exists n1, n2, n3, n4. tauto.
Qed.

Lemma run_inference_pipeline_constant (f : image pyfloat) (N : nat)
    (thr : pyfloat) (min_area : Z) (fps : pyfloat)
    (v : Z) (pc : gmap string Z) (comps : list component) :
  (5 ≤ N)%nat →
  analyze_window (replicate 5 (normalize_frame f)) thr min_area
  = Some (v, pc, comps) →
  0 < v →
  fgt (np_std (replicate (N - 5) (steady_rate v))) (of_int 0) = false →
  ∃ a,
    run_inference_pipeline (replicate N f) thr min_area fps = Some a
    ∧ all_biomass a = replicate (N - 4) v
    ∧ component_counts a = replicate (N - 4) (Z.of_nat (length comps))
    ∧ growth_rates a = f0_0 :: replicate (N - 5) (steady_rate v)
    ∧ division_events a = []
    ∧ length (metrics a) = (N - 4)%nat
    ∧ r_growth_pred <$> metrics a = growth_rates a
    ∧ r_area_pred <$> metrics a = all_biomass a.
Proof.
  intros HN Hwin Hv Hstd.
  destruct (analyze_window_keys _ _ _ _ _ _ Hwin)
    as (n1 & n2 & n3 & n4 & H1 & H2 & H3 & H4).
  unfold run_inference_pipeline.
  rewrite fmap_replicate, create_frame_sequence_constant by done. simpl.
  rewrite (mapM_const_replicate _ (v, pc, comps)); cycle 1.
  { intros s Hs. apply list_elem_of_fmap in Hs as (c & -> & _). exact Hwin. }
  rewrite length_fmap, length_seq. simpl.
  rewrite !fmap_replicate. simpl.
  rewrite !(mapM_const_replicate _ _ (replicate (N - 4) pc))
    by (intros x Hx; apply elem_of_replicate in Hx as [-> _]; eassumption).
  simpl. rewrite !length_replicate.
  unfold detect_division_events_call. simpl default.
  rewrite detect_division_events_constant
    by (done || by replace (N - 4 - 1)%nat with (N - 5)%nat by lia).
  rewrite growth_rate_loop_constant by done.
  replace (N - 4 - 1)%nat with (N - 5)%nat by lia.
  unfold DataFrame. cbn [frame time area_pred growth_pred component_count
    rod_like elongated compact other division_like].
  unfold py_range. rewrite Nat.sub_0_r.
  rewrite bool_decide_true; cycle 1.
  { simpl. rewrite !length_fmap, !length_seq, !length_replicate.
    repeat split; lia. }
  simpl. eexists. split; [reflexivity|]. simpl.
  rewrite length_seq, length_fmap, length_seq.
  rewrite Nat.sub_0_r. repeat split.
  - rewrite <- list_fmap_compose.
    replace (N - 4)%nat
      with (length (f0_0 :: replicate (N - 5) (steady_rate v)))
      by (simpl; rewrite length_replicate; lia).
    apply (fmap_nth_seq (f0_0 :: replicate (N - 5) (steady_rate v)) f0_0).
  - rewrite <- list_fmap_compose.
    replace (N - 4)%nat with (length (replicate (N - 4) v)) at 1
      by apply length_replicate.
    apply (fmap_nth_seq (replicate (N - 4) v) 0).
Qed.

End PipelineConstant.

(** *** The pipeline in exact arithmetic *)

Lemma Rsum_replicate (n : nat) (r : R) :
  Rsum (replicate n r) = (INR n * r)%R.
Proof.
  induction n as [|n IH]; [simpl; lra|].
  change (Rsum (replicate (S n) r)) with (r + Rsum (replicate n r))%R.
  rewrite IH, S_INR. lra.
Qed.

Lemma Rmean_replicate (n : nat) (r : R) :
  (0 < n)%nat → Rmean (replicate n r) = r.
Proof.
  intros Hn. unfold Rmean. rewrite Rsum_replicate, length_replicate.
  field. apply not_0_INR. lia.
Qed.

(** A constant series has standard deviation 0. *)
Lemma Rstd_replicate (n : nat) (r : R) : Rstd (replicate n r) = 0%R.
Proof.
  unfold Rstd. destruct n as [|n].
  - simpl. unfold Rmean, Rsum. simpl. rewrite Rdiv_0_l. apply sqrt_0.
  - rewrite Rmean_replicate by lia.
    rewrite (fmap_const_replicate (A := R) _ 0%R); cycle 1.
    { intros x Hx. apply elem_of_replicate in Hx as [-> _]. lra. }
    rewrite length_replicate, Rmean_replicate by lia. apply sqrt_0.
Qed.

Lemma steady_rate_negative (v : Z) :
  0 < v →
  @steady_rate Exact ExactNumPy v = ln (IZR v / (IZR v + 1 / 1000000))
  ∧ (@steady_rate Exact ExactNumPy v < 0)%R.
Proof.
  intros Hv. apply IZR_lt in Hv.
  assert (He : @steady_rate Exact ExactNumPy v
               = ln (IZR v / (IZR v + 1 / 1000000))).
  { unfold steady_rate, f1e_6. simpl. unfold Q2R. reflexivity. }
  split; [exact He|]. rewrite He, <- ln_1.
  apply ln_increasing.
  - apply Rdiv_lt_0_compat; lra.
  - apply (Rmult_lt_reg_r (IZR v + 1 / 1000000)); [lra|].
    unfold Rdiv at 1. rewrite Rmult_assoc, Rinv_l by lra. lra.
Qed.

Section ExactPipeline.
Context (IL : @ImageLib Exact) (PR : @Predictor Exact).

(** C6, as the code has it.  For [N >= 5] identical frames whose windows
    have biomass [v > 0], every analysed frame has biomass [v]; the growth
    rate is 0 at the first analysed frame and [ln (v / (v + 1e-6))] at every
    later one, which is the same value everywhere but below 0, not 0; the
    detector, called with 2.0 and 1, returns no events; and the metrics
    export has one row per analysed frame, [N - 4] in all (3 for 7
    frames), carrying these growth rates. *)
Theorem pipeline_identical_frames (f : image R) (N : nat) (thr : R)
    (min_area : Z) (fps : R) (v : Z) (pc : gmap string Z)
    (comps : list (@component Exact)) :
  (5 ≤ N)%nat →
  @analyze_window Exact IL PR (replicate 5 (@normalize_frame Exact PR f))
    thr min_area = Some (v, pc, comps) →
  0 < v →
  ∃ a,
    @run_inference_pipeline Exact ExactNumPy IL PR (replicate N f)
      thr min_area fps = Some a
    ∧ all_biomass a = replicate (N - 4) v
    ∧ growth_rates a
      = 0%R :: replicate (N - 5) (ln (IZR v / (IZR v + 1 / 1000000)))
    ∧ (ln (IZR v / (IZR v + 1 / 1000000)) < 0)%R
    ∧ division_events a = []
    ∧ length (metrics a) = (N - 4)%nat
    ∧ r_growth_pred <$> metrics a = growth_rates a.
Proof.
  intros HN Hwin Hv.
  destruct (steady_rate_negative v Hv) as [He Hneg].
  destruct (@run_inference_pipeline_constant Exact ExactNumPy IL PR
              f N thr min_area fps v pc comps HN Hwin Hv)
    as (a & Ha & Hb & _ & Hg & Hd & Hl & Hgp & _).
  { simpl. rewrite Rstd_replicate. apply Rgtb_false. lra. }
  assert (H0 : @f0_0 Exact = 0%R)
    by (unfold f0_0; simpl; unfold Q2R; simpl; lra).
  rewrite H0, He in Hg. rewrite He in Hneg.
  exists a. repeat split; assumption.
Qed.

End ExactPipeline.

Lemma ones_mask_cleaned :
  @mask_cleaner Exact FullMaskLib
    [[@f1_0 Exact; @f1_0 Exact]; [@f1_0 Exact; @f1_0 Exact]]
    (@lit Exact (1 # 2)) 0 default_erosion_kernel_size
  = [[1; 1]; [1; 1]].
Proof.
  assert (H1 : Rgtb (Q2R (1 # 1)) (Q2R (1 # 2)) = true)
    by (apply Rgtb_true; unfold Q2R; simpl; lra).
  assert (H2 : Rgtb (Q2R (1 # 1)) (IZR 0) = true)
    by (apply Rgtb_true; unfold Q2R; simpl; lra).
  unfold mask_cleaner, threshold_mask, imap, f1_0.
  cbn [fmap list_fmap fgt lit Exact].
  rewrite H1.
  unfold clean_mask, binarize, imap, f1_0.
  cbn [fmap list_fmap fgt lit of_int Exact].
  rewrite H2. reflexivity.
Qed.

Lemma ones_window_analysis (w : list (image R)) :
  ∃ pc comps,
    @analyze_window Exact FullMaskLib OnesPredictor w (@lit Exact (1 # 2)) 0
    = Some (4, pc, comps).
Proof.
  destruct (@analyze_frame_ok Exact FullMaskLib [[1; 1]; [1; 1]])
    as (pc & comps & Heq & _).
  exists pc, comps. unfold analyze_window.
  change (@predict Exact OnesPredictor w)
    with (Some [[@f1_0 Exact; @f1_0 Exact]; [@f1_0 Exact; @f1_0 Exact]]).
  cbn [mbind option_bind]. rewrite ones_mask_cleaned. exact Heq.
Qed.

Lemma pipeline_identical_frames_witness :
  (5 ≤ 7)%nat ∧ 0 < 4
  ∧ ∃ a,
      @run_inference_pipeline Exact ExactNumPy FullMaskLib OnesPredictor
        frames7 (@lit Exact (1 # 2)) 0 (@lit Exact (2 # 1)) = Some a
      ∧ all_biomass a = [4; 4; 4]
      ∧ division_events a = []
      ∧ length (metrics a) = 3%nat.
Proof.
  assert (H5 : (5 ≤ 7)%nat) by lia.
  assert (H4 : 0 < 4) by lia.
  split; [exact H5|]. split; [exact H4|].
  destruct (ones_window_analysis
              (replicate 5 (@normalize_frame Exact OnesPredictor
                              [[@f0_0 Exact; @f1_0 Exact];
                               [@f1_0 Exact; @f0_0 Exact]])))
    as (pc & comps & Hwin).
  destruct (pipeline_identical_frames FullMaskLib OnesPredictor
              [[@f0_0 Exact; @f1_0 Exact]; [@f1_0 Exact; @f0_0 Exact]]
              7 (@lit Exact (1 # 2)) 0 (@lit Exact (2 # 1)) 4 pc comps
              H5 Hwin H4)
    as (a & Ha & Hb & _ & _ & Hd & Hl & _).
  exists a. split; [exact Ha|]. split; [exact Hb|]. split; [exact Hd|].
  exact Hl.
Defined.

(** C6 fails as stated: seven identical frames whose windows are predicted
    as all-ones [2 × 2] masks have biomass 4 at the three analysed frames,
    and the growth rate at the second and third of them is
    [ln (4 / 4.000001)], which is not 0. *)
Lemma pipeline_identical_frames_counterexample :
  ∃ a r,
    @run_inference_pipeline Exact ExactNumPy FullMaskLib OnesPredictor
      frames7 (@lit Exact (1 # 2)) 0 (@lit Exact (2 # 1)) = Some a
    ∧ all_biomass a = [4; 4; 4]
    ∧ growth_rates a = [@f0_0 Exact; r; r]
    ∧ r ≠ 0%R.
Proof.
  destruct (ones_window_analysis
              (replicate 5 (@normalize_frame Exact OnesPredictor
                              [[@f0_0 Exact; @f1_0 Exact];
                               [@f1_0 Exact; @f0_0 Exact]])))
    as (pc & comps & Hwin).
  destruct (@run_inference_pipeline_constant Exact ExactNumPy FullMaskLib
              OnesPredictor
              [[@f0_0 Exact; @f1_0 Exact]; [@f1_0 Exact; @f0_0 Exact]]
              7 (@lit Exact (1 # 2)) 0 (@lit Exact (2 # 1)) 4 pc comps)
    as (a & Ha & Hb & _ & Hg & _); [lia|exact Hwin|lia| |].
  { cbn [fgt np_std of_int Exact ExactNumPy].
    rewrite Rstd_replicate. apply Rgtb_false. lra. }
  exists a, (@steady_rate Exact ExactNumPy 4).
  split; [exact Ha|]. split; [exact Hb|]. split; [exact Hg|].
  destruct (steady_rate_negative 4) as [_ Hneg]; [lia|]. lra.
Qed.

(** * Further properties *)

(** ** The registry: updates, queries and reachable states *)

Section RegistryMore.
Context `{PF : PyFloat} {payload : Type}.
Implicit Types (m : @JobManager PF payload) (d : @job PF) (c : @call PF)
  (j : string) (l : loc).

Lemma live_job_None m j :
  registry_ok m → (live_job m j = None ↔ jobs m !! j = None).
Proof.
  intros [Hdict _]. unfold live_job. split.
  - destruct (jobs m !! j) as [l|] eqn:Hj; [|done].
    destruct (Hdict _ _ Hj) as [d Hd]. simpl. by rewrite Hd.
  - by intros ->.
Qed.

Lemma get_job_hit m j d :
  live_job m j = Some d →
  get_job m j
  = (Some (fresh (dom (store m))),
     {| jobs := jobs m;
        store := <[fresh (dom (store m)) := JobDict d]> (store m) |}).
Proof.
  intros Hl. apply live_job_Some in Hl as (l & Hj & Hs).
  unfold get_job. by rewrite Hj, Hs.
Qed.

Lemma get_job_miss m j :
  registry_ok m → live_job m j = None → get_job m j = (None, m).
Proof.
  intros Hok Hl. apply (live_job_None m j Hok) in Hl.
  unfold get_job. by rewrite Hl.
Qed.

Lemma live_job_alloc m o j :
  registry_ok m →
  live_job {| jobs := jobs m;
              store := <[fresh (dom (store m)) := o]> (store m) |} j
  = live_job m j.
Proof.
  intros [Hdict _]. unfold live_job. simpl.
  destruct (jobs m !! j) as [l|] eqn:Hj; [|done]. simpl.
  destruct (Hdict _ _ Hj) as [d Hd].
  rewrite lookup_insert_ne; [done|].
  intros Heq. by rewrite <- Heq, fresh_unused in Hd.
Qed.

Lemma registry_ok_alloc m o :
  registry_ok m →
  registry_ok {| jobs := jobs m;
                 store := <[fresh (dom (store m)) := o]> (store m) |}.
Proof.
  intros [Hdict Hinj]. split; simpl; [|done].
  intros j l Hj. destruct (Hdict _ _ Hj) as [d Hd]. exists d.
  rewrite lookup_insert_ne; [done|].
  intros Heq. by rewrite <- Heq, fresh_unused in Hd.
Qed.

Lemma get_job_state m j :
  registry_ok m →
  registry_ok (get_job m j).2
  ∧ (∀ j', live_job (get_job m j).2 j' = live_job m j')
  ∧ (get_job m j).1 ≫= deref_job (get_job m j).2 = live_job m j.
Proof.
  intros Hok. destruct (live_job m j) as [d|] eqn:Hl.
  - rewrite (get_job_hit m j d Hl). simpl.
    split; [by apply registry_ok_alloc|].
    split; [intros j'; by apply live_job_alloc|].
    unfold deref_job. simpl. by rewrite lookup_insert_eq.
  - rewrite (get_job_miss m j Hok Hl). done.
Qed.

Lemma get_job_status_eq m j :
  registry_ok m →
  get_job_status m j
  = ((fun d => {| s_job_id := job_id d; s_status := status d;
                  s_progress := progress d; s_stage := stage d;
                  s_message := message d; s_error := error d |})
       <$> live_job m j,
     (get_job m j).2).
Proof.
  intros Hok. destruct (get_job_state m j Hok) as (_ & _ & Hd).
  unfold get_job_status. destruct (get_job m j) as [job m'].
  simpl in *. rewrite Hd. by destruct (live_job m j).
Qed.

Lemma get_job_results_eq m j :
  registry_ok m →
  get_job_results m j
  = (d ← live_job m j;
     match status d with COMPLETED => results d | _ => None end,
     (get_job m j).2).
Proof.
  intros Hok. destruct (get_job_state m j Hok) as (_ & _ & Hd).
  unfold get_job_results. destruct (get_job m j) as [job m'].
  simpl in *. rewrite Hd. destruct (live_job m j) as [d|]; [|done].
  simpl. by destruct (status d).
Qed.

Lemma jobs_update_job m j s p st msg e r now :
  jobs (update_job m j s p st msg e r now) = jobs m.
Proof.
  unfold update_job. destruct (jobs m !! j) as [l|]; [|done].
  by destruct (store m !! l) as [[d|p0]|].
Qed.

Lemma jobs_get_job m j : jobs (get_job m j).2 = jobs m.
Proof.
  unfold get_job. destruct (jobs m !! j) as [l|]; [|done].
  by destruct (store m !! l) as [[d|p0]|].
Qed.

Lemma live_job_step_None m c j :
  registry_ok m → live_job m j = None →
  live_job (step m c) j
  = match c with
    | CreateJob j' ft fn n1 n2 =>
      if decide (j' = j) then Some (new_job j' ft fn n1 n2) else None
    | _ => None
    end.
Proof.
  intros Hok Hl. pose proof (step_ok m c Hok) as Hok'.
  apply (live_job_None m j Hok) in Hl.
  destruct c as [j0 ft fn n1 n2 | j0 s p st msg e r now | j0 | j0 e now
                | j0 r now];
    cbn [step]; cbn [step] in Hok'; unfold mark_failed, mark_completed in *;
    try (apply (live_job_None _ j Hok'); by rewrite ?jobs_update_job,
           ?jobs_get_job).
  destruct (decide (j0 = j)) as [->|Hne].
  - rewrite create_job_eq. apply live_job_Some. simpl.
    eexists. rewrite lookup_insert_eq. split; [done|].
    rewrite lookup_insert_ne; [by rewrite lookup_insert_eq|].
    intros Heq. pose proof (fresh_unused
      (<[fresh (dom (store m)) := JobDict (new_job j ft fn n1 n2)]>
         (store m))) as Hf.
    by rewrite Heq, lookup_insert_eq in Hf.
  - apply (live_job_None _ j Hok'). rewrite create_job_eq. simpl.
    by rewrite lookup_insert_ne.
Qed.

(** X1.  [update_job] merges: the job registered under the id gets exactly
    the supplied fields rebound (and a new ["updated_at"]), keeping its id,
    file type, file name and creation time; an unknown id leaves the
    registry as it is; no other job changes and no id is added or removed. *)
Theorem update_job_merges m j s p st msg e r now :
  registry_ok m →
  let m' := update_job m j s p st msg e r now in
  (∀ d, live_job m j = Some d →
     ∃ d', live_job m' j = Some d'
       ∧ status d' = default (status d) s
       ∧ progress d' = default (progress d) p
       ∧ stage d' = default (stage d) st
       ∧ message d' = default (message d) msg
       ∧ error d' = match e with Some _ => e | None => error d end
       ∧ results d' = match r with Some _ => r | None => results d end
       ∧ updated_at d' = now
       ∧ job_id d' = job_id d ∧ file_type d' = file_type d
       ∧ filename d' = filename d ∧ created_at d' = created_at d)
  ∧ (live_job m j = None → m' = m)
  ∧ (∀ j', j' ≠ j → live_job m' j' = live_job m j')
  ∧ dom (jobs m') = dom (jobs m)
  ∧ registry_ok m'.
Proof.
  intros Hok m'.
  assert (Hstep : m' = step m (UpdateJob j s p st msg e r now)) by done.
  split; [|split; [|split; [|split]]].
  - intros d Hl. exists (apply_update d s p st msg e r now).
    split.
    + unfold m'. rewrite (live_job_update m j j d) by done.
      by rewrite decide_True.
    + simpl. repeat split; by destruct e, r.
  - intros Hl. apply (live_job_None m j Hok) in Hl.
    unfold m', update_job. by rewrite Hl.
  - intros j' Hne. destruct (live_job m j') as [d'|] eqn:Hl'.
    + unfold m'. rewrite (live_job_update m j j' d') by done.
      by rewrite decide_False.
    + rewrite Hstep. by rewrite (live_job_step_None m _ j' Hok Hl').
  - unfold m'. by rewrite jobs_update_job.
  - rewrite Hstep. by apply step_ok.
Qed.

(** X2.  The read methods [get_job], [get_job_status] and
    [get_job_results] and the endpoints [get_status], [get_results] and
    [delete_job] leave every registered job as it is (in particular
    [delete_job] does not remove the job from the registry), and a miss of
    [get_job] changes nothing at all. *)
Theorem queries_read_only (format_status : JobStatus → string)
    (dict_empty : payload → bool) m j :
  registry_ok m →
  (∀ j', live_job (get_job m j).2 j' = live_job m j')
  ∧ (∀ j', live_job (get_job_status m j).2 j' = live_job m j')
  ∧ (∀ j', live_job (get_job_results m j).2 j' = live_job m j')
  ∧ (∀ j', live_job (get_status m j).2 j' = live_job m j')
  ∧ (∀ j', live_job (get_results format_status dict_empty m j).2 j'
           = live_job m j')
  ∧ (∀ j', live_job (delete_job m j).2 j' = live_job m j')
  ∧ (live_job m j = None → get_job m j = (None, m)).
Proof.
  intros Hok.
  destruct (get_job_state m j Hok) as (Hok1 & Hlive & Hd).
  assert (Hlive2 : ∀ j', live_job (get_job (get_job m j).2 j).2 j'
                         = live_job m j').
  { intros j'. destruct (get_job_state _ j Hok1) as (_ & H2 & _).
    by rewrite H2. }
  split; [exact Hlive|]. split; [|split; [|split; [|split; [|split]]]].
  - intros j'. by rewrite get_job_status_eq.
  - intros j'. by rewrite get_job_results_eq.
  - intros j'. unfold get_status. rewrite get_job_status_eq by done.
    by destruct (live_job m j).
  - intros j'. unfold get_results.
    destruct (get_job m j) as [job m1] eqn:Hg. simpl in *.
    destruct (job ≫= deref_job m1) as [d|]; [|done].
    destruct (status d); try done.
    rewrite get_job_results_eq by done. simpl.
    destruct (results_missing _ _ _); [done|].
    by destruct (_ ≫= _).
  - intros j'. unfold delete_job.
    destruct (get_job m j) as [[c|] m1] eqn:Hg; simpl in *; done.
  - by apply get_job_miss.
Qed.

(** X3.  After [mark_completed] on a registered job, [get_job_results]
    returns the very results reference that was stored, and
    [get_job_status] reports Completed, progress 100, stage Saving Results
    and the message "Processing completed", with the job's earlier error
    field (which [mark_completed] does not clear). *)
Theorem mark_completed_then_query m j d r now :
  registry_ok m →
  live_job m j = Some d →
  let m1 := mark_completed m j r now in
  (get_job_results m1 j).1 = Some r
  ∧ (get_job_status m1 j).1
    = Some {| s_job_id := job_id d; s_status := COMPLETED;
              s_progress := lit (100 # 1); s_stage := SAVING_RESULTS;
              s_message := "Processing completed"; s_error := error d |}.
Proof.
  intros Hok Hl m1.
  assert (Hok1 : registry_ok m1) by apply (step_ok m (MarkCompleted j r now) Hok).
  assert (Hl1 : live_job m1 j
                = Some (apply_update d (Some COMPLETED) (Some (lit (100 # 1)))
                          (Some SAVING_RESULTS) (Some "Processing completed")
                          None (Some r) now)).
  { unfold m1, mark_completed. rewrite (live_job_update m j j d) by done.
    by rewrite decide_True. }
  rewrite get_job_results_eq, get_job_status_eq by done.
  by rewrite Hl1.
Qed.

(** X4.  After [mark_failed] on a registered job, [get_job_status] reports
    Failed, progress 100 and the given error, with stage and message as
    they were, and [get_job_results] returns nothing, whatever results the
    job holds. *)
Theorem mark_failed_then_query m j d e now :
  registry_ok m →
  live_job m j = Some d →
  let m1 := mark_failed m j e now in
  (get_job_status m1 j).1
  = Some {| s_job_id := job_id d; s_status := FAILED;
            s_progress := lit (100 # 1); s_stage := stage d;
            s_message := message d; s_error := Some e |}
  ∧ (get_job_results m1 j).1 = None
  ∧ (results <$> live_job m1 j) = Some (results d).
Proof.
  intros Hok Hl m1.
  assert (Hok1 : registry_ok m1) by apply (step_ok m (MarkFailed j e now) Hok).
  assert (Hl1 : live_job m1 j
                = Some (apply_update d (Some FAILED) (Some (lit (100 # 1)))
                          None None (Some e) None now)).
  { unfold m1, mark_failed. rewrite (live_job_update m j j d) by done.
    by rewrite decide_True. }
  rewrite get_job_results_eq, get_job_status_eq by done.
  by rewrite Hl1.
Qed.

(** X5.  [get_job_results] returns a results reference only for a
    registered job whose status is Completed, and then it is that job's
    ["results"] value; for an unknown id and for a job in any other status
    it returns [None]. *)
Theorem get_job_results_only_completed m j r :
  registry_ok m →
  (get_job_results m j).1 = Some r
  ↔ ∃ d, live_job m j = Some d ∧ status d = COMPLETED ∧ results d = Some r.
Proof.
  intros Hok. rewrite get_job_results_eq by done. simpl. split.
  - destruct (live_job m j) as [d|]; simpl; [|done].
    destruct (status d) eqn:Hs; try done. intros Hr. by exists d.
  - intros (d & -> & Hs & Hr). simpl. by rewrite Hs.
Qed.

Lemma job_id_job_after c j d :
  job_id d = j → job_id (job_after c j d) = j.
Proof.
  intros Hd. destruct c; simpl; try case_decide; simpl; congruence.
Qed.

Lemma run_snoc m cs c : run m (cs ++ [c]) = step (run m cs) c.
Proof. unfold run. by rewrite foldl_snoc. Qed.

Lemma run_app m cs1 cs2 : run m (cs1 ++ cs2) = run (run m cs1) cs2.
Proof. unfold run. by rewrite foldl_app. Qed.

Lemma run_live m cs j :
  registry_ok m → is_Some (live_job m j) → is_Some (live_job (run m cs) j).
Proof.
  revert m. induction cs as [|c cs IH]; intros m Hok [d Hl]; simpl; [eauto|].
  apply IH; [by apply step_ok|].
  rewrite (live_job_step m c j d Hok Hl). eauto.
Qed.

(** X6.  In every state the registry reaches from an empty one, every
    registered reference points to a job dict of its own, the ["job_id"]
    field of the job registered under an id is that id, and a job once
    registered stays registered through all later calls: no method removes
    an entry. *)
Theorem reachable_registry (h : gmap loc (@object PF payload)) cs :
  let m := run (new_manager h) cs in
  registry_ok m
  ∧ (∀ j d, live_job m j = Some d → job_id d = j)
  ∧ (∀ j cs', is_Some (live_job m j) → is_Some (live_job (run m cs') j)).
Proof.
  intros m.
  assert (Hok : registry_ok m) by apply run_ok, registry_ok_empty.
  split; [exact Hok|]. split; [|intros j cs'; by apply run_live].
  unfold m. clear m Hok.
  induction cs as [|c cs IH] using rev_ind.
  - intros j d. unfold live_job. simpl. by rewrite lookup_empty.
  - intros j d. rewrite run_snoc.
    assert (Hok : registry_ok (run (new_manager h) cs))
      by apply run_ok, registry_ok_empty.
    destruct (live_job (run (new_manager h) cs) j) as [d0|] eqn:Hl.
    + rewrite (live_job_step _ c j d0 Hok Hl). intros [= <-].
      apply job_id_job_after. by apply IH.
    + rewrite (live_job_step_None _ c j Hok Hl).
      destruct c; try done. case_decide; [|done].
      intros [= <-]. done.
Qed.

(** X7.  As long as [create_job] is not called again with its id, a
    registered job keeps its ["job_id"], ["file_type"], ["filename"] and
    ["created_at"] through every sequence of calls. *)
Theorem identity_fields_kept m j d cs :
  registry_ok m →
  live_job m j = Some d →
  (∀ ft fn n1 n2, CreateJob j ft fn n1 n2 ∉ cs) →
  ∃ d', live_job (run m cs) j = Some d'
    ∧ job_id d' = job_id d ∧ file_type d' = file_type d
    ∧ filename d' = filename d ∧ created_at d' = created_at d.
Proof.
  revert m d. induction cs as [|c cs IH]; intros m d Hok Hl Hno; simpl.
  - by exists d.
  - destruct (IH (step m c) (job_after c j d)) as (d' & Hd' & H1 & H2 & H3 & H4).
    + by apply step_ok.
    + by apply live_job_step.
    + intros ft fn n1 n2 Hin. apply (Hno ft fn n1 n2). by right.
    + exists d'. split; [exact Hd'|].
      assert (job_id (job_after c j d) = job_id d
              ∧ file_type (job_after c j d) = file_type d
              ∧ filename (job_after c j d) = filename d
              ∧ created_at (job_after c j d) = created_at d) as (E1 & E2 & E3 & E4).
      { destruct c as [j0 ft fn n1 n2 | | | |]; simpl; try case_decide; try done.
        subst j0. exfalso. apply (Hno ft fn n1 n2). by left. }
      repeat split; congruence.
Qed.

Lemma store_get_job m j l o :
  store m !! l = Some o → store (get_job m j).2 !! l = Some o.
Proof.
  intros Hl. unfold get_job. destruct (jobs m !! j) as [l1|]; [|done].
  destruct (store m !! l1) as [[d|p0]|]; [|done|done]. simpl.
  rewrite lookup_insert_ne; [done|].
  intros Heq. by rewrite <- Heq, fresh_unused in Hl.
Qed.

(** X8.  The results endpoint answers by the state of the job: 404 for an
    unknown id; 500 with the stored error for a Failed job; 202 for a
    Queued or Running job; for a Completed job the stored results
    reference, or 404 when the job holds no results or an empty results
    dict. *)
Theorem get_results_answers (format_status : JobStatus → string)
    (dict_empty : payload → bool) m j :
  registry_ok m →
  let answer := (get_results format_status dict_empty m j).1 in
  (live_job m j = None → answer = HTTPException 404 "Job not found")
  ∧ (∀ d, live_job m j = Some d → status d = FAILED →
       answer = HTTPException 500
                  ("Job failed: " +:+ default "None" (error d)))
  ∧ (∀ d, live_job m j = Some d →
       status d = QUEUED ∨ status d = RUNNING →
       answer = HTTPException 202
                  ("Job still processing. Status: "
                   +:+ format_status (status d)))
  ∧ (∀ d, live_job m j = Some d → status d = COMPLETED →
       results d = None →
       answer = HTTPException 404 "Results not found")
  ∧ (∀ d r p, live_job m j = Some d → status d = COMPLETED →
       results d = Some r → store m !! r = Some (ResultsDict p) →
       answer = if dict_empty p
                then HTTPException 404 "Results not found"
                else JSONResponse r).
Proof.
  intros Hok answer.
  destruct (get_job_state m j Hok) as (Hok1 & Hlive & Hd).
  unfold answer, get_results.
  destruct (get_job m j) as [job m1] eqn:Hg. simpl in Hok1, Hlive, Hd.
  rewrite Hd. repeat split.
  - by intros ->.
  - intros d -> Hs. by rewrite Hs.
  - intros d -> [Hs | Hs]; by rewrite Hs.
  - intros d Hl Hs Hr. rewrite Hl, Hs.
    rewrite get_job_results_eq by done. rewrite Hlive, Hl. simpl.
    by rewrite Hs, Hr.
  - intros d r p Hl Hs Hr Hp. rewrite Hl, Hs.
    rewrite get_job_results_eq by done. rewrite Hlive, Hl. simpl.
    rewrite Hs, Hr. unfold results_missing.
    assert (store m1 !! r = Some (ResultsDict p)) as Hp1.
    { replace m1 with (get_job m j).2 by (by rewrite Hg).
      by apply store_get_job. }
    rewrite (store_get_job m1 j r _ Hp1). by destruct (dict_empty p).
Qed.

End RegistryMore.

Lemma sample_registered_ok : registry_ok sample_registered.
Proof. apply step_ok, registry_ok_empty. Qed.

Lemma sample_registered_live :
  live_job sample_registered "job-1"
  = Some (new_job "job-1" "video" "a.mp4" "t0" "t0").
Proof. reflexivity. Qed.

Lemma update_job_merges_witness :
  registry_ok sample_registered
  ∧ dom (jobs (update_job sample_registered "job-1" (Some RUNNING) None None
                 None None None "t1"))
    = dom (jobs sample_registered).
Proof.
  split; [exact sample_registered_ok|].
  pose proof (update_job_merges sample_registered "job-1" (Some RUNNING)
                None None None None None "t1" sample_registered_ok) as H.
  cbv zeta in H. exact (proj1 (proj2 (proj2 (proj2 H)))).
Defined.

Lemma queries_read_only_witness :
  registry_ok sample_registered
  ∧ ∀ j', live_job (delete_job sample_registered "job-1").2 j'
          = live_job sample_registered j'.
Proof.
  split; [exact sample_registered_ok|].
  exact (proj1 (proj2 (proj2 (proj2 (proj2 (proj2
    (queries_read_only JobStatus_value (fun _ => false) sample_registered
       "job-1" sample_registered_ok))))))).
Defined.

Lemma mark_completed_then_query_witness :
  registry_ok sample_registered
  ∧ live_job sample_registered "job-1"
    = Some (new_job "job-1" "video" "a.mp4" "t0" "t0")
  ∧ (get_job_results (mark_completed sample_registered "job-1" 1%positive "t2")
       "job-1").1 = Some 1%positive.
Proof.
  split; [exact sample_registered_ok|]. split; [exact sample_registered_live|].
  pose proof (mark_completed_then_query sample_registered "job-1" _
                1%positive "t2" sample_registered_ok sample_registered_live)
    as H.
  cbv zeta in H. exact (proj1 H).
Defined.

Lemma mark_failed_then_query_witness :
  registry_ok sample_registered
  ∧ live_job sample_registered "job-1"
    = Some (new_job "job-1" "video" "a.mp4" "t0" "t0")
  ∧ (get_job_results (mark_failed sample_registered "job-1" "boom" "t2")
       "job-1").1 = None.
Proof.
  split; [exact sample_registered_ok|]. split; [exact sample_registered_live|].
  pose proof (mark_failed_then_query sample_registered "job-1" _
                "boom" "t2" sample_registered_ok sample_registered_live) as H.
  cbv zeta in H. exact (proj1 (proj2 H)).
Defined.

Lemma get_job_results_only_completed_witness :
  registry_ok sample_registered
  ∧ ((get_job_results sample_registered "job-1").1 = Some 1%positive
     ↔ ∃ d, live_job sample_registered "job-1" = Some d
            ∧ status d = COMPLETED ∧ results d = Some 1%positive).
Proof.
  split; [exact sample_registered_ok|].
  exact (get_job_results_only_completed sample_registered "job-1" 1%positive
           sample_registered_ok).
Defined.

Lemma identity_fields_kept_witness :
  registry_ok sample_registered
  ∧ live_job sample_registered "job-1"
    = Some (new_job "job-1" "video" "a.mp4" "t0" "t0")
  ∧ ∃ d', live_job (run sample_registered [call_running; call_completed])
            "job-1" = Some d'
          ∧ filename d' = "a.mp4".
Proof.
  split; [exact sample_registered_ok|]. split; [exact sample_registered_live|].
  destruct (identity_fields_kept sample_registered "job-1" _
              [call_running; call_completed]
              sample_registered_ok sample_registered_live)
    as (d' & Hd' & _ & _ & Hf & _).
  - intros ft fn n1 n2 Hin.
    apply elem_of_cons in Hin as [Hin | Hin]; [discriminate|].
    apply elem_of_cons in Hin as [Hin | Hin]; [discriminate|].
    by apply elem_of_nil in Hin.
  - exists d'. split; [exact Hd'|exact Hf].
Defined.

Lemma get_results_answers_witness :
  registry_ok sample_registered
  ∧ (get_results JobStatus_value (fun _ : unit => false) sample_registered
       "job-1").1
    = HTTPException 202 "Job still processing. Status: queued".
Proof.
  split; [exact sample_registered_ok|].
  pose proof (get_results_answers JobStatus_value (fun _ : unit => false)
                sample_registered "job-1" sample_registered_ok) as H.
  cbv zeta in H. destruct H as (_ & _ & H & _).
  exact (H _ sample_registered_live (or_introl eq_refl)).
Defined.

(** ** The windower for every window size *)

Section WindowerMore.
Context {A : Type}.
Implicit Types (all_frames : list A) (W : nat).

Lemma create_frame_sequence_any all_frames W :
  create_frame_sequence all_frames W
  = Some ((fun c => (c, take W (drop (c - W / 2) all_frames)))
            <$> seq (W / 2) (length all_frames - W / 2 - W / 2)).
Proof.
  unfold create_frame_sequence, py_range.
  apply mapM_ext_Some. intros c Hc. apply elem_of_seq in Hc.
  assert (W ≤ 2 * (W / 2) + 1)%nat.
  { pose proof (Nat.div_mod_eq W 2). pose proof (Nat.mod_upper_bound W 2).
    lia. }
  rewrite window_frames_Some by lia. done.
Qed.

(** X9.  [create_frame_sequence] never raises, for any window size and any
    number of frames: it returns [N - 2 * (W // 2)] windows (none when that
    is not positive), centred at [W // 2, ..., N - 1 - W // 2], each with
    exactly [W] frames; for an even [W] that is [N - W] windows, one fewer
    than for the odd sizes. *)
Theorem create_frame_sequence_total all_frames W :
  ∃ sequences,
    create_frame_sequence all_frames W = Some sequences
    ∧ sequences.*1
      = seq (W / 2) (length all_frames - 2 * (W / 2))
    ∧ Forall (fun s => length s.2 = W
                ∧ s.2 = take W (drop (s.1 - W / 2) all_frames)) sequences
    ∧ (Nat.Even W → length sequences = (length all_frames - W)%nat).
Proof.
  eexists. split; [apply create_frame_sequence_any|].
  replace (length all_frames - W / 2 - W / 2)%nat
    with (length all_frames - 2 * (W / 2))%nat by lia.
  assert (HW : (W ≤ 2 * (W / 2) + 1)%nat).
  { pose proof (Nat.div_mod_eq W 2). pose proof (Nat.mod_upper_bound W 2).
    lia. }
  split; [|split].
  - rewrite <- list_fmap_compose. apply list_fmap_id.
  - apply Forall_fmap, Forall_forall. intros c Hc. apply elem_of_seq in Hc.
    unfold compose. cbv beta; cbn [fst snd]. split; [|done]. rewrite length_take, length_drop. lia.
  - intros [h ->]. rewrite length_fmap, length_seq.
    replace (2 * h / 2)%nat with h
      by (apply Nat.div_unique with 0%nat; lia).
    lia.
Qed.

(** X10.  In the result of [create_frame_sequence] with a positive window
    size, the frame at position [W // 2] of a window is the frame of the
    sequence at the window's centre index, and each window is the previous
    one moved on by one frame: its centre is one higher and it shares
    [W - 1] frames with it. *)
Theorem create_frame_sequence_slides all_frames W sequences :
  (0 < W)%nat →
  create_frame_sequence all_frames W = Some sequences →
  (∀ s, s ∈ sequences → s.2 !! (W / 2)%nat = all_frames !! s.1)
  ∧ (∀ k s s', sequences !! k = Some s → sequences !! S k = Some s' →
       s'.1 = S s.1 ∧ drop 1 s.2 = take (W - 1) s'.2).
Proof.
  intros HW. rewrite create_frame_sequence_any. intros Heq.
  apply (inj Some) in Heq. subst sequences.
  assert (Hh : (W / 2 < W)%nat) by (apply Nat.div_lt; lia).
  split.
  - intros s Hs. apply list_elem_of_fmap in Hs as (c & -> & Hc).
    apply elem_of_seq in Hc. cbv beta; cbn [fst snd].
    rewrite lookup_take_lt by done. rewrite lookup_drop. f_equal. lia.
  - intros k s s' Hk Hk'.
    rewrite list_lookup_fmap in Hk, Hk'.
    destruct (seq _ _ !! k) as [c|] eqn:Hc; [|done].
    destruct (seq _ _ !! S k) as [c'|] eqn:Hc'; [|done].
    apply lookup_seq in Hc as [-> Hlt]. apply lookup_seq in Hc' as [-> Hlt'].
    cbn [fmap option_fmap option_map] in Hk, Hk'.
    injection Hk as <-. injection Hk' as <-. cbv beta; cbn [fst snd].
    split; [lia|].
    rewrite take_take, Nat.min_l by lia.
    replace (W / 2 + S k - W / 2)%nat with (S k) by lia.
    replace (W / 2 + k - W / 2)%nat with k by lia.
    apply list_eq. intros i.
    rewrite lookup_drop.
    destruct (decide (i < W - 1)%nat) as [Hi|Hi].
    + rewrite !lookup_take_lt by lia. rewrite !lookup_drop. f_equal. lia.
    + rewrite !lookup_take_ge by lia. done.
Qed.

End WindowerMore.

Lemma create_frame_sequence_slides_witness :
  (0 < 5)%nat
  ∧ create_frame_sequence [10; 11; 12; 13; 14; 15; 16] 5
    = Some [(2%nat, [10; 11; 12; 13; 14]); (3%nat, [11; 12; 13; 14; 15]);
            (4%nat, [12; 13; 14; 15; 16])]
  ∧ ∀ s, s ∈ [(2%nat, [10; 11; 12; 13; 14]); (3%nat, [11; 12; 13; 14; 15]);
              (4%nat, [12; 13; 14; 15; 16])] →
         s.2 !! 2%nat = [10; 11; 12; 13; 14; 15; 16] !! s.1.
Proof.
  assert (H5 : (0 < 5)%nat) by lia.
  assert (Heq : create_frame_sequence [10; 11; 12; 13; 14; 15; 16] 5
    = Some [(2%nat, [10; 11; 12; 13; 14]); (3%nat, [11; 12; 13; 14; 15]);
            (4%nat, [12; 13; 14; 15; 16])]) by reflexivity.
  split; [exact H5|]. split; [exact Heq|].
  exact (proj1 (create_frame_sequence_slides _ 5 _ H5 Heq)).
Defined.

(** ** The detector: order, range and monotonicity *)

Lemma omap_sublist_fmap {A B} (f : A → option B) (g : A → B) (l : list A) :
  (∀ x y, f x = Some y → y = g x) → omap f l `sublist_of` g <$> l.
Proof.
  intros Hf. induction l as [|x l IH]; simpl; [constructor|].
  destruct (f x) as [y|] eqn:Hx.
  - rewrite (Hf x y Hx). by constructor.
  - by constructor.
Qed.

Lemma omap_sublist_omap {A B} (f1 f2 : A → option B) (l : list A) :
  (∀ x y, f2 x = Some y → f1 x = Some y) →
  omap f2 l `sublist_of` omap f1 l.
Proof.
  intros Hf. induction l as [|x l IH]; simpl; [constructor|].
  destruct (f2 x) as [y|] eqn:Hx.
  - rewrite (Hf x y Hx). by constructor.
  - destruct (f1 x); [by constructor|done].
Qed.

Lemma StronglySorted_lt_seq (j n : nat) : StronglySorted lt (seq j n).
Proof.
  revert j. induction n as [|n IH]; intros j; simpl; constructor; [apply IH|].
  apply Forall_forall. intros x Hx. apply elem_of_seq in Hx. lia.
Qed.

Lemma StronglySorted_sublist {A} (R : relation A) (l1 l2 : list A) :
  l1 `sublist_of` l2 → StronglySorted R l2 → StronglySorted R l1.
Proof.
  induction 1 as [|x l1 l2 Hsub IH|x l1 l2 Hsub IH]; intros Hs; [done|..].
  - apply StronglySorted_cons in Hs as [Hx Hs].
    apply StronglySorted_cons. split; [|by apply IH].
    apply Forall_forall. intros y Hy. rewrite Forall_forall in Hx.
    apply Hx. by apply (elem_of_sublist l1).
  - apply StronglySorted_cons in Hs as [_ Hs]. by apply IH.
Qed.

Section DetectorMore.
Context `{PF : PyFloat} `{NP : !NumPy}.
Implicit Types (b c : list Z) (k : pyfloat) (thr : Z).

(** X11.  The events returned by [detect_division_events] are frame
    indices in strictly increasing order, without repetition, taken from
    [2, ..., n - 1] where [n] is the length of the biomass series: frames 0
    and 1 are never flagged. *)
Theorem detect_division_events_sorted b c k thr :
  detect_division_events b c k thr `sublist_of` seq 2 (length b - 2)
  ∧ StronglySorted lt (detect_division_events b c k thr)
  ∧ NoDup (detect_division_events b c k thr)
  ∧ (∀ frame_idx, frame_idx ∈ detect_division_events b c k thr →
       (2 ≤ frame_idx ≤ length b - 1)%nat).
Proof.
  assert (Hsub : detect_division_events b c k thr
                 `sublist_of` seq 2 (length b - 2)).
  { destruct (Nat.lt_ge_cases (length b) 3) as [Hn | Hn].
    - rewrite detect_division_events_short by done. apply sublist_nil_l.
    - rewrite detect_division_events_long by done.
      rewrite growth_rate_loop_length. unfold py_range.
      replace (length b - 2)%nat with (length b - 1 - 1)%nat by lia.
      rewrite <- (fmap_S_seq 1).
      apply omap_sublist_fmap. intros i y Hy.
      destruct (_ || _); [|done]. injection Hy as <-. lia. }
  split; [exact Hsub|]. split; [|split].
  - eapply StronglySorted_sublist; [exact Hsub|apply StronglySorted_lt_seq].
  - eapply sublist_NoDup; [apply NoDup_seq|exact Hsub].
  - intros f Hf. apply (elem_of_sublist _ _ _ Hf) in Hsub.
    apply elem_of_seq in Hsub. lia.
Qed.

(** X13.  Raising the component-increase threshold never adds an event:
    the events found with the larger threshold are a sub-sequence of those
    found with the smaller one, whatever the float arithmetic. *)
Theorem detect_division_events_threshold_mono b c k thr1 thr2 :
  thr1 ≤ thr2 →
  detect_division_events b c k thr2
  `sublist_of` detect_division_events b c k thr1.
Proof.
  intros Hthr. destruct (Nat.lt_ge_cases (length b) 3) as [Hn | Hn].
  - rewrite !detect_division_events_short by done. done.
  - rewrite !detect_division_events_long by done.
    apply omap_sublist_omap. intros i y.
    destruct (growth_spike _ _ _ _ _); simpl; [done|].
    destruct (component_increase c thr2 (i + 1)) eqn:H2; [|done].
    apply component_increase_true in H2 as [Hi Hc].
    assert (component_increase c thr1 (i + 1) = true) as ->; [|done].
    apply component_increase_true. split; [done|lia].
Qed.

End DetectorMore.

Lemma detect_division_events_threshold_mono_witness :
  1 ≤ 2
  ∧ @detect_division_events Exact ExactNumPy spike_biomass [1; 1; 2; 4; 4]
      (@f2_0 Exact) 2
    `sublist_of`
    @detect_division_events Exact ExactNumPy spike_biomass [1; 1; 2; 4; 4]
      (@f2_0 Exact) 1.
Proof.
  assert (H : 1 ≤ 2) by lia. split; [exact H|].
  exact (@detect_division_events_threshold_mono Exact ExactNumPy
           spike_biomass [1; 1; 2; 4; 4] (@f2_0 Exact) 1 2 H).
Defined.

(** *** Growth spikes in exact arithmetic *)

Section RealStatistics.
Local Open Scope R_scope.






End RealStatistics.

Section ExactDetector.
Implicit Types (b c : list Z) (thr : Z).

Lemma exact_growth_spike_true (g : list R) (k : R) (i : nat) :
  @growth_spike Exact g (Rmean g) (Rstd g) k i = true
  ↔ (Rstd g > 0 ∧ nth i g (@f0_0 Exact) > Rmean g + k * Rstd g)%R.
Proof.
  rewrite growth_spike_true. cbn [fgt fadd fmul of_int Exact].
  rewrite !Rgtb_spec. done.
Qed.



(** X14.  In exact arithmetic, raising the spike factor never adds an
    event: the events found with the larger factor are a sub-sequence of
    those found with the smaller one (the test is only made when the
    deviation is positive). *)
Theorem exact_spike_factor_mono b c (k1 k2 : R) thr :
  (k1 <= k2)%R →
  @detect_division_events Exact ExactNumPy b c k2 thr
  `sublist_of` @detect_division_events Exact ExactNumPy b c k1 thr.
Proof.
  intros Hk. destruct (Nat.lt_ge_cases (length b) 3) as [Hn | Hn].
  - rewrite !detect_division_events_short by done. done.
  - rewrite !detect_division_events_long by done.
    change (@np_mean Exact ExactNumPy) with Rmean.
    change (@np_std Exact ExactNumPy) with Rstd.
    apply omap_sublist_omap. intros i y.
    destruct (@growth_spike Exact _ _ _ k2 i) eqn:H2; [|].
    + apply exact_growth_spike_true in H2 as [Hs Hgt].
      assert (@growth_spike Exact (@growth_rate_loop Exact ExactNumPy b)
                (Rmean (@growth_rate_loop Exact ExactNumPy b))
                (Rstd (@growth_rate_loop Exact ExactNumPy b))
                k1 i = true) as ->; [|done].
      apply exact_growth_spike_true. split; [done|]. nra.
    + rewrite orb_false_l. destruct (component_increase c thr (i + 1));
        [by rewrite orb_true_r|done].
Qed.

End ExactDetector.


Lemma exact_spike_factor_mono_witness :
  (1 <= 2)%R
  ∧ @detect_division_events Exact ExactNumPy spike_biomass flat_counts 2%R 1
    `sublist_of`
    @detect_division_events Exact ExactNumPy spike_biomass flat_counts 1%R 1.
Proof.
  assert (H : (1 <= 2)%R) by lra. split; [exact H|].
  exact (exact_spike_factor_mono spike_biomass flat_counts 1%R 2%R 1 H).
Defined.

(** ** The pipeline on arbitrary frames *)

Lemma mapM_lookup_Some {A B} (f : A → option B) (l : list A) (k : list B)
    (i : nat) (y : B) :
  mapM f l = Some k → k !! i = Some y → ∃ x, l !! i = Some x ∧ f x = Some y.
Proof.
  intros Hm Hy. apply mapM_Some in Hm.
  destruct (Forall2_lookup_r _ _ _ _ _ Hm Hy) as (x & Hx & Hf). eauto.
Qed.

Section PipelineRows.
Context `{PF : PyFloat} `{NP : !NumPy} `{IL : !ImageLib} `{PR : !Predictor}.
Implicit Types (frames_gray : list (image pyfloat)) (threshold fps : pyfloat)
  (min_area : Z).

Lemma create_frame_sequence_5 {A} (all_frames : list A) :
  create_frame_sequence all_frames 5
  = Some ((λ c, (c, take 5 (drop (c - 2) all_frames)))
          <$> seq 2 (length all_frames - 4)).
Proof.
  pose proof (create_frame_sequence_eq all_frames 2) as H.
  change (2 * 2 + 1)%nat with 5%nat in H. rewrite H.
  by replace (length all_frames - 2 - 2)%nat
    with (length all_frames - 4)%nat by lia.
Qed.

(** The steps of [run_inference_pipeline] up to the metrics table. *)
Lemma run_inference_pipeline_inv frames_gray threshold min_area fps a :
  run_inference_pipeline frames_gray threshold min_area fps = Some a →
  ∃ per_frame rod elo com oth,
    mapM (λ s : nat * list (image pyfloat),
            analyze_window s.2 threshold min_area)
         ((λ c, (c, take 5 (drop (c - 2) (map normalize_frame frames_gray))))
          <$> seq 2 (length frames_gray - 4)) = Some per_frame
    ∧ all_biomass a = (λ x, x.1.1) <$> per_frame
    ∧ component_counts a
      = (λ x, Z.of_nat (length x.2)) <$> per_frame
    ∧ division_events a
      = detect_division_events (all_biomass a) (component_counts a) f2_0 1
    ∧ growth_rates a = f0_0 :: growth_rate_loop (all_biomass a)
    ∧ mapM (λ pc : gmap string Z, pc !! "rod_like")
           ((λ x, x.1.2) <$> per_frame) = Some rod
    ∧ mapM (λ pc : gmap string Z, pc !! "elongated")
           ((λ x, x.1.2) <$> per_frame) = Some elo
    ∧ mapM (λ pc : gmap string Z, pc !! "compact")
           ((λ x, x.1.2) <$> per_frame) = Some com
    ∧ mapM (λ pc : gmap string Z, pc !! "other")
           ((λ x, x.1.2) <$> per_frame) = Some oth
    ∧ DataFrame
        {| frame := py_range 0 (length (all_biomass a));
           time := (λ i : nat, fdiv (of_int (Z.of_nat i)) fps)
                   <$> py_range 0 (length (all_biomass a));
           area_pred := all_biomass a;
           growth_pred := growth_rates a;
           component_count := component_counts a;
           rod_like := rod; elongated := elo; compact := com; other := oth;
           division_like :=
             (λ i : nat, if bool_decide (i ∈ division_events a)
                         then 1 else 0)
             <$> py_range 0 (length (all_biomass a)) |}
      = Some (metrics a).
Proof.
  unfold run_inference_pipeline.
  rewrite create_frame_sequence_5, length_map. cbn [mbind option_bind].
  destruct (mapM _ _) as [per_frame|] eqn:Hper; [|done].
  cbn [mbind option_bind].
  rewrite <- !list_fmap_compose. unfold compose.
  destruct (mapM (λ pc : gmap string Z, pc !! "rod_like") _)
    as [rod|] eqn:Hrod; [|done]. cbn [mbind option_bind].
  destruct (mapM (λ pc : gmap string Z, pc !! "elongated") _)
    as [elo|] eqn:Helo; [|done]. cbn [mbind option_bind].
  destruct (mapM (λ pc : gmap string Z, pc !! "compact") _)
    as [com|] eqn:Hcom; [|done]. cbn [mbind option_bind].
  destruct (mapM (λ pc : gmap string Z, pc !! "other") _)
    as [oth|] eqn:Hoth; [|done]. cbn [mbind option_bind].
  destruct (DataFrame _) as [df|] eqn:Hdf; [|done]. cbn [mbind option_bind].
  intros Ha. apply (inj Some) in Ha. subst a.
  exists per_frame, rod, elo, com, oth. cbn [all_biomass component_counts
    division_events growth_rates metrics].
  repeat split; done.
Qed.

Lemma DataFrame_Some (m : metrics_data) (df : list metrics_row) :
  DataFrame m = Some df →
  let n := length (frame m) in
  (length (time m) = n ∧ length (area_pred m) = n
   ∧ length (growth_pred m) = n ∧ length (component_count m) = n
   ∧ length (rod_like m) = n ∧ length (elongated m) = n
   ∧ length (compact m) = n ∧ length (other m) = n
   ∧ length (division_like m) = n)
  ∧ length df = n
  ∧ ∀ i row, df !! i = Some row →
      (i < n)%nat
      ∧ row = {| r_frame := nth i (frame m) 0%nat;
                 r_time := nth i (time m) f0_0;
                 r_area_pred := nth i (area_pred m) 0;
                 r_growth_pred := nth i (growth_pred m) f0_0;
                 r_component_count := nth i (component_count m) 0;
                 r_rod_like := nth i (rod_like m) 0;
                 r_elongated := nth i (elongated m) 0;
                 r_compact := nth i (compact m) 0;
                 r_other := nth i (other m) 0;
                 r_division_like := nth i (division_like m) 0 |}.
Proof.
  unfold DataFrame. case_bool_decide as Hlen; [|done].
  intros Hdf. apply (inj Some) in Hdf. subst df. cbv zeta.
  split; [exact Hlen|]. unfold py_range. rewrite Nat.sub_0_r.
  split; [by rewrite length_fmap, length_seq|].
  intros i row Hrow. rewrite list_lookup_fmap in Hrow.
  destruct (seq 0 (length (frame m)) !! i) as [k|] eqn:Hk; [|done].
  apply lookup_seq in Hk as [-> Hi]. simpl in Hrow.
  apply (inj Some) in Hrow. by subst row.
Qed.

Lemma analyze_window_counts (w : list (image pyfloat)) threshold min_area
    (v : Z) (pc : gmap string Z) (comps : list component) :
  analyze_window w threshold min_area = Some (v, pc, comps) →
  0 ≤ v
  ∧ ∃ n1 n2 n3 n4,
      pc !! "rod_like" = Some n1 ∧ pc !! "elongated" = Some n2
      ∧ pc !! "compact" = Some n3 ∧ pc !! "other" = Some n4
      ∧ 0 ≤ n1 ∧ 0 ≤ n2 ∧ 0 ≤ n3 ∧ 0 ≤ n4
      ∧ n1 + n2 + n3 + n4 = Z.of_nat (length comps).
Proof.
  unfold analyze_window. destruct (predict w) as [pm|]; simpl; [|done].
  destruct (analyze_frame_ok
              (mask_cleaner pm threshold min_area default_erosion_kernel_size))
    as (pc' & comps' & Heq & _ & Hn & _).
  rewrite Heq. intros Hsome. apply (inj Some) in Hsome.
  injection Hsome as <- <- <-. split; [unfold compute_biomass; lia|exact Hn].
Qed.

Lemma run_inference_pipeline_lengths frames_gray threshold min_area fps a :
  run_inference_pipeline frames_gray threshold min_area fps = Some a →
  (5 ≤ length frames_gray)%nat
  ∧ length (all_biomass a) = (length frames_gray - 4)%nat.
Proof.
  intros Ha. apply run_inference_pipeline_inv in Ha
    as (per & rod & elo & com & oth & Hper & Hb & Hc & Hd & Hg & _ & _ & _
        & _ & Hdf).
  apply length_mapM in Hper. rewrite length_fmap, length_seq in Hper.
  assert (Hlen : length (all_biomass a) = (length frames_gray - 4)%nat)
    by (by rewrite Hb, length_fmap).
  apply DataFrame_Some in Hdf as [(_ & _ & Hgl & _) _].
  cbn [frame growth_pred] in Hgl. unfold py_range in Hgl.
  rewrite Hg, length_seq, Nat.sub_0_r in Hgl. cbn [length] in Hgl.
  rewrite growth_rate_loop_length in Hgl. lia.
Qed.

(** X15.  With fewer than five frames there is no window to analyse and
    the pipeline raises instead of returning an empty analysis: the series
    stay empty while [growth_rates] receives its leading [0.0], so the
    columns of the metrics table differ in length.  (In the source the
    video writer, called just before on the empty list of overlays, is the
    first to refuse.) *)
Theorem run_inference_pipeline_short frames_gray threshold min_area fps :
  (length frames_gray < 5)%nat →
  run_inference_pipeline frames_gray threshold min_area fps = None.
Proof.
  intros Hlen.
  destruct (run_inference_pipeline _ _ _ _) as [a|] eqn:Ha; [|done].
  apply run_inference_pipeline_lengths in Ha as [H5 _]. lia.
Qed.

(** X16.  A run of the pipeline that returns had at least five frames and
    produces one row per window, [N - 4] in all.  Row [i] is the analysis
    of the normalised frames [i .. i + 4] (the window centred at input
    frame [i + 2]): its frame number is [i], its time [i / fps], its
    predicted area and component count those of that window, its four
    phenotype counts are non-negative and add up to the component count,
    and its division flag is 1 exactly when [i] is among the division
    events, which are those the detector returns for the biomass and
    component series with factor 2.0 and threshold 1.  The growth column
    starts with 0.0 and continues with the growth-rate loop. *)
Theorem run_inference_pipeline_rows frames_gray threshold min_area fps a :
  run_inference_pipeline frames_gray threshold min_area fps = Some a →
  (5 ≤ length frames_gray)%nat
  ∧ length (metrics a) = (length frames_gray - 4)%nat
  ∧ length (all_biomass a) = (length frames_gray - 4)%nat
  ∧ growth_rates a = f0_0 :: growth_rate_loop (all_biomass a)
  ∧ division_events a
    = detect_division_events (all_biomass a) (component_counts a) f2_0 1
  ∧ ∀ i row, metrics a !! i = Some row →
      ∃ pc comps,
        analyze_window (take 5 (drop i (map normalize_frame frames_gray)))
          threshold min_area = Some (r_area_pred row, pc, comps)
        ∧ r_frame row = i
        ∧ r_time row = fdiv (of_int (Z.of_nat i)) fps
        ∧ all_biomass a !! i = Some (r_area_pred row)
        ∧ growth_rates a !! i = Some (r_growth_pred row)
        ∧ component_counts a !! i = Some (r_component_count row)
        ∧ r_component_count row = Z.of_nat (length comps)
        ∧ pc !! "rod_like" = Some (r_rod_like row)
        ∧ pc !! "elongated" = Some (r_elongated row)
        ∧ pc !! "compact" = Some (r_compact row)
        ∧ pc !! "other" = Some (r_other row)
        ∧ 0 ≤ r_rod_like row ∧ 0 ≤ r_elongated row
        ∧ 0 ≤ r_compact row ∧ 0 ≤ r_other row
        ∧ r_rod_like row + r_elongated row + r_compact row + r_other row
          = r_component_count row
        ∧ r_division_like row
          = (if bool_decide (i ∈ division_events a) then 1 else 0).
Proof.
  intros Ha. pose proof (run_inference_pipeline_lengths _ _ _ _ _ Ha)
    as [H5 Hlen].
  apply run_inference_pipeline_inv in Ha
    as (per & rod & elo & com & oth & Hper & Hb & Hc & Hd & Hg
        & Hrod & Helo & Hcom & Hoth & Hdf).
  apply DataFrame_Some in Hdf as (Hcols & Hrows & Hrow).
  cbn [frame time area_pred growth_pred component_count rod_like elongated
       compact other division_like] in Hcols, Hrows, Hrow.
  unfold py_range in Hcols, Hrows, Hrow.
  rewrite Nat.sub_0_r, length_seq in Hcols, Hrows.
  rewrite Nat.sub_0_r in Hrow.
  split; [exact H5|]. split; [by rewrite Hrows|]. split; [exact Hlen|].
  split; [exact Hg|]. split; [exact Hd|].
  intros i row Hi. apply Hrow in Hi as [Hi ->].
  rewrite length_seq in Hi. cbn [r_frame r_time r_area_pred r_growth_pred
    r_component_count r_rod_like r_elongated r_compact r_other
    r_division_like].
  set (n := length (all_biomass a)) in *.
  assert (Hperlen : length per = n) by (unfold n; by rewrite Hb, length_fmap).
  destruct (lookup_lt_is_Some_2 per i) as [[[v pc] comps] Hpi]; [lia|].
  destruct (mapM_lookup_Some _ _ _ _ _ Hper Hpi) as (s & Hs & Hwin).
  rewrite list_lookup_fmap in Hs.
  destruct (seq 2 (length frames_gray - 4) !! i) as [c|] eqn:Hc';
    [|done].
  apply lookup_seq in Hc' as [-> _]. simpl in Hs.
  apply (inj Some) in Hs. subst s. cbn [snd] in Hwin.
  replace (2 + i - 2)%nat with i in Hwin by lia.
  rewrite ?Nat.sub_0_r in Hwin.
  assert (Hpc : ((λ x : Z * gmap string Z * list component, x.1.2) <$> per)
                !! i = Some pc) by (by rewrite list_lookup_fmap, Hpi).
  assert (Hcol : ∀ (key : string) (col : list Z),
            mapM (λ pc : gmap string Z, pc !! key)
                 ((λ x : Z * gmap string Z * list component, x.1.2) <$> per)
            = Some col →
            ∀ m, pc !! key = Some m → nth i col 0 = m).
  { intros key col Hm m Hk. apply mapM_Some in Hm.
    destruct (Forall2_lookup_l _ _ _ _ _ Hm Hpc) as (y & Hy & Hky).
    rewrite (nth_lookup_Some _ _ _ _ Hy). congruence. }
  destruct (analyze_window_counts _ _ _ _ _ _ Hwin)
    as (Hv & n1 & n2 & n3 & n4 & H1 & H2 & H3 & H4 & Hn1 & Hn2 & Hn3 & Hn4
        & Hsum).
  rewrite (Hcol _ _ Hrod _ H1), (Hcol _ _ Helo _ H2), (Hcol _ _ Hcom _ H3),
    (Hcol _ _ Hoth _ H4).
  assert (Hbi : all_biomass a !! i = Some v)
    by (by rewrite Hb, list_lookup_fmap, Hpi).
  assert (Hci : component_counts a !! i = Some (Z.of_nat (length comps)))
    by (by rewrite Hc, list_lookup_fmap, Hpi).
  rewrite (nth_lookup_Some _ _ _ _ Hbi), (nth_lookup_Some _ _ _ _ Hci).
  exists pc, comps. split; [exact Hwin|].
  rewrite (nth_lookup_Some (seq 0 n) i 0%nat i)
    by (apply lookup_seq; lia).
  split; [done|]. split.
  { erewrite nth_lookup_Some; [done|].
    rewrite list_lookup_fmap, (proj2 (lookup_seq 0 n i i)) by lia. done. }
  split; [done|]. split.
  { destruct (nth_lookup_or_length (growth_rates a) i f0_0) as [Hgi|Hgi];
      [done|]. destruct Hcols as (_ & _ & Hgl & _). lia. }
  split; [done|]. split; [done|].
  do 4 (split; [done|]). do 4 (split; [done|]). split; [exact Hsum|].
  erewrite nth_lookup_Some; [done|].
  rewrite list_lookup_fmap, (proj2 (lookup_seq 0 n i i)) by lia. done.
Qed.

End PipelineRows.

Lemma run_inference_pipeline_short_witness :
  (length (take 4 (@frames7 Exact)) < 5)%nat
  ∧ @run_inference_pipeline Exact ExactNumPy FullMaskLib OnesPredictor
      (take 4 frames7) (@lit Exact (1 # 2)) 0 (@lit Exact (2 # 1)) = None.
Proof.
  assert (H : (length (take 4 (@frames7 Exact)) < 5)%nat) by (simpl; lia).
  split; [exact H|].
  exact (@run_inference_pipeline_short Exact ExactNumPy FullMaskLib
           OnesPredictor (take 4 frames7) (@lit Exact (1 # 2)) 0
           (@lit Exact (2 # 1)) H).
Defined.

Lemma run_inference_pipeline_rows_witness :
  ∃ a,
    @run_inference_pipeline Exact ExactNumPy FullMaskLib OnesPredictor
      frames7 (@lit Exact (1 # 2)) 0 (@lit Exact (2 # 1)) = Some a
    ∧ length (metrics a) = 3%nat
    ∧ length (all_biomass a) = 3%nat.
Proof.
  destruct (ones_window_analysis
              (replicate 5 (@normalize_frame Exact OnesPredictor
                              [[@f0_0 Exact; @f1_0 Exact];
                               [@f1_0 Exact; @f0_0 Exact]])))
    as (pc & comps & Hwin).
  destruct (@run_inference_pipeline_constant Exact ExactNumPy FullMaskLib
              OnesPredictor
              [[@f0_0 Exact; @f1_0 Exact]; [@f1_0 Exact; @f0_0 Exact]]
              7 (@lit Exact (1 # 2)) 0 (@lit Exact (2 # 1)) 4 pc comps)
    as (a & Ha & _); [lia|exact Hwin|lia| |].
  { cbn [fgt np_std of_int Exact ExactNumPy].
    rewrite Rstd_replicate. apply Rgtb_false. lra. }
  exists a. split; [exact Ha|].
  destruct (@run_inference_pipeline_rows Exact ExactNumPy FullMaskLib
              OnesPredictor frames7 (@lit Exact (1 # 2)) 0
              (@lit Exact (2 # 1)) a Ha) as (_ & Hm & Hb & _).
  split; [exact Hm|exact Hb].
Defined.

(** ** The frame analysis in closed form *)

Section AnalyzerMore.
Context `{PF : PyFloat} `{IL : !ImageLib}.




End AnalyzerMore.

(** ** The mask cleaner: what cleaning can and cannot do *)



Section MaskCleanerMore.
Context `{PF : PyFloat} `{IL : !ImageLib}.




Lemma pixel_Forall {A} (P : A → Prop) (img : image A) (r c : nat) (v : A) :
  Forall (Forall P) img → pixel img r c = Some v → P v.
Proof.
  unfold pixel. intros H Hv.
  destruct (img !! r) as [row|] eqn:Hr; simpl in Hv; [|done].
  rewrite Forall_forall in H.
  assert (Hrow : Forall P row)
    by (apply H, list_elem_of_lookup; eauto).
  rewrite Forall_forall in Hrow. apply Hrow, list_elem_of_lookup. eauto.
Qed.





End MaskCleanerMore.




(** ** The background task: its registry calls and what they leave *)

Section TaskFacts.
Context `{PF : PyFloat} {payload : Type}.
Implicit Types (c : registry_call payload) (cs us : list (registry_call payload)).

Lemma bind_calls {A B} (t : Task payload A) (f : A → Task payload B) :
  (t ≫= f).1
  = t.1 ++ match t.2 with Ok a => (f a).1 | Raise _ => [] end.
Proof.
  unfold mbind, task_mbind, task_bind.
  destruct t as [cs [a|e]]; simpl; [done|by rewrite app_nil_r].
Qed.

Lemma bind_result {A B} (t : Task payload A) (f : A → Task payload B) :
  (t ≫= f).2 = match t.2 with Ok a => (f a).2 | Raise e => Raise e end.
Proof.
  unfold mbind, task_mbind, task_bind. by destruct t as [cs [a|e]].
Qed.

Lemma quiet_bind {A B} (Q : B → list (registry_call payload) → Prop)
    (t : Task payload A) (f : A → Task payload B) :
  quiet (λ _ cs, Forall (λ c, call_status c = None) cs) t →
  (∀ a, quiet Q (f a)) →
  (∀ b us cs, Forall (λ c, call_status c = None) us → Q b cs →
     Q b (us ++ cs)) →
  quiet Q (t ≫= f).
Proof.
  unfold quiet. intros Ht Hf HQ. rewrite bind_calls, bind_result.
  destruct (t.2) as [a|e]; [|by rewrite app_nil_r].
  specialize (Hf a). destruct ((f a).2) as [b|e].
  - by apply HQ.
  - by apply Forall_app.
Qed.

Lemma quiet_block {A} (r : result A) :
  quiet (λ _ cs, Forall (λ c, call_status c = None) cs)
        (block r : Task payload A).
Proof. unfold quiet, block. destruct r; simpl; constructor. Qed.

Lemma quiet_update p st msg :
  quiet (λ _ cs, Forall (λ c, call_status c = None) cs)
        (emit (CallUpdate None p st msg) : Task payload unit).
Proof. unfold quiet, emit. simpl. by repeat constructor. Qed.

Lemma quiet_ret {A} (a : A) :
  quiet (λ _ cs, Forall (λ c, call_status c = None) cs)
        (mret a : Task payload A).
Proof. unfold quiet. simpl. constructor. Qed.

Lemma quiet_plain_bind {A B} (t : Task payload A) (f : A → Task payload B) :
  quiet (λ _ cs, Forall (λ c, call_status c = None) cs) t →
  (∀ a, quiet (λ _ cs, Forall (λ c, call_status c = None) cs) (f a)) →
  quiet (λ _ cs, Forall (λ c, call_status c = None) cs) (t ≫= f).
Proof.
  intros Ht Hf. apply quiet_bind; [done|done|].
  intros _ us cs Hus Hcs. by apply Forall_app.
Qed.

Lemma quiet_for_enumerate {A B} (body : nat → A → Task payload B)
    (idx : nat) (l : list A) :
  (∀ i x, quiet (λ _ cs, Forall (λ c, call_status c = None) cs) (body i x)) →
  quiet (λ _ cs, Forall (λ c, call_status c = None) cs)
        (for_enumerate body idx l).
Proof.
  intros Hbody. revert idx. induction l as [|x l IH]; intros idx; simpl.
  - apply quiet_ret.
  - apply quiet_plain_bind; [apply Hbody|]. intros b.
    apply quiet_plain_bind; [apply IH|]. intros bs. apply quiet_ret.
Qed.

End TaskFacts.

Section OrchestratorFacts.
Context `{PF : PyFloat} {payload : Type} `{BE : !Backend payload}.
Implicit Types (c : registry_call payload) (cs us : list (registry_call payload)).

Lemma quiet_report_progress what base span parts idx total :
  quiet (λ _ cs, Forall (λ c, call_status c = None) cs)
        (report_progress what base span parts idx total
         : Task payload unit).
Proof.
  unfold report_progress. destruct (_ =? _)%nat.
  - apply quiet_update.
  - apply quiet_ret.
Qed.

(** The calls of the pipeline leave the status alone, up to the final
    [mark_completed] with the results it returns. *)
Lemma pipeline_calls frames_gray frames_rgb gt_masks j threshold min_area
    fps :
  quiet (λ results_ cs,
           ∃ us, cs = us ++ [CallCompleted results_]
                 ∧ Forall (λ c, call_status c = None) us)
        (_run_inference_pipeline frames_gray frames_rgb gt_masks j threshold
           min_area fps).
Proof.
  assert (Hpre : ∀ (b : payload) us cs,
    Forall (λ c, call_status c = None) us →
    (∃ us0, cs = us0 ++ [CallCompleted b]
            ∧ Forall (λ c, call_status c = None) us0) →
    ∃ us0, us ++ cs = us0 ++ [CallCompleted b]
           ∧ Forall (λ c, call_status c = None) us0).
  { intros b us cs Hus (us0 & -> & Hus0). exists (us ++ us0).
    split; [by rewrite app_assoc|by apply Forall_app]. }
  unfold _run_inference_pipeline.
  apply quiet_bind; [apply quiet_block| |exact Hpre]. intros _.
  apply quiet_bind; [apply quiet_block| |exact Hpre]. intros fn.
  apply quiet_bind; [apply quiet_update| |exact Hpre]. intros _.
  apply quiet_bind; [apply quiet_block| |exact Hpre]. intros sequences.
  cbv zeta.
  apply quiet_bind; [| |exact Hpre].
  { apply quiet_for_enumerate. intros i x.
    apply quiet_plain_bind; [apply quiet_report_progress|].
    intros _. apply quiet_block. }
  intros analyses.
  apply quiet_bind; [apply quiet_update| |exact Hpre]. intros _.
  apply quiet_bind; [apply quiet_block| |exact Hpre]. intros post.
  apply quiet_bind; [apply quiet_update| |exact Hpre]. intros _.
  apply quiet_bind; [| |exact Hpre].
  { apply quiet_for_enumerate. intros i x.
    apply quiet_plain_bind; [apply quiet_report_progress|].
    intros _. apply quiet_block. }
  intros overlays.
  apply quiet_bind; [apply quiet_update| |exact Hpre]. intros _.
  apply quiet_bind; [apply quiet_block| |exact Hpre]. intros _.
  apply quiet_bind; [apply quiet_update| |exact Hpre]. intros _.
  apply quiet_bind; [apply quiet_block| |exact Hpre]. intros results_.
  unfold quiet. simpl. exists []. split; [done|constructor].
Qed.

End OrchestratorFacts.

Section RunCalls.
Context `{PF : PyFloat} {payload : Type}.
Implicit Types (m : @JobManager PF payload) (d : @job PF)
  (c : registry_call payload) (cs us : list (registry_call payload))
  (j : string).

Lemma run_calls_app m j now k cs1 cs2 :
  run_calls m j now k (cs1 ++ cs2)
  = run_calls (run_calls m j now k cs1) j now (k + length cs1) cs2.
Proof.
  revert m k. induction cs1 as [|c cs1 IH]; intros m k; simpl.
  - by rewrite Nat.add_0_r.
  - rewrite IH. f_equal. lia.
Qed.

Lemma update_job_ok m j s p st msg e r now :
  registry_ok m → registry_ok (update_job m j s p st msg e r now).
Proof. intros Hok. exact (step_ok m (UpdateJob j s p st msg e r now) Hok). Qed.

(** What one call makes of the registered job. *)
Lemma do_call_job m j c now d :
  registry_ok m → live_job m j = Some d →
  registry_ok (do_call m j c now)
  ∧ live_job (do_call m j c now) j
    = Some (match c with
            | CallUpdate s p st msg =>
              apply_update d s p st msg None None now
            | CallFailed e =>
              apply_update d (Some FAILED) (Some (lit (100 # 1))) None None
                (Some e) None now
            | CallCompleted _ =>
              apply_update d (Some COMPLETED) (Some (lit (100 # 1)))
                (Some SAVING_RESULTS) (Some "Processing completed") None
                (Some (fresh (dom (store m)))) now
            end).
Proof.
  intros Hok Hl. destruct c as [s p st msg | e | res]; simpl.
  - split; [by apply update_job_ok|].
    rewrite (live_job_update m j j d) by done. by rewrite decide_True.
  - unfold mark_failed. split; [by apply update_job_ok|].
    rewrite (live_job_update m j j d) by done. by rewrite decide_True.
  - unfold mark_completed.
    pose proof (registry_ok_alloc m (ResultsDict res) Hok) as Hok'.
    pose proof (live_job_alloc m (ResultsDict res) j Hok) as Hl'.
    rewrite Hl in Hl'.
    split; [by apply update_job_ok|].
    rewrite (live_job_update _ j j d) by done. by rewrite decide_True.
Qed.

(** An object that is not a registered job dict survives every call. *)
Lemma do_call_store m j c now l o :
  registry_ok m → store m !! l = Some o → (∀ j', jobs m !! j' ≠ Some l) →
  store (do_call m j c now) !! l = Some o
  ∧ (∀ j', jobs (do_call m j c now) !! j' ≠ Some l).
Proof.
  intros Hok Hl Hfree. destruct c as [s p st msg | e | res]; simpl.
  - exact (step_store m (UpdateJob j s p st msg None None now) l o Hok Hl
             Hfree).
  - exact (step_store m (MarkFailed j e now) l o Hok Hl Hfree).
  - pose proof (registry_ok_alloc m (ResultsDict res) Hok) as Hok'.
    apply (step_store _ (MarkCompleted j (fresh (dom (store m))) now) l o
             Hok'); simpl; [|done].
    rewrite lookup_insert_ne; [done|].
    intros <-. by rewrite fresh_unused in Hl.
Qed.

Lemma do_call_completed_store m j res now :
  registry_ok m →
  store (do_call m j (CallCompleted res) now) !! fresh (dom (store m))
  = Some (ResultsDict res)
  ∧ (∀ j', jobs (do_call m j (CallCompleted res) now) !! j'
           ≠ Some (fresh (dom (store m)))).
Proof.
  intros Hok.
  pose proof (registry_ok_alloc m (ResultsDict res) Hok) as Hok'.
  simpl.
  apply (step_store _ (MarkCompleted j (fresh (dom (store m))) now) _ _ Hok');
    simpl.
  - by rewrite lookup_insert_eq.
  - intros j' Hj'. destruct Hok as [Hdict _].
    destruct (Hdict _ _ Hj') as [d Hd]. by rewrite fresh_unused in Hd.
Qed.

Lemma run_calls_store m j now k cs l o :
  registry_ok m → store m !! l = Some o → (∀ j', jobs m !! j' ≠ Some l) →
  store (run_calls m j now k cs) !! l = Some o.
Proof.
  revert m k. induction cs as [|c cs IH]; intros m k Hok Hl Hfree; simpl;
    [done|].
  destruct (do_call_store m j c (now k) l o Hok Hl Hfree) as [Hl' Hfree'].
  destruct (live_job m j) as [d|] eqn:Hd.
  - apply IH; [|done|done]. by apply (do_call_job m j c (now k) d).
  - apply IH; [|done|done].
    destruct c as [s p st msg | e | res]; simpl.
    + by apply update_job_ok.
    + by apply update_job_ok.
    + by apply update_job_ok, registry_ok_alloc.
Qed.

(** The registered job stays registered, with its identity, through the
    calls of a task. *)
Lemma run_calls_live m j now k cs d :
  registry_ok m → live_job m j = Some d →
  registry_ok (run_calls m j now k cs)
  ∧ ∃ d', live_job (run_calls m j now k cs) j = Some d'
      ∧ job_id d' = job_id d ∧ file_type d' = file_type d
      ∧ filename d' = filename d ∧ created_at d' = created_at d.
Proof.
  revert m k d. induction cs as [|c cs IH]; intros m k d Hok Hl; simpl.
  - split; [done|]. by exists d.
  - destruct (do_call_job m j c (now k) d Hok Hl) as [Hok' Hl'].
    destruct (IH _ (S k) _ Hok' Hl') as (Hok'' & d' & Hd' & H1 & H2 & H3 & H4).
    split; [done|]. exists d'. split; [done|].
    rewrite H1, H2, H3, H4. by destruct c.
Qed.

(** Calls of [update_job] by the task leave error and results alone; if
    they do not set the status, that too. *)
Lemma run_calls_quiet m j now k us d :
  registry_ok m → live_job m j = Some d →
  Forall (λ c, call_status c = None) us →
  ∃ d', live_job (run_calls m j now k us) j = Some d'
    ∧ status d' = status d ∧ error d' = error d ∧ results d' = results d.
Proof.
  revert m k d. induction us as [|c us IH]; intros m k d Hok Hl Hus; simpl.
  - by exists d.
  - apply Forall_cons in Hus as [Hc Hus].
    destruct (do_call_job m j c (now k) d Hok Hl) as [Hok' Hl'].
    destruct (IH _ (S k) _ Hok' Hl' Hus) as (d' & Hd' & H1 & H2 & H3).
    exists d'. split; [done|]. rewrite H1, H2, H3.
    destruct c as [s p st msg | e | res]; simpl in Hc; [|done|done].
    by subst s.
Qed.

(** A run that ends with [mark_failed]. *)
Lemma run_calls_failed m j now k cs e d :
  registry_ok m → live_job m j = Some d →
  ∃ d', live_job (run_calls m j now k (cs ++ [CallFailed e])) j = Some d'
    ∧ status d' = FAILED ∧ progress d' = lit (100 # 1)
    ∧ error d' = Some e.
Proof.
  intros Hok Hl. rewrite run_calls_app. simpl.
  destruct (run_calls_live m j now k cs d Hok Hl) as (Hok' & d1 & Hd1 & _).
  destruct (do_call_job _ j (CallFailed e) (now (k + length cs)%nat) d1 Hok' Hd1)
    as [_ Hl'].
  eexists. split; [exact Hl'|]. done.
Qed.

(** A run that marks the job Running, reports progress and ends with
    [mark_completed]. *)
Lemma run_calls_completed m j now k p0 st0 msg0 us res d :
  registry_ok m → live_job m j = Some d →
  Forall (λ c, call_status c = None) us →
  let m' := run_calls m j now k
              (CallUpdate (Some RUNNING) p0 st0 msg0
               :: us ++ [CallCompleted res]) in
  ∃ d' r, live_job m' j = Some d'
    ∧ status d' = COMPLETED ∧ progress d' = lit (100 # 1)
    ∧ stage d' = SAVING_RESULTS ∧ message d' = "Processing completed"
    ∧ error d' = error d ∧ results d' = Some r
    ∧ store m' !! r = Some (ResultsDict res)
    ∧ (∀ j', jobs m' !! j' ≠ Some r).
Proof.
  intros Hok Hl Hus m'. unfold m'. simpl. rewrite run_calls_app. simpl.
  destruct (do_call_job m j (CallUpdate (Some RUNNING) p0 st0 msg0) (now k)
              d Hok Hl) as [Hok1 Hl1].
  set (m1 := do_call m j (CallUpdate (Some RUNNING) p0 st0 msg0) (now k))
    in *.
  destruct (run_calls_live m1 j now (S k) us _ Hok1 Hl1) as (Hok2 & _).
  destruct (run_calls_quiet m1 j now (S k) us _ Hok1 Hl1 Hus)
    as (d2 & Hd2 & _ & He & _).
  set (m2 := run_calls m1 j now (S k) us) in *.
  destruct (do_call_job m2 j (CallCompleted res) (now (S k + length us)%nat) d2
              Hok2 Hd2) as [_ Hl3].
  destruct (do_call_completed_store m2 j res (now (S k + length us)%nat) Hok2)
    as [Hs Hfree].
  eexists. exists (fresh (dom (store m2))). split; [exact Hl3|].
  simpl. rewrite He. simpl. repeat split; done.
Qed.

End RunCalls.

Section Protocol.
Context `{PF : PyFloat} {payload : Type} `{BE : !Backend payload}.
Implicit Types (m : @JobManager PF payload) (d : @job PF)
  (c : registry_call payload) (cs us : list (registry_call payload))
  (j : string).

Lemma try_reraise {A} (body : Task payload A) :
  let t := try_except body (λ e, emit (CallFailed e);; raise e) in
  t.2 = body.2
  ∧ t.1 = body.1 ++ match body.2 with
                    | Ok _ => []
                    | Raise e => [CallFailed e]
                    end.
Proof.
  unfold try_except. destruct body as [cs [a|e]]; simpl.
  - by rewrite app_nil_r.
  - done.
Qed.

Lemma try_swallow (body : Task payload unit) :
  let t := try_except body (λ e, emit (CallFailed e)) in
  t.2 = Ok tt
  ∧ t.1 = body.1 ++ match body.2 with
                    | Ok _ => []
                    | Raise e => [CallFailed e]
                    end.
Proof.
  unfold try_except. destruct body as [cs [[]|e]]; simpl.
  - by rewrite app_nil_r.
  - done.
Qed.

Lemma completed_prefix (b : payload) us cs :
  Forall (λ c, call_status c = None) us →
  (∃ us0, cs = us0 ++ [CallCompleted b]
          ∧ Forall (λ c, call_status c = None) us0) →
  ∃ us0, us ++ cs = us0 ++ [CallCompleted b]
         ∧ Forall (λ c, call_status c = None) us0.
Proof.
  intros Hus (us0 & -> & Hus0). exists (us ++ us0).
  split; [by rewrite app_assoc|by apply Forall_app].
Qed.

(** The calls of a method of the engine: the first marks the job Running,
    the last is [mark_completed] with the returned results or
    [mark_failed] with the raised error, and no call in between sets the
    status. *)
Lemma engine_calls (start : registry_call payload)
    (rest : Task payload payload) :
  quiet (λ results_ cs,
           ∃ us, cs = us ++ [CallCompleted results_]
                 ∧ Forall (λ c, call_status c = None) us) rest →
  let t := try_except (emit start;; rest)
             (λ e, emit (CallFailed e);; raise e) in
  ∃ us, Forall (λ c, call_status c = None) us
    ∧ t.1 = start :: us ++ [match t.2 with
                            | Ok results_ => CallCompleted results_
                            | Raise e => CallFailed e
                            end].
Proof.
  intros Hrest t. destruct (try_reraise (emit start;; rest)) as [H2 H1].
  fold t in H1, H2. rewrite H1, H2, bind_calls, bind_result. simpl.
  unfold quiet in Hrest. destruct (rest.2) as [res|e].
  - destruct Hrest as (us & -> & Hus). exists us. split; [done|].
    by rewrite app_nil_r.
  - exists (rest.1). split; [done|]. done.
Qed.

Lemma process_video_rest video_path j threshold min_area :
  quiet (λ results_ cs,
           ∃ us, cs = us ++ [CallCompleted results_]
                 ∧ Forall (λ c, call_status c = None) us)
        (read ← block (read_video_frames video_path);
         let '(frames_rgb, fps) := read in
         frames_gray ← block (prepare_frames_for_inference frames_rgb);
         _run_inference_pipeline frames_gray frames_rgb None j threshold
           min_area fps).
Proof.
  apply quiet_bind; [apply quiet_block| |apply completed_prefix].
  intros [frames_rgb fps].
  apply quiet_bind; [apply quiet_block| |apply completed_prefix].
  intros frames_gray. apply pipeline_calls.
Qed.

Lemma process_dataset_rest dataset_path j threshold min_area :
  quiet (λ results_ cs,
           ∃ us, cs = us ++ [CallCompleted results_]
                 ∧ Forall (λ c, call_status c = None) us)
        (loaded ← block (if is_dir dataset_path
                         then load_frames_from_directory dataset_path
                         else extract_dataset_from_zip dataset_path);
         let '(frames_gray, gt_masks) := loaded in
         (if (length frames_gray =? 0)%nat
          then raise "No frames found in dataset" else mret tt);;
         frames_rgb ← block (stack_rgb frames_gray);
         _run_inference_pipeline frames_gray frames_rgb
           (if (0 <? length gt_masks)%nat then Some gt_masks else None)
           j threshold min_area (lit (2 # 1))).
Proof.
  apply quiet_bind; [apply quiet_block| |apply completed_prefix].
  intros [frames_gray gt_masks].
  apply quiet_bind; [| |apply completed_prefix].
  { destruct (_ =? _)%nat; [|apply quiet_ret].
    unfold quiet, raise. simpl. constructor. }
  intros _.
  apply quiet_bind; [apply quiet_block| |apply completed_prefix].
  intros frames_rgb. apply pipeline_calls.
Qed.

(** X20.  The registry calls of [process_video] and [process_dataset]:
    the first marks the job Running in stage Preprocessing at progress 5,
    the last is [mark_completed] with the results the method returns or
    [mark_failed] with the error it raises, and no call in between sets the
    status.  So each run makes exactly one terminal call, and makes it
    last. *)
Theorem engine_call_protocol (path j : string) (threshold : pyfloat)
    (min_area : Z) :
  let protocol (t : Task payload payload) (msg : string) :=
    ∃ us, Forall (λ c, call_status c = None) us
      ∧ t.1 = CallUpdate (Some RUNNING) (Some (lit (5 # 1)))
                (Some PREPROCESSING) (Some msg)
              :: us ++ [match t.2 with
                        | Ok results_ => CallCompleted results_
                        | Raise e => CallFailed e
                        end] in
  protocol (process_video path j threshold min_area) "Reading video frames"
  ∧ protocol (process_dataset path j threshold min_area) "Loading dataset".
Proof.
  intros protocol. split.
  - apply (engine_calls (CallUpdate (Some RUNNING) (Some (lit (5 # 1)))
                               (Some PREPROCESSING)
                               (Some "Reading video frames"))), process_video_rest.
  - apply (engine_calls (CallUpdate (Some RUNNING) (Some (lit (5 # 1)))
                               (Some PREPROCESSING)
                               (Some "Loading dataset"))), process_dataset_rest.
Qed.

(** The engine call of [process_file_body]. *)
Lemma dispatch_calls (j file_path file_type_ : string) threshold min_area :
  let t : Task payload payload :=
    if bool_decide (file_type_ = "video")
    then process_video file_path j threshold min_area
    else if bool_decide (file_type_ = "dataset")
    then process_dataset file_path j threshold min_area
    else raise ("Unknown file type: " +:+ file_type_) in
  match t.2 with
  | Ok results_ =>
    ∃ p0 st0 msg0 us,
      Forall (λ c, call_status c = None) us
      ∧ t.1 = CallUpdate (Some RUNNING) p0 st0 msg0
              :: us ++ [CallCompleted results_]
  | Raise e => True
  end.
Proof.
  intros t. unfold t. clear t.
  destruct (bool_decide (file_type_ = "video")).
  - destruct (engine_calls (CallUpdate (Some RUNNING) (Some (lit (5 # 1)))
                               (Some PREPROCESSING)
                               (Some "Reading video frames")) _
                (process_video_rest file_path j threshold min_area))
      as (us & Hus & Hcs).
    fold (process_video file_path j threshold min_area) in Hcs.
    destruct ((process_video file_path j threshold min_area).2); [|done].
    eauto 10.
  - destruct (bool_decide (file_type_ = "dataset")); [|done].
    destruct (engine_calls (CallUpdate (Some RUNNING) (Some (lit (5 # 1)))
                               (Some PREPROCESSING)
                               (Some "Loading dataset")) _
                (process_dataset_rest file_path j threshold min_area))
      as (us & Hus & Hcs).
    fold (process_dataset file_path j threshold min_area) in Hcs.
    destruct ((process_dataset file_path j threshold min_area).2); [|done].
    eauto 10.
Qed.

Lemma process_file_body_calls (j file_path file_type_ : string)
    threshold min_area :
  let body := process_file_body j file_path file_type_ threshold min_area in
  match body.2 with
  | Ok _ =>
    ∃ p0 st0 msg0 us results_,
      Forall (λ c, call_status c = None) us
      ∧ body.1 = CallUpdate (Some RUNNING) p0 st0 msg0
                 :: us ++ [CallCompleted results_]
  | Raise e => True
  end.
Proof.
  intros body. unfold body, process_file_body.
  pose proof (dispatch_calls j file_path file_type_ threshold min_area) as H.
  cbv zeta in H.
  set (t := if bool_decide (file_type_ = "video")
            then process_video file_path j threshold min_area
            else if bool_decide (file_type_ = "dataset")
            then process_dataset file_path j threshold min_area
            else raise ("Unknown file type: " +:+ file_type_)) in *.
  clearbody t. rewrite !bind_calls, !bind_result.
  destruct get_inference_engine as [[]|e]; simpl; [|done].
  rewrite ?bind_calls, ?bind_result.
  destruct t as [cs [res|e]]; simpl in *; [|done].
  destruct H as (p0 & st0 & msg0 & us & Hus & ->).
  destruct (cleanup_upload j) as [[]|e]; simpl; [|done].
  rewrite app_nil_r. eauto 10.
Qed.

Lemma process_example_body_calls (j dataset_path : string)
    threshold min_area :
  let body := process_example_body j dataset_path threshold min_area in
  match body.2 with
  | Ok _ =>
    ∃ p0 st0 msg0 us results_,
      Forall (λ c, call_status c = None) us
      ∧ body.1 = CallUpdate (Some RUNNING) p0 st0 msg0
                 :: us ++ [CallCompleted results_]
  | Raise e => True
  end.
Proof.
  intros body. unfold body, process_example_body.
  rewrite !bind_calls, !bind_result.
  destruct get_inference_engine as [[]|e]; simpl; [|done].
  rewrite ?bind_calls, ?bind_result.
  destruct (engine_calls (CallUpdate (Some RUNNING) (Some (lit (5 # 1)))
                               (Some PREPROCESSING)
                               (Some "Loading dataset")) _
              (process_dataset_rest dataset_path j threshold min_area))
    as (us & Hus & Hcs).
  fold (process_dataset dataset_path j threshold min_area) in Hcs.
  destruct ((process_dataset dataset_path j threshold min_area).2)
    as [res|e]; [|done].
  rewrite Hcs. simpl. rewrite app_nil_r. eauto 10.
Qed.

(** What a background function leaves in the registry. *)
Lemma background_outcome (body : Task payload unit) m j now k d :
  match body.2 with
  | Ok _ =>
    ∃ p0 st0 msg0 us results_,
      Forall (λ c, call_status c = None) us
      ∧ body.1 = CallUpdate (Some RUNNING) p0 st0 msg0
                 :: us ++ [CallCompleted results_]
  | Raise e => True
  end →
  registry_ok m → live_job m j = Some d →
  let t := try_except body (λ e, emit (CallFailed e)) in
  let m' := run_calls m j now k t.1 in
  t.2 = Ok tt
  ∧ registry_ok m'
  ∧ ∃ d', live_job m' j = Some d'
      ∧ job_id d' = job_id d ∧ file_type d' = file_type d
      ∧ filename d' = filename d ∧ created_at d' = created_at d
      ∧ progress d' = lit (100 # 1)
      ∧ match body.2 with
        | Ok _ =>
          status d' = COMPLETED ∧ stage d' = SAVING_RESULTS
          ∧ message d' = "Processing completed" ∧ error d' = error d
          ∧ ∃ r results_, results d' = Some r
              ∧ store m' !! r = Some (ResultsDict results_)
        | Raise e => status d' = FAILED ∧ error d' = Some e
        end.
Proof.
  intros Hbody Hok Hl t m'. unfold m', t, try_except. clear t m'.
  destruct body as [cs [[]|e]]; cbn [fst snd] in *.
  - split; [done|].
    destruct (run_calls_live m j now k cs d Hok Hl)
      as (Hok' & d' & Hd' & Hi1 & Hi2 & Hi3 & Hi4).
    split; [exact Hok'|].
    exists d'. split; [exact Hd'|]. do 4 (split; [done|]).
    destruct Hbody as (p0 & st0 & msg0 & us & res & Hus & ->).
    destruct (run_calls_completed m j now k p0 st0 msg0 us res d Hok Hl Hus)
      as (d'' & r & Hd'' & Hs & Hp & Hst & Hmsg & He & Hr & Hstore & _).
    rewrite Hd'' in Hd'. apply (inj Some) in Hd'. subst d''.
    split; [done|]. do 4 (split; [done|]). by exists r, res.
  - simpl. split; [done|].
    destruct (run_calls_live m j now k (cs ++ [CallFailed e]) d Hok Hl)
      as (Hok' & d' & Hd' & Hi1 & Hi2 & Hi3 & Hi4).
    split; [exact Hok'|].
    exists d'. split; [exact Hd'|]. do 4 (split; [done|]).
    destruct (run_calls_failed m j now k cs e d Hok Hl)
      as (d'' & Hd'' & Hs & Hp & He).
    rewrite Hd'' in Hd'. apply (inj Some) in Hd'. by subst d''.
Qed.

(** X21.  A background function never raises, and when it has run, a job
    that was registered is still registered with the same identity, at
    progress 100 and in a terminal state: Completed, in stage Saving
    Results, with the results dict in the store and its earlier error
    field, if the [try] block returned; Failed with the error of the
    exception, if it raised. *)
Theorem background_task_outcome (j path file_type_ : string)
    (threshold : pyfloat) (min_area : Z) m now d :
  registry_ok m → live_job m j = Some d →
  let outcome (t body : Task payload unit) :=
    let m' := run_calls m j now 0 t.1 in
    t.2 = Ok tt
    ∧ registry_ok m'
    ∧ ∃ d', live_job m' j = Some d'
        ∧ job_id d' = job_id d ∧ file_type d' = file_type d
        ∧ filename d' = filename d ∧ created_at d' = created_at d
        ∧ progress d' = lit (100 # 1)
        ∧ match body.2 with
          | Ok _ =>
            status d' = COMPLETED ∧ stage d' = SAVING_RESULTS
            ∧ message d' = "Processing completed" ∧ error d' = error d
            ∧ ∃ r results_, results d' = Some r
                ∧ store m' !! r = Some (ResultsDict results_)
          | Raise e => status d' = FAILED ∧ error d' = Some e
          end in
  outcome (process_file_background j path file_type_ threshold min_area)
          (process_file_body j path file_type_ threshold min_area)
  ∧ outcome (process_example_background j path threshold min_area)
            (process_example_body j path threshold min_area).
Proof.
  intros Hok Hl outcome. split.
  - apply (background_outcome _ m j now 0 d); [|done|done].
    apply process_file_body_calls.
  - apply (background_outcome _ m j now 0 d); [|done|done].
    apply process_example_body_calls.
Qed.

End Protocol.

(** *** Progress in exact arithmetic *)

Lemma lit_exact (n : Z) : @lit Exact (n # 1) = IZR n.
Proof. simpl. unfold Q2R. simpl. lra. Qed.

Section Paced.
Context {payload : Type}.
Implicit Types (c : @registry_call Exact payload)
  (cs : list (@registry_call Exact payload)).

Lemma paced_nil (lo hi : R) :
  (lo <= hi)%R → paced lo hi ([] : list (@registry_call Exact payload)).
Proof. intros H. split; [done|]. split; constructor. Qed.

Lemma paced_app (a b c0 d0 : R) cs1 cs2 :
  paced a b cs1 → paced c0 d0 cs2 → (b <= c0)%R →
  paced a d0 (cs1 ++ cs2).
Proof.
  intros (Hab & Hs1 & Hb1) (Hcd & Hs2 & Hb2) Hbc.
  rewrite Forall_forall in Hb1, Hb2.
  split; [lra|]. unfold progress_values in *. rewrite omap_app. split.
  - apply StronglySorted_app_2; [|done|done].
    intros x y Hx Hy. apply Hb1 in Hx. apply Hb2 in Hy. lra.
  - apply Forall_app. split; apply Forall_forall; intros x Hx.
    + apply Hb1 in Hx. lra.
    + apply Hb2 in Hx. lra.
Qed.

Lemma paced_weaken (a b a' b' : R) cs :
  paced a b cs → (a' <= a)%R → (b <= b')%R → paced a' b' cs.
Proof.
  intros (Hab & Hs & Hb) Ha Hb'. split; [lra|]. split; [done|].
  eapply Forall_impl; [exact Hb|]. simpl. intros x Hx. lra.
Qed.

Lemma paced_one (p : R) c :
  @progress_written Exact payload c = Some p → paced p p [c].
Proof.
  intros Hc. split; [lra|]. unfold progress_values. simpl. rewrite Hc. split.
  - repeat constructor.
  - repeat constructor; lra.
Qed.


(** Bind rule: the calls of [t], then those of [f]. *)
Lemma paced_bind {A B} (a b c0 d0 : R) (t : @Task Exact payload A)
    (f : A → @Task Exact payload B) :
  paced a b t.1 → (∀ x, paced c0 d0 (f x).1) → (b <= c0)%R →
  (c0 <= d0)%R →
  paced a d0 (t ≫= f).1.
Proof.
  intros Ht Hf Hbc Hcd. rewrite bind_calls. destruct (t.2) as [x|e].
  - by eapply paced_app.
  - rewrite app_nil_r. eapply paced_weaken; [exact Ht|lra|lra].
Qed.

Lemma paced_block {A} (lo : R) (r : result A) :
  paced lo lo (@block Exact payload A r).1.
Proof. apply paced_nil. lra. Qed.

Lemma paced_emit (p : R) s st msg :
  paced p p (@emit Exact payload
               (@CallUpdate Exact payload s (Some p) st msg)).1.
Proof. by apply paced_one. Qed.

Lemma paced_ret {A} (lo : R) (a : A) :
  paced lo lo (mret a : @Task Exact payload A).1.
Proof. apply paced_nil. lra. Qed.

End Paced.

Section ExactProgress.
Context {payload : Type} (BE : @Backend Exact payload).
Implicit Types (c : @registry_call Exact payload)
  (cs : list (@registry_call Exact payload)).

Lemma loop_progress_le (base span : R) (i k total : nat) :
  (0 <= span)%R → (i ≤ k ≤ total)%nat →
  (@loop_progress Exact base span i total
   <= @loop_progress Exact base span k total)%R
  ∧ (@loop_progress Exact base span k total <= base + span)%R.
Proof.
  intros Hspan Hik. unfold loop_progress. simpl.
  rewrite <- !INR_IZR_INZ.
  destruct (Nat.eq_dec total 0%nat) as [-> | Hne].
  - assert (i = 0%nat) as -> by lia. assert (k = 0%nat) as -> by lia.
    simpl. unfold Rdiv. rewrite !Rmult_0_l. lra.
  - assert (Ht : (0 < INR total)%R) by (apply lt_0_INR; lia).
    assert (Hi : (INR i <= INR k)%R) by (apply le_INR; lia).
    assert (Hk : (INR k <= INR total)%R) by (apply le_INR; lia).
    assert (H1 : (INR i / INR total <= INR k / INR total)%R).
    { unfold Rdiv. apply Rmult_le_compat_r; [|done].
      left. by apply Rinv_0_lt_compat. }
    assert (H2 : (INR k / INR total <= 1)%R).
    { apply (Rmult_le_reg_r (INR total)); [done|].
      unfold Rdiv. rewrite Rmult_assoc, Rinv_l by lra. lra. }
    split; nra.
Qed.

Lemma loop_progress_0 (base span : R) (total : nat) :
  @loop_progress Exact base span 0 total = base.
Proof.
  unfold loop_progress. simpl. unfold Rdiv. rewrite !Rmult_0_l. lra.
Qed.

Lemma paced_report_progress what (base span : R) parts idx total :
  paced (@loop_progress Exact base span idx total)
        (@loop_progress Exact base span idx total)
        (@report_progress Exact payload what base span parts idx total).1.
Proof.
  unfold report_progress. destruct (_ =? _)%nat.
  - by apply paced_one.
  - apply paced_nil. lra.
Qed.

Lemma paced_loop {A B} (what : string) (base span : R) (parts total : nat)
    (work : nat → A → result B) (idx : nat) (l : list A) :
  (0 <= span)%R → (idx + length l = total)%nat →
  paced (@loop_progress Exact base span idx total) (base + span)
        (for_enumerate
           (λ i x, @report_progress Exact payload what base span parts i
                     total;;
                   block (work i x))
           idx l).1.
Proof.
  intros Hspan. revert idx. induction l as [|x l IH]; intros idx Hlen.
  - simpl. apply paced_nil.
    apply (loop_progress_le base span idx idx total); [done|]. simpl in Hlen.
    lia.
  - simpl in Hlen. cbn [for_enumerate].
    destruct (loop_progress_le base span idx (S idx) total) as [H1 H2];
      [done|lia|].
    eapply (paced_bind _ _ _ _ _ _); [| |exact H1|exact H2].
    + eapply (paced_bind _ _ _ _ _ _);
        [apply paced_report_progress|intros; apply paced_block|lra|lra].
    + intros b.
      eapply (paced_bind _ _ _ _ _ _);
        [apply IH; lia|intros; apply paced_ret|lra|lra].
Qed.

Lemma paced_pipeline frames_gray frames_rgb gt_masks j threshold min_area
    fps :
  paced 10 100
    (@_run_inference_pipeline Exact payload BE frames_gray frames_rgb
       gt_masks j threshold min_area fps).1.
Proof.
  unfold _run_inference_pipeline. rewrite !lit_exact.
  eapply (paced_bind 10 10 10 100); [apply paced_block| |lra|lra].
  intros _.
  eapply (paced_bind 10 10 10 100); [apply paced_block| |lra|lra].
  intros fn.
  eapply (paced_bind 10 10 10 100); [apply paced_emit| |lra|lra].
  intros _.
  eapply (paced_bind 10 10 10 100); [apply paced_block| |lra|lra].
  intros sequences. cbv zeta.
  eapply (paced_bind 10 60 65 100); [| |lra|lra].
  { pose proof (paced_loop "Inference" 10 50 20 (length sequences)
                  (λ _ (s : nat * list Gray),
                     infer_window s.2 threshold min_area)
                  0 sequences) as H.
    replace (10 + 50)%R with 60%R in H by lra.
    eapply paced_weaken; [apply H; [lra|done]| |lra].
    rewrite loop_progress_0. lra. }
  intros analyses.
  eapply (paced_bind 65 65 65 100); [apply paced_emit| |lra|lra].
  intros _.
  eapply (paced_bind 65 65 70 100); [apply paced_block| |lra|lra].
  intros post.
  eapply (paced_bind 70 70 70 100); [apply paced_emit| |lra|lra].
  intros _.
  eapply (paced_bind 70 90 90 100); [| |lra|lra].
  { pose proof (paced_loop "Rendering" 70 20 10 (length sequences)
                  (λ idx (s : nat * list Gray),
                     render_frame j idx s.1 frames_rgb gt_masks analyses
                       post fps)
                  0 sequences) as H.
    replace (70 + 20)%R with 90%R in H by lra.
    eapply paced_weaken; [apply H; [lra|done]| |lra].
    rewrite loop_progress_0. lra. }
  intros overlays.
  eapply (paced_bind 90 90 90 100); [apply paced_emit| |lra|lra].
  intros _.
  eapply (paced_bind 90 90 95 100); [apply paced_block| |lra|lra].
  intros _.
  eapply (paced_bind 95 95 95 100); [apply paced_emit| |lra|lra].
  intros _.
  eapply (paced_bind 95 95 100 100); [apply paced_block| |lra|lra].
  intros results_.
  eapply (paced_bind 100 100 100 100); [| |lra|lra].
  - apply paced_one. simpl. by rewrite lit_exact.
  - intros _. apply paced_ret.
Qed.

End ExactProgress.

Section ProgressAfter.
Context `{PF : PyFloat} {payload : Type}.
Implicit Types (m : @JobManager PF payload) (d : @job PF)
  (c : registry_call payload) (cs : list (registry_call payload))
  (j : string).

(** The progress of the job after some calls is the last one written. *)
Lemma progress_after m j now k cs d :
  registry_ok m → live_job m j = Some d →
  ∃ d', live_job (run_calls m j now k cs) j = Some d'
    ∧ progress d' = default (progress d) (last (omap progress_written cs)).
Proof.
  revert m k d. induction cs as [|c cs IH]; intros m k d Hok Hl; simpl.
  - by exists d.
  - destruct (do_call_job m j c (now k) d Hok Hl) as [Hok' Hl'].
    destruct (IH _ (S k) _ Hok' Hl') as (d' & Hd' & Hp).
    exists d'. split; [done|]. rewrite Hp.
    destruct c as [s p st msg | e | res]; [destruct p as [p|]|..];
      cbn [omap list_omap progress_written progress apply_update default
           from_option];
      fold (omap (M := list) (@progress_written PF payload) cs);
      rewrite ?last_cons;
      by destruct (last (omap progress_written cs)).
Qed.

End ProgressAfter.

Section PacedRuns.
Context {payload : Type} (BE : @Backend Exact payload).
Implicit Types (m : @JobManager Exact payload) (d : @job Exact)
  (c : @registry_call Exact payload)
  (cs : list (@registry_call Exact payload)) (j : string).

(** Along a paced sequence of calls the last progress written grows. *)
Lemma paced_last (lo hi p0 : R) cs (n : nat) :
  paced lo hi cs → (p0 <= lo)%R →
  (default p0 (last (progress_values (take n cs)))
   <= default p0 (last (progress_values (take (S n) cs))))%R
  ∧ (default p0 (last (progress_values (take (S n) cs))) <= hi)%R.
Proof.
  intros (Hlh & Hs & Hb) Hp0.
  assert (Hin : ∀ l x, l `prefix_of` cs →
            last (progress_values l) = Some x → (lo <= x <= hi)%R).
  { intros l x [l' ->] Hx. rewrite Forall_forall in Hb. apply Hb.
    unfold progress_values in *. rewrite omap_app. apply elem_of_app. left.
    by apply last_Some_elem_of. }
  assert (Hhi : ∀ l, l `prefix_of` cs →
            (default p0 (last (progress_values l)) <= hi)%R).
  { intros l Hl. destruct (last (progress_values l)) as [x|] eqn:Hx; simpl.
    - apply (Hin l x Hl Hx).
    - lra. }
  split; [|apply Hhi, prefix_take].
  destruct (cs !! n) as [c|] eqn:Hc.
  - rewrite (take_S_r _ _ _ Hc).
    pose proof (take_drop_middle cs n c Hc) as Hcs.
    set (l1 := take n cs) in *. set (l2 := drop (S n) cs) in *.
    clearbody l1 l2. subst cs. clear Hc Hin Hhi.
    assert (Hsplit : ∀ l, progress_values (l1 ++ c :: l)
              = progress_values l1
                ++ match @progress_written Exact payload c with
                   | Some p => [p] | None => [] end
                ++ progress_values l).
    { intros l. unfold progress_values. rewrite omap_app. f_equal.
      simpl. by destruct (@progress_written Exact payload c). }
    rewrite Hsplit in Hs, Hb. rewrite (Hsplit []).
    change (progress_values []) with (@nil R). rewrite app_nil_r.
    destruct (@progress_written Exact payload c) as [p|]; simpl.
    + rewrite last_snoc. simpl.
      destruct (last (progress_values l1)) as [x|] eqn:Hx; simpl.
      * apply (StronglySorted_app_1_elem_of _ _ _ x p Hs).
        -- by apply last_Some_elem_of.
        -- by left.
      * assert (lo <= p <= hi)%R; [|lra].
        rewrite Forall_forall in Hb. apply Hb.
        apply elem_of_app. right. by left.
    + rewrite app_nil_r. lra.
  - apply lookup_ge_None in Hc.
    rewrite !take_ge by lia. lra.
Qed.

Lemma paced_engine (start : @registry_call Exact payload)
    (rest : @Task Exact payload payload) :
  @progress_written Exact payload start = Some 5%R →
  paced 10 100 rest.1 →
  paced 5 100
    (try_except (emit start;; rest) (λ e, emit (CallFailed e);; raise e)).1.
Proof.
  intros Hstart Hrest.
  destruct (@try_reraise Exact payload payload (emit start;; rest))
    as [_ H1].
  rewrite H1. eapply (paced_app 5 100 100 100); [| |lra].
  - eapply (paced_bind 5 5 10 100); [by apply paced_one| |lra|lra].
    by intros _.
  - destruct ((emit start;; rest).2).
    + apply paced_nil. lra.
    + apply paced_one. simpl. by rewrite lit_exact.
Qed.

Lemma paced_process_video video_path j threshold min_area :
  paced 5 100
    (@process_video Exact payload BE video_path j threshold min_area).1.
Proof.
  unfold process_video. apply paced_engine; [simpl; by rewrite lit_exact|].
  eapply (paced_bind 10 10 10 100); [apply paced_block| |lra|lra].
  intros [frames_rgb fps].
  eapply (paced_bind 10 10 10 100); [apply paced_block| |lra|lra].
  intros frames_gray. apply paced_pipeline.
Qed.

Lemma paced_process_dataset dataset_path j threshold min_area :
  paced 5 100
    (@process_dataset Exact payload BE dataset_path j threshold min_area).1.
Proof.
  unfold process_dataset. apply paced_engine; [simpl; by rewrite lit_exact|].
  eapply (paced_bind 10 10 10 100); [apply paced_block| |lra|lra].
  intros [frames_gray gt_masks].
  eapply (paced_bind 10 10 10 100); [| |lra|lra].
  { destruct (_ =? _)%nat; [|apply paced_ret]. apply paced_nil. lra. }
  intros _.
  eapply (paced_bind 10 10 10 100); [apply paced_block| |lra|lra].
  intros frames_rgb. apply paced_pipeline.
Qed.

Lemma paced_swallow (body : @Task Exact payload unit) :
  paced 5 100 body.1 →
  paced 5 100 (try_except body (λ e, emit (CallFailed e))).1.
Proof.
  intros Hbody.
  destruct (@try_swallow Exact payload body) as [_ H1]. rewrite H1.
  eapply (paced_app 5 100 100 100); [done| |lra].
  destruct (body.2).
  - apply paced_nil. lra.
  - apply paced_one. simpl. by rewrite lit_exact.
Qed.

Lemma paced_file_background j path file_type_ threshold min_area :
  paced 5 100
    (@process_file_background Exact payload BE j path file_type_ threshold
       min_area).1.
Proof.
  unfold process_file_background. apply paced_swallow.
  unfold process_file_body.
  eapply (paced_bind 5 5 5 100); [apply paced_block| |lra|lra].
  intros _.
  eapply (paced_bind 5 100 100 100); [| |lra|lra].
  - destruct (bool_decide (file_type_ = "video"));
      [apply paced_process_video|].
    destruct (bool_decide (file_type_ = "dataset"));
      [apply paced_process_dataset|].
    apply paced_nil. lra.
  - intros _. apply paced_block.
Qed.

Lemma paced_example_background j path threshold min_area :
  paced 5 100
    (@process_example_background Exact payload BE j path threshold
       min_area).1.
Proof.
  unfold process_example_background. apply paced_swallow.
  unfold process_example_body.
  eapply (paced_bind 5 5 5 100); [apply paced_block| |lra|lra].
  intros _.
  eapply (paced_bind 5 100 100 100);
    [apply paced_process_dataset| |lra|lra].
  intros _. apply paced_ret.
Qed.

(** X22.  In exact arithmetic the progress of a job never goes backwards
    while its background function runs: if the job is registered with a
    progress of at most 5 (a new job has 0), then after every registry call
    of the function the progress is at least what it was before the call,
    and at most 100. *)
Theorem progress_never_decreases (j path file_type_ : string)
    (threshold : R) (min_area : Z) m now d :
  registry_ok m → live_job m j = Some d → (progress d <= 5)%R →
  let monotone (t : @Task Exact payload unit) :=
    ∀ n : nat, ∃ d1 d2,
      live_job (run_calls m j now 0 (take n t.1)) j = Some d1
      ∧ live_job (run_calls m j now 0 (take (S n) t.1)) j = Some d2
      ∧ (progress d1 <= progress d2 <= 100)%R in
  monotone (@process_file_background Exact payload BE j path file_type_
              threshold min_area)
  ∧ monotone (@process_example_background Exact payload BE j path threshold
                min_area).
Proof.
  intros Hok Hl Hp monotone.
  assert (Hgen : ∀ t : @Task Exact payload unit,
            paced 5 100 t.1 → monotone t).
  { intros t Ht n.
    destruct (progress_after m j now 0 (take n t.1) d Hok Hl)
      as (d1 & Hd1 & Hp1).
    destruct (progress_after m j now 0 (take (S n) t.1) d Hok Hl)
      as (d2 & Hd2 & Hp2).
    exists d1, d2. split; [done|]. split; [done|].
    rewrite Hp1, Hp2.
    exact (paced_last 5 100 (progress d) t.1 n Ht Hp). }
  split; apply Hgen.
  - apply paced_file_background.
  - apply paced_example_background.
Qed.

End PacedRuns.

(** *** How many calls a task makes *)

(** The multiples of [s] below [n] number [ceil (n / s)]. *)
Lemma multiples_count (s n : nat) :
  (0 < s)%nat →
  let c := length (filter (λ k : nat, (k mod s)%nat = 0%nat) (seq 0 n)) in
  (n ≤ c * s ∧ c * s < n + s)%nat.
Proof.
  intros Hs. induction n as [|n IH]; [simpl; lia|].
  cbv zeta in *. rewrite seq_S, filter_app, length_app.
  rewrite filter_cons, filter_nil. simpl.
  set (c := length (filter (λ k : nat, (k mod s)%nat = 0%nat) (seq 0 n)))
    in *.
  case_decide as Hmod; simpl.
  - apply Nat.Div0.mod_divides in Hmod as [q Hq].
    destruct IH as [IH1 IH2]. rewrite Hq in IH1, IH2.
    assert (Hcq : c = q).
    { destruct (Nat.lt_trichotomy c q) as [Hlt | [Heq | Hgt]]; [|done|].
      - exfalso. assert (c + 1 ≤ q)%nat by lia.
        assert ((c + 1) * s ≤ q * s)%nat by (apply Nat.mul_le_mono_r; lia).
        lia.
      - exfalso. assert (q + 1 ≤ c)%nat by lia.
        assert ((q + 1) * s ≤ c * s)%nat by (apply Nat.mul_le_mono_r; lia).
        lia. }
    subst c. rewrite Hcq. lia.
  - assert (n ≠ c * s)%nat.
    { intros Heq. apply Hmod. rewrite Heq. apply Nat.Div0.mod_mul. }
    lia.
Qed.

Lemma multiples_bound (parts n : nat) :
  (1 ≤ parts)%nat →
  (length (filter (λ k : nat, (k mod (Nat.max 1 (n / parts)))%nat = 0%nat)
                  (seq 0 n))
   ≤ 2 * parts - 1)%nat.
Proof.
  intros Hp. set (s := Nat.max 1 (n / parts)).
  destruct (multiples_count s n) as [_ Hc]; [lia|].
  set (c := length _) in *.
  destruct (Nat.eq_dec (n / parts)%nat 0%nat) as [H0 | H0].
  - assert (s = 1%nat) by lia.
    apply Nat.div_small_iff in H0; [|lia]. nia.
  - assert (Hs : s = (n / parts)%nat) by lia.
    pose proof (Nat.div_mod_eq n parts) as Hdm.
    pose proof (Nat.mod_upper_bound n parts) as Hub.
    assert (Hn : (n < parts * s + parts)%nat) by lia.
    assert (1 ≤ s)%nat by lia.
    destruct (Nat.le_gt_cases c (2 * parts - 1)) as [|Hgt]; [done|].
    exfalso. assert (2 * parts ≤ c)%nat by lia. nia.
Qed.

Section CallCount.
Context `{PF : PyFloat} {payload : Type} `{BE : !Backend payload}.
Implicit Types (c : registry_call payload) (cs : list (registry_call payload))
  (j : string).

Lemma bind_length {A B} (a b : nat) (t : Task payload A)
    (f : A → Task payload B) :
  (length t.1 ≤ a)%nat →
  (∀ x, (length (f x).1
         + match (f x).2 with Raise _ => 1 | Ok _ => 0 end ≤ b)%nat) →
  (1 ≤ b)%nat →
  (length (t ≫= f).1
   + match (t ≫= f).2 with Raise _ => 1 | Ok _ => 0 end ≤ a + b)%nat.
Proof.
  intros Ht Hf Hb. rewrite bind_calls, bind_result.
  destruct (t.2) as [x|e].
  - rewrite length_app. specialize (Hf x). lia.
  - rewrite app_nil_r. lia.
Qed.

Lemma block_length {A} (r : result A) :
  (length (block r : Task payload A).1
   + match (block r : Task payload A).2 with Raise _ => 1 | Ok _ => 0 end
   ≤ 1)%nat.
Proof. destruct r; simpl; lia. Qed.

Lemma loop_length {A B} (what : string) (base span : pyfloat)
    (parts total : nat) (work : nat → A → result B) (idx : nat)
    (l : list A) :
  (length (for_enumerate
             (λ i x, report_progress what base span parts i total;;
                     block (work i x) : Task payload B)
             idx l).1
   ≤ length (filter (λ k : nat,
                       (k mod (Nat.max 1 (total / parts)))%nat = 0%nat)
                    (seq idx (length l))))%nat.
Proof.
  revert idx. induction l as [|x l IH]; intros idx; [simpl; lia|].
  cbn [for_enumerate length seq]. rewrite filter_cons.
  rewrite !bind_calls, bind_result.
  assert (Hrep : (length (report_progress what base span parts idx total
                          : Task payload unit).1
                  ≤ if decide ((idx mod Nat.max 1 (total / parts))%nat
                               = 0%nat) then 1 else 0)%nat
                 ∧ (report_progress what base span parts idx total
                    : Task payload unit).2 = Ok tt).
  { unfold report_progress.
    destruct (Nat.eqb_spec (idx mod Nat.max 1 (total / parts)) 0)
      as [Heq|Hne].
    - rewrite decide_True by done. simpl. split; [lia|done].
    - rewrite decide_False by done. simpl. split; [lia|done]. }
  destruct Hrep as [Hlen Hok]. rewrite Hok. cbn [block fst snd].
  rewrite app_nil_r, length_app.
  assert (Hrest : (length match work idx x with
                          | Ok a =>
                            (for_enumerate
                               (λ i x0, report_progress what base span parts
                                          i total;;
                                        block (work i x0) : Task payload B)
                               (S idx) l ≫= λ bs, mret (a :: bs)).1
                          | Raise _ => []
                          end
                   ≤ length (filter (λ k : nat,
                               (k mod Nat.max 1 (total / parts))%nat = 0%nat)
                               (seq (S idx) (length l))))%nat).
  { destruct (work idx x) as [a|e]; [|simpl; lia].
    rewrite bind_calls. etrans; [|apply (IH (S idx))].
    rewrite length_app.
    destruct ((for_enumerate _ (S idx) l).2); simpl; lia. }
  case_decide; simpl; lia.
Qed.

Lemma pipeline_length frames_gray frames_rgb gt_masks j threshold min_area
    fps :
  let t := _run_inference_pipeline frames_gray frames_rgb gt_masks j
             threshold min_area fps in
  (length t.1 + match t.2 with Raise _ => 1 | Ok _ => 0 end ≤ 64)%nat.
Proof.
  cbv zeta. unfold _run_inference_pipeline.
  apply (bind_length 0 64); [simpl; lia| |lia]. intros _.
  apply (bind_length 0 64); [simpl; lia| |lia]. intros fn.
  apply (bind_length 1 63); [simpl; lia| |lia]. intros _.
  apply (bind_length 0 63); [simpl; lia| |lia]. intros sequences.
  cbv zeta.
  apply (bind_length 39 24); [| |lia].
  { etrans; [apply loop_length|].
    apply (multiples_bound 20 (length sequences)). lia. }
  intros analyses.
  apply (bind_length 1 23); [simpl; lia| |lia]. intros _.
  apply (bind_length 0 23); [simpl; lia| |lia]. intros post.
  apply (bind_length 1 22); [simpl; lia| |lia]. intros _.
  apply (bind_length 19 3); [| |lia].
  { etrans; [apply loop_length|].
    apply (multiples_bound 10 (length sequences)). lia. }
  intros overlays.
  apply (bind_length 1 2); [simpl; lia| |lia]. intros _.
  apply (bind_length 0 2); [simpl; lia| |lia]. intros _.
  apply (bind_length 1 1); [simpl; lia| |lia]. intros _.
  apply (bind_length 0 1); [simpl; lia| |lia]. intros results_.
  simpl. lia.
Qed.

Lemma engine_length (start : registry_call payload)
    (rest : Task payload payload) :
  (length rest.1 + match rest.2 with Raise _ => 1 | Ok _ => 0 end ≤ 64)%nat →
  (length (try_except (emit start;; rest)
             (λ e, emit (CallFailed e);; raise e)).1 ≤ 65)%nat.
Proof.
  intros Hrest. destruct (try_reraise (emit start;; rest)) as [_ H1].
  rewrite H1, length_app, bind_calls, bind_result. simpl.
  destruct (rest.2); simpl in *; lia.
Qed.

Lemma process_video_length video_path j threshold min_area :
  (length (process_video video_path j threshold min_area).1 ≤ 65)%nat.
Proof.
  unfold process_video. apply engine_length.
  apply (bind_length 0 64); [simpl; lia| |lia]. intros [frames_rgb fps].
  apply (bind_length 0 64); [simpl; lia| |lia]. intros frames_gray.
  apply pipeline_length.
Qed.

Lemma process_dataset_length dataset_path j threshold min_area :
  (length (process_dataset dataset_path j threshold min_area).1 ≤ 65)%nat.
Proof.
  unfold process_dataset. apply engine_length.
  apply (bind_length 0 64); [simpl; lia| |lia].
  intros [frames_gray gt_masks].
  apply (bind_length 0 64); [destruct (_ =? _)%nat; simpl; lia| |lia].
  intros _.
  apply (bind_length 0 64); [simpl; lia| |lia]. intros frames_rgb.
  apply pipeline_length.
Qed.

Lemma swallow_length (body : Task payload unit) (n : nat) :
  (length body.1 + match body.2 with Raise _ => 1 | Ok _ => 0 end ≤ n)%nat →
  (length (try_except body (λ e, emit (CallFailed e))).1 ≤ n)%nat.
Proof.
  intros Hbody. destruct (try_swallow body) as [_ H1].
  rewrite H1, length_app. destruct (body.2); simpl in *; lia.
Qed.

(** X23.  The number of registry calls of a background function is bounded
    whatever the number of frames: each of the two loops of the pipeline
    reports progress at most 39 and 19 times (every
    [max(1, total_frames // 20)]-th and [max(1, total_frames // 10)]-th
    round), so a run makes at most 66 calls in all. *)
Theorem background_calls_bounded (j path file_type_ : string)
    (threshold : pyfloat) (min_area : Z) :
  (length (process_file_background j path file_type_ threshold min_area).1
   ≤ 66)%nat
  ∧ (length (process_example_background j path threshold min_area).1
     ≤ 66)%nat
  ∧ ∀ (what : string) (base span : pyfloat) (parts : nat) {A B : Type}
      (work : nat → A → result B) (l : list A),
      (1 ≤ parts)%nat →
      (length (for_enumerate
                 (λ i x, report_progress what base span parts i (length l);;
                         block (work i x) : Task payload B)
                 0 l).1
       ≤ 2 * parts - 1)%nat.
Proof.
  split; [|split].
  - unfold process_file_background. apply swallow_length.
    unfold process_file_body.
    apply (bind_length 0 66); [simpl; lia| |lia]. intros _.
    apply (bind_length 65 1); [| |lia].
    + destruct (bool_decide (file_type_ = "video"));
        [apply process_video_length|].
      destruct (bool_decide (file_type_ = "dataset"));
        [apply process_dataset_length|]. simpl. lia.
    + intros _. apply block_length.
  - unfold process_example_background. apply swallow_length.
    unfold process_example_body.
    apply (bind_length 0 66); [simpl; lia| |lia]. intros _.
    apply (bind_length 65 1); [apply process_dataset_length| |lia].
    intros _. simpl. lia.
  - intros what base span parts A B work l Hparts.
    etrans; [apply loop_length|]. by apply multiples_bound.
Qed.

End CallCount.

(** *** Too few frames *)

Section ShortInput.
Context `{PF : PyFloat} {payload : Type} `{BE : !Backend payload}.
Implicit Types (m : @JobManager PF payload) (d : @job PF)
  (c : registry_call payload) (cs : list (registry_call payload))
  (j : string).

Lemma normalize_frames_length (frames_gray frames_normalized : list Gray) :
  normalize_frames frames_gray = Ok frames_normalized →
  length frames_normalized = length frames_gray.
Proof.
  revert frames_normalized.
  induction frames_gray as [|f l IH]; intros fn; simpl.
  - by intros [= <-].
  - destruct (normalize_gray f) as [g|e]; [|done].
    destruct (normalize_frames l) as [gs|e]; [|done].
    intros [= <-]. simpl. by rewrite (IH gs).
Qed.

(** With fewer than five frames the pipeline raises; if no block raises
    before, it is the video writer that refuses the empty list, after four
    registry calls. *)
Lemma pipeline_short frames_gray frames_rgb gt_masks j threshold min_area
    fps :
  (length frames_gray < 5)%nat →
  let t := _run_inference_pipeline frames_gray frames_rgb gt_masks j
             threshold min_area fps in
  ∃ e, t.2 = Raise e
    ∧ (make_output_dirs j = Ok tt →
       is_Some (match normalize_frames frames_gray with
                | Ok fn => Some fn | Raise _ => None end) →
       is_Some (match detect_and_growth [] with
                | Ok p => Some p | Raise _ => None end) →
       e = "No frames to write"
       ∧ t.1 = [CallUpdate None (Some (lit (10 # 1))) (Some INFERENCE)
                  (Some "Creating temporal windows");
                CallUpdate None (Some (lit (65 # 1))) (Some POSTPROCESSING)
                  (Some "Detecting division events");
                CallUpdate None (Some (lit (70 # 1)))
                  (Some VIDEO_GENERATION) (Some "Generating overlay frames");
                CallUpdate None (Some (lit (90 # 1))) None
                  (Some "Creating output video")]).
Proof.
  intros Hlen t. unfold t, _run_inference_pipeline. clear t.
  destruct (make_output_dirs j) as [[]|e0] eqn:Hdirs; simpl;
    [|exists e0; split; [done|]; intros; done].
  destruct (normalize_frames frames_gray) as [fn|e0] eqn:Hnorm; simpl;
    [|exists e0; split; [done|]; by intros _ [? ?]].
  apply normalize_frames_length in Hnorm.
  rewrite create_frame_sequence_5.
  replace (length fn - 4)%nat with 0%nat by lia. simpl.
  destruct (detect_and_growth []) as [post|e0] eqn:Hdet; simpl;
    [|exists e0; split; [done|]; by intros _ _ [? ?]].
  exists "No frames to write". split; [done|]. by intros _ _ _.
Qed.

Lemma run_calls_results m j now k cs d :
  registry_ok m → live_job m j = Some d →
  Forall (λ c, match c with CallCompleted _ => False | _ => True end) cs →
  ∃ d', live_job (run_calls m j now k cs) j = Some d'
    ∧ results d' = results d.
Proof.
  revert m k d. induction cs as [|c cs IH]; intros m k d Hok Hl Hcs; simpl.
  - by exists d.
  - apply Forall_cons in Hcs as [Hc Hcs].
    destruct (do_call_job m j c (now k) d Hok Hl) as [Hok' Hl'].
    destruct (IH _ (S k) _ Hok' Hl' Hcs) as (d' & Hd' & Hr).
    exists d'. split; [done|]. rewrite Hr. by destruct c.
Qed.

(** The stage and the message of the job after some calls are the last
    ones written. *)
Lemma stage_message_after m j now k cs d :
  registry_ok m → live_job m j = Some d →
  ∃ d', live_job (run_calls m j now k cs) j = Some d'
    ∧ stage d'
      = default (stage d)
          (last (omap (λ c, match c with
                            | CallUpdate _ _ st _ => st
                            | CallFailed _ => None
                            | CallCompleted _ => Some SAVING_RESULTS
                            end) cs))
    ∧ message d'
      = default (message d)
          (last (omap (λ c, match c with
                            | CallUpdate _ _ _ msg => msg
                            | CallFailed _ => None
                            | CallCompleted _ => Some "Processing completed"
                            end) cs)).
Proof.
  revert m k d. induction cs as [|c cs IH]; intros m k d Hok Hl.
  - by exists d.
  - destruct (do_call_job m j c (now k) d Hok Hl) as [Hok' Hl'].
    destruct (IH _ (S k) _ Hok' Hl') as (d' & Hd' & Hst & Hmsg).
    exists d'. split; [exact Hd'|]. rewrite Hst, Hmsg. clear.
    set (fs := λ c : registry_call payload,
                 match c with
                 | CallUpdate _ _ st _ => st
                 | CallFailed _ => None
                 | CallCompleted _ => Some SAVING_RESULTS
                 end).
    set (fm := λ c : registry_call payload,
                 match c with
                 | CallUpdate _ _ _ msg => msg
                 | CallFailed _ => None
                 | CallCompleted _ => Some "Processing completed"
                 end).
    assert (Hcons : ∀ {X} (f : registry_call payload → option X) (x0 : X),
              default (default x0 (f c)) (last (omap f cs))
              = default x0 (last (omap f (c :: cs)))).
    { intros X f x0. change (omap f (c :: cs))
        with (match f c with Some y => y :: omap f cs | None => omap f cs end).
      destruct (f c) as [y|]; [|done]. rewrite last_cons.
      by destruct (last (omap f cs)). }
    rewrite <- (Hcons _ fs), <- (Hcons _ fm).
    by destruct c as [s p [st|] [msg|] | e | res].
Qed.

(** X24.  A video of fewer than five frames cannot be processed: whatever
    the blocks do, [process_file_background] leaves the job Failed, with
    the results field untouched.  If no block raises, the failure is the
    video writer's "No frames to write", met in stage Video Generation
    after the message "Creating output video"; the function has then made
    seven registry calls, the last two both [mark_failed]. *)
Theorem short_video_fails (j path : string) (threshold : pyfloat)
    (min_area : Z) m now d frames_rgb fps frames_gray :
  registry_ok m → live_job m j = Some d →
  get_inference_engine = Ok tt →
  read_video_frames path = Ok (frames_rgb, fps) →
  prepare_frames_for_inference frames_rgb = Ok frames_gray →
  (length frames_gray < 5)%nat →
  let t := process_file_background j path "video" threshold min_area in
  ∃ d' e,
    live_job (run_calls m j now 0 t.1) j = Some d'
    ∧ status d' = FAILED ∧ error d' = Some e ∧ results d' = results d
    ∧ (make_output_dirs j = Ok tt →
       (∃ fn, normalize_frames frames_gray = Ok fn) →
       (∃ post, detect_and_growth [] = Ok post) →
       e = "No frames to write" ∧ stage d' = VIDEO_GENERATION
       ∧ message d' = "Creating output video"
       ∧ ∃ cs, t.1 = cs ++ [CallFailed e; CallFailed e] ∧ length cs = 5%nat).
Proof.
  intros Hok Hl Heng Hread Hprep Hlen t.
  destruct (pipeline_short frames_gray frames_rgb None j threshold min_area
              fps Hlen) as (e & He & Hfull).
  pose proof (pipeline_calls frames_gray frames_rgb None j threshold
                min_area fps) as Hquiet.
  unfold quiet in Hquiet. rewrite He in Hquiet.
  set (p := _run_inference_pipeline frames_gray frames_rgb None j threshold
              min_area fps) in *.
  set (start := CallUpdate (Some RUNNING) (Some (lit (5 # 1)))
                  (Some PREPROCESSING) (Some "Reading video frames")
                : registry_call payload).
  assert (Hpv : (process_video path j threshold min_area).2 = Raise e
                ∧ (process_video path j threshold min_area).1
                  = start :: p.1 ++ [CallFailed e]).
  { unfold process_video.
    match goal with
    | |- context [try_except ?b ?h] =>
      destruct (try_reraise b) as [H2 H1]; rewrite H1, H2; clear H1 H2
    end.
    rewrite !bind_calls, !bind_result. simpl. rewrite Hread. simpl.
    rewrite ?bind_calls, ?bind_result. simpl. rewrite Hprep. simpl.
    fold p. rewrite He. done. }
  destruct Hpv as [Hpv2 Hpv1].
  assert (Ht : t.1 = (start :: p.1 ++ [CallFailed e]) ++ [CallFailed e]).
  { unfold t, process_file_background.
    match goal with
    | |- context [try_except ?b ?h] =>
      destruct (try_swallow b) as [_ H1]; rewrite H1; clear H1
    end.
    unfold process_file_body. rewrite !bind_calls, !bind_result.
    rewrite Heng. cbn [block fst snd app].
    rewrite ?bind_calls, ?bind_result.
    rewrite bool_decide_true by done. rewrite Hpv1, Hpv2.
    by rewrite app_nil_r. }
  destruct (run_calls_failed m j now 0 (start :: p.1 ++ [CallFailed e]) e d
              Hok Hl) as (d' & Hd' & Hs & _ & Herr).
  rewrite <- Ht in Hd'.
  destruct (run_calls_results m j now 0 t.1 d Hok Hl) as (d2 & Hd2 & Hres).
  { rewrite Ht. rewrite Forall_app. split; [|by repeat constructor].
    constructor; [done|]. rewrite Forall_app. split; [|by repeat constructor].
    eapply Forall_impl; [exact Hquiet|]. intros c Hc. by destruct c. }
  rewrite Hd' in Hd2. apply (inj Some) in Hd2. subst d2.
  exists d', e. split; [done|]. do 3 (split; [done|]).
  intros Hdirs [fn Hfn] [post Hpost].
  destruct Hfull as [-> Hcalls]; [done|by rewrite Hfn|by rewrite Hpost|].
  split; [done|].
  destruct (stage_message_after m j now 0 t.1 d Hok Hl)
    as (d2 & Hd2 & Hst & Hmsg).
  rewrite Hd' in Hd2. apply (inj Some) in Hd2. subst d2.
  rewrite Ht, Hcalls in Hst, Hmsg.
  split; [exact Hst|]. split; [exact Hmsg|].
  exists (start :: p.1). rewrite Ht, Hcalls. done.
Qed.

End ShortInput.

(** *** A failure after completion *)

Section LateFailure.
Context `{PF : PyFloat} {payload : Type} `{BE : !Backend payload}.
Implicit Types (m : @JobManager PF payload) (d : @job PF)
  (c : registry_call payload) (cs us : list (registry_call payload))
  (j : string).

(** The calls of the [try] block of [process_file_background], by how the
    engine call ends. *)
Lemma process_file_body_cases (j file_path file_type_ : string) threshold
    min_area :
  let body := process_file_body j file_path file_type_ threshold min_area in
  (∃ p0 st0 msg0 us results_,
     Forall (λ c, call_status c = None) us
     ∧ body.1 = CallUpdate (Some RUNNING) p0 st0 msg0
                :: us ++ [CallCompleted results_]
     ∧ body.2 = match cleanup_upload j with
                | Ok _ => Ok tt
                | Raise e => Raise e
                end)
  ∨ (∃ e, body.2 = Raise e
          ∧ Forall (λ c, match c with
                         | CallCompleted _ => False
                         | _ => True
                         end) body.1).
Proof.
  intros body. unfold body, process_file_body. clear body.
  rewrite !bind_calls, !bind_result.
  destruct get_inference_engine as [[]|e0]; cbn [block fst snd app];
    [|right; exists e0; split; [done|constructor]].
  rewrite ?bind_calls, ?bind_result.
  assert (Heng : ∀ (start : registry_call payload)
                   (rest : Task payload payload),
    call_status start = Some RUNNING →
    quiet (λ results_ cs,
             ∃ us, cs = us ++ [CallCompleted results_]
                   ∧ Forall (λ c, call_status c = None) us) rest →
    let t := try_except (emit start;; rest)
               (λ e, emit (CallFailed e);; raise e) in
    match t.2 with
    | Ok results_ =>
      ∃ p0 st0 msg0 us,
        Forall (λ c, call_status c = None) us
        ∧ t.1 = CallUpdate (Some RUNNING) p0 st0 msg0
                :: us ++ [CallCompleted results_]
    | Raise e =>
      Forall (λ c, match c with CallCompleted _ => False | _ => True end)
             t.1
    end).
  { intros start rest Hstart Hrest t.
    destruct (engine_calls start rest Hrest) as (us & Hus & Hcs).
    fold t in Hcs. destruct (t.2) as [res|e].
    - destruct start as [s p0 st0 msg0| |]; simpl in Hstart; [|done|done].
      subst s. eauto 10.
    - rewrite Hcs. constructor; [by destruct start|].
      apply Forall_app. split; [|by repeat constructor].
      eapply Forall_impl; [exact Hus|]. intros c Hc. by destruct c. }
  assert (Hdis : let t : Task payload payload :=
                   if bool_decide (file_type_ = "video")
                   then process_video file_path j threshold min_area
                   else if bool_decide (file_type_ = "dataset")
                   then process_dataset file_path j threshold min_area
                   else raise ("Unknown file type: " +:+ file_type_) in
                 match t.2 with
                 | Ok results_ =>
                   ∃ p0 st0 msg0 us,
                     Forall (λ c, call_status c = None) us
                     ∧ t.1 = CallUpdate (Some RUNNING) p0 st0 msg0
                             :: us ++ [CallCompleted results_]
                 | Raise e =>
                   Forall (λ c, match c with
                                | CallCompleted _ => False
                                | _ => True
                                end) t.1
                 end).
  { cbv zeta. destruct (bool_decide (file_type_ = "video")).
    - apply Heng; [done|apply process_video_rest].
    - destruct (bool_decide (file_type_ = "dataset")).
      + apply Heng; [done|apply process_dataset_rest].
      + simpl. constructor. }
  cbv zeta in Hdis.
  set (t := if bool_decide (file_type_ = "video")
            then process_video file_path j threshold min_area
            else if bool_decide (file_type_ = "dataset")
            then process_dataset file_path j threshold min_area
            else raise ("Unknown file type: " +:+ file_type_)) in *.
  clearbody t. destruct t as [cs [res|e]]; cbn [fst snd] in *.
  - left. destruct Hdis as (p0 & st0 & msg0 & us & Hus & ->).
    exists p0, st0, msg0, us, res. split; [done|].
    destruct (cleanup_upload j) as [[]|e]; simpl; by rewrite app_nil_r.
  - right. exists e. split; [done|]. by rewrite app_nil_r.
Qed.

(** X25.  [mark_failed] after [mark_completed]: if the [try] block of
    [process_file_background] raises although the pipeline had completed
    (the removal of the upload directory failed), the job ends Failed with
    that error while it still holds the results, the stage Saving Results
    and the message "Processing completed"; [get_job_results] then returns
    [None], so the stored results are out of reach. *)
Theorem failure_after_completion (j path file_type_ : string)
    (threshold : pyfloat) (min_area : Z) m now d results_ e :
  registry_ok m → live_job m j = Some d →
  (process_file_body j path file_type_ threshold min_area).2 = Raise e →
  CallCompleted results_
    ∈ (process_file_body j path file_type_ threshold min_area).1 →
  let t := process_file_background j path file_type_ threshold min_area in
  let m' := run_calls m j now 0 t.1 in
  cleanup_upload j = Raise e
  ∧ ∃ d' r, live_job m' j = Some d'
      ∧ status d' = FAILED ∧ error d' = Some e
      ∧ progress d' = lit (100 # 1)
      ∧ stage d' = SAVING_RESULTS ∧ message d' = "Processing completed"
      ∧ results d' = Some r ∧ store m' !! r = Some (ResultsDict results_)
      ∧ (get_job_results m' j).1 = None.
Proof.
  intros Hok Hl Hraise Hin t m'.
  destruct (process_file_body_cases j path file_type_ threshold min_area)
    as [(p0 & st0 & msg0 & us & res & Hus & Hcs & Hres)
       | (e' & _ & Hno)]; cbv zeta in *; cycle 1.
  { rewrite Forall_forall in Hno. destruct (Hno _ Hin). }
  assert (res = results_) as ->.
  { rewrite Hcs in Hin. apply elem_of_cons in Hin as [Hin|Hin]; [done|].
    apply elem_of_app in Hin as [Hin|Hin].
    - rewrite Forall_forall in Hus. by apply Hus in Hin.
    - apply list_elem_of_singleton in Hin. by injection Hin. }
  rewrite Hraise in Hres.
  assert (Hclean : cleanup_upload j = Raise e)
    by (destruct (cleanup_upload j); congruence).
  split; [exact Hclean|].
  assert (Ht : t.1 = (CallUpdate (Some RUNNING) p0 st0 msg0
                      :: us ++ [CallCompleted results_]) ++ [CallFailed e]).
  { unfold t, process_file_background.
    destruct (try_swallow (process_file_body j path file_type_ threshold
                             min_area)) as [_ H1].
    rewrite H1, Hraise, Hcs. done. }
  destruct (run_calls_completed m j now 0 p0 st0 msg0 us results_ d Hok Hl
              Hus) as (d1 & r & Hd1 & Hs1 & Hp1 & Hst1 & Hmsg1 & He1 & Hr1
                       & Hstore1 & Hfree1).
  cbv zeta in Hd1, Hstore1, Hfree1.
  destruct (run_calls_live m j now 0
              (CallUpdate (Some RUNNING) p0 st0 msg0
               :: us ++ [CallCompleted results_]) d Hok Hl) as (Hok1 & _).
  set (m1 := run_calls m j now 0
               (CallUpdate (Some RUNNING) p0 st0 msg0
                :: us ++ [CallCompleted results_])) in *.
  assert (Hm' : m' = do_call m1 j (CallFailed e)
                       (now (0 + length (CallUpdate (Some RUNNING) p0 st0 msg0
                                         :: us ++ [CallCompleted results_]))%nat)).
  { unfold m'. by rewrite Ht, run_calls_app. }
  destruct (do_call_job m1 j (CallFailed e)
              (now (0 + length (CallUpdate (Some RUNNING) p0 st0 msg0
                                :: us ++ [CallCompleted results_]))%nat)
              d1 Hok1 Hd1) as [Hok2 Hl2].
  destruct (do_call_store m1 j (CallFailed e)
              (now (0 + length (CallUpdate (Some RUNNING) p0 st0 msg0
                                :: us ++ [CallCompleted results_]))%nat)
              r _ Hok1 Hstore1 Hfree1) as [Hstore2 _].
  rewrite <- Hm' in Hok2, Hl2, Hstore2.
  eexists. exists r. split; [exact Hl2|]. simpl.
  rewrite Hst1, Hmsg1, Hr1. do 7 (split; [done|]).
  rewrite get_job_results_eq by done. simpl. by rewrite Hl2.
Qed.

End LateFailure.

Lemma sample_registered_exact_ok : registry_ok sample_registered_exact.
Proof. apply step_ok, registry_ok_empty. Qed.

Lemma sample_registered_exact_live :
  live_job sample_registered_exact "job-1"
  = Some (new_job "job-1" "video" "a.mp4" "t0" "t0").
Proof. reflexivity. Qed.

Lemma background_task_outcome_witness :
  registry_ok sample_registered
  ∧ (@process_file_background IEEE unit (SampleBackend 7 (Ok tt))
       "job-1" "a.mp4" "video" (@lit IEEE (1 # 2)) 300).2 = Ok tt.
Proof.
  pose proof (@background_task_outcome IEEE unit (SampleBackend 7 (Ok tt))
                "job-1" "a.mp4" "video" (@lit IEEE (1 # 2)) 300
                sample_registered sample_now _
                sample_registered_ok sample_registered_live) as H.
  cbv zeta in H. destruct H as [(H2 & _) _].
  split; [exact sample_registered_ok|exact H2].
Defined.

Lemma progress_never_decreases_witness :
  registry_ok sample_registered_exact
  ∧ (@progress Exact (new_job "job-1" "video" "a.mp4" "t0" "t0") <= 5)%R
  ∧ ∀ n : nat, ∃ d1 d2,
      live_job (run_calls sample_registered_exact "job-1" sample_now 0
                  (take n (@process_file_background Exact unit
                             (SampleBackend 7 (Ok tt)) "job-1" "a.mp4"
                             "video" (@lit Exact (1 # 2)) 300).1))
               "job-1" = Some d1
      ∧ live_job (run_calls sample_registered_exact "job-1" sample_now 0
                    (take (S n) (@process_file_background Exact unit
                                   (SampleBackend 7 (Ok tt)) "job-1" "a.mp4"
                                   "video" (@lit Exact (1 # 2)) 300).1))
                 "job-1" = Some d2
      ∧ (progress d1 <= progress d2 <= 100)%R.
Proof.
  assert (Hp : (@progress Exact (new_job "job-1" "video" "a.mp4" "t0" "t0")
                <= 5)%R).
  { simpl. unfold f0_0. simpl. unfold Q2R. simpl. lra. }
  split; [exact sample_registered_exact_ok|]. split; [exact Hp|].
  pose proof (@progress_never_decreases unit (SampleBackend 7 (Ok tt))
                "job-1" "a.mp4" "video" (@lit Exact (1 # 2)) 300
                sample_registered_exact sample_now _
                sample_registered_exact_ok sample_registered_exact_live Hp)
    as H.
  cbv zeta in H. exact (proj1 H).
Defined.

Lemma short_video_fails_witness :
  (length (replicate 3 ()) < 5)%nat
  ∧ ∃ d' e,
      live_job (run_calls sample_registered "job-1" sample_now 0
                  (@process_file_background IEEE unit
                     (SampleBackend 3 (Ok tt)) "job-1" "a.mp4" "video"
                     (@lit IEEE (1 # 2)) 300).1) "job-1" = Some d'
      ∧ status d' = FAILED ∧ error d' = Some e.
Proof.
  assert (Hlen : (length (replicate 3 ()) < 5)%nat) by (simpl; lia).
  split; [exact Hlen|].
  pose proof (@short_video_fails IEEE unit (SampleBackend 3 (Ok tt))
                "job-1" "a.mp4" (@lit IEEE (1 # 2)) 300
                sample_registered sample_now _ (replicate 3 ())
                (@lit IEEE (30 # 1)) (replicate 3 ())
                sample_registered_ok sample_registered_live
                eq_refl eq_refl eq_refl Hlen) as H.
  cbv zeta in H. destruct H as (d' & e & Hl & Hs & He & _).
  exists d', e. split; [exact Hl|]. split; [exact Hs|exact He].
Defined.

Lemma failure_after_completion_witness :
  (@process_file_body IEEE unit (SampleBackend 7 (Raise "busy"))
     "job-1" "a.mp4" "video" (@lit IEEE (1 # 2)) 300).2 = Raise "busy"
  ∧ ∃ d', live_job
            (run_calls sample_registered "job-1" sample_now 0
               (@process_file_background IEEE unit
                  (SampleBackend 7 (Raise "busy")) "job-1" "a.mp4" "video"
                  (@lit IEEE (1 # 2)) 300).1) "job-1" = Some d'
          ∧ status d' = FAILED ∧ is_Some (results d').
Proof.
  assert (H2 : (@process_file_body IEEE unit (SampleBackend 7 (Raise "busy"))
                  "job-1" "a.mp4" "video" (@lit IEEE (1 # 2)) 300).2
               = Raise "busy") by reflexivity.
  assert (Hin : CallCompleted ()
                ∈ (@process_file_body IEEE unit
                     (SampleBackend 7 (Raise "busy")) "job-1" "a.mp4"
                     "video" (@lit IEEE (1 # 2)) 300).1).
  { apply (list_elem_of_lookup_2 _ 12). reflexivity. }
  split; [exact H2|].
  pose proof (@failure_after_completion IEEE unit
                (SampleBackend 7 (Raise "busy")) "job-1" "a.mp4" "video"
                (@lit IEEE (1 # 2)) 300 sample_registered sample_now _ ()
                "busy" sample_registered_ok sample_registered_live H2 Hin)
    as H.
  cbv zeta in H. destruct H as (_ & d' & r & Hl & Hs & _ & _ & _ & _ & Hr & _).
  exists d'. split; [exact Hl|]. split; [exact Hs|]. by exists r.
Defined.

(** *** Polling while the task runs *)

Section Polling.
Context `{PF : PyFloat} {payload : Type}.
Implicit Types (m : @JobManager PF payload) (d : @job PF)
  (c : registry_call payload) (cs : list (registry_call payload))
  (j : string).

(** Two registries in which job [j] is the same but for the reference in
    its results field, which in both points to a results dict with the
    same content, if it is set. *)
Lemma polling_invariant m1 m2 j now k
    (sched : list (registry_call payload + string)) d1 d2 :
  registry_ok m1 → registry_ok m2 →
  live_job m1 j = Some d1 → live_job m2 j = Some d2 →
  (status d1 = status d2 ∧ progress d1 = progress d2
   ∧ stage d1 = stage d2 ∧ message d1 = message d2
   ∧ error d1 = error d2 ∧ updated_at d1 = updated_at d2
   ∧ job_id d1 = job_id d2 ∧ file_type d1 = file_type d2
   ∧ filename d1 = filename d2 ∧ created_at d1 = created_at d2) →
  (results d1 = None ∧ results d2 = None
   ∨ ∃ r1 r2 p, results d1 = Some r1 ∧ results d2 = Some r2
       ∧ store m1 !! r1 = Some (ResultsDict p)
       ∧ store m2 !! r2 = Some (ResultsDict p)
       ∧ (∀ j', jobs m1 !! j' ≠ Some r1) ∧ (∀ j', jobs m2 !! j' ≠ Some r2)) →
  ∃ d1' d2',
    live_job (run_schedule m1 j now k sched) j = Some d1'
    ∧ live_job (run_calls m2 j now k (task_calls sched)) j = Some d2'
    ∧ status d1' = status d2' ∧ progress d1' = progress d2'
    ∧ stage d1' = stage d2' ∧ message d1' = message d2'
    ∧ error d1' = error d2' ∧ updated_at d1' = updated_at d2'
    ∧ job_id d1' = job_id d2' ∧ file_type d1' = file_type d2'
    ∧ filename d1' = filename d2' ∧ created_at d1' = created_at d2'
    ∧ (results d1' = None ∧ results d2' = None
       ∨ ∃ r1 r2 p, results d1' = Some r1 ∧ results d2' = Some r2
           ∧ store (run_schedule m1 j now k sched) !! r1
             = Some (ResultsDict p)
           ∧ store (run_calls m2 j now k (task_calls sched)) !! r2
             = Some (ResultsDict p)).
Proof.
  revert m1 m2 k d1 d2.
  induction sched as [|[c|j'] sched IH];
    intros m1 m2 k d1 d2 Hok1 Hok2 Hl1 Hl2 Heq Hres.
  - simpl. exists d1, d2. split; [done|]. split; [done|].
    destruct Heq as (? & ? & ? & ? & ? & ? & ? & ? & ? & ?).
    do 10 (split; [done|]).
    destruct Hres as [?|(r1 & r2 & p & ? & ? & ? & ? & _)]; [by left|].
    right. by exists r1, r2, p.
  - change (task_calls (inl c :: sched)) with (c :: task_calls sched).
    cbn [run_schedule run_calls].
    destruct (do_call_job m1 j c (now k) d1 Hok1 Hl1) as [Hok1' Hl1'].
    destruct (do_call_job m2 j c (now k) d2 Hok2 Hl2) as [Hok2' Hl2'].
    destruct Heq as (E1 & E2 & E3 & E4 & E5 & E6 & E7 & E8 & E9 & E10).
    eapply (IH _ _ (S k)); [exact Hok1'|exact Hok2'|exact Hl1'|exact Hl2'|..].
    + destruct c as [s p st msg | e | res]; simpl;
        repeat split; congruence.
    + destruct c as [s p st msg | e | res].
      * destruct Hres as [[H1 H2]|(r1 & r2 & p' & H1 & H2 & S1 & S2 & F1 & F2)].
        -- left. simpl. by rewrite H1, H2.
        -- right. exists r1, r2, p'. simpl. rewrite H1, H2.
           destruct (do_call_store m1 j (CallUpdate s p st msg) (now k) r1 _
                       Hok1 S1 F1) as [? ?].
           destruct (do_call_store m2 j (CallUpdate s p st msg) (now k) r2 _
                       Hok2 S2 F2) as [? ?].
           done.
      * destruct Hres as [[H1 H2]|(r1 & r2 & p' & H1 & H2 & S1 & S2 & F1 & F2)].
        -- left. simpl. by rewrite H1, H2.
        -- right. exists r1, r2, p'. simpl. rewrite H1, H2.
           destruct (do_call_store m1 j (CallFailed e) (now k) r1 _
                       Hok1 S1 F1) as [? ?].
           destruct (do_call_store m2 j (CallFailed e) (now k) r2 _
                       Hok2 S2 F2) as [? ?].
           done.
      * right. exists (fresh (dom (store m1))), (fresh (dom (store m2))), res.
        destruct (do_call_completed_store m1 j res (now k) Hok1) as [? ?].
        destruct (do_call_completed_store m2 j res (now k) Hok2) as [? ?].
        done.
  - change (task_calls (inr j' :: sched)) with (task_calls sched).
    cbn [run_schedule].
    destruct (get_job_state m1 j' Hok1) as (Hok1' & Hlive & _).
    eapply (IH _ _ k); [exact Hok1'|exact Hok2| |exact Hl2|exact Heq|].
    + by rewrite Hlive.
    + destruct Hres as [?|(r1 & r2 & p' & H1 & H2 & S1 & S2 & F1 & F2)];
        [by left|].
      right. exists r1, r2, p'.
      destruct (step_store m1 (GetJob j') r1 _ Hok1 S1 F1) as [? ?].
      done.
Qed.

(** X26.  Polling does not disturb processing.  Whatever reads of the
    registry other threads make between the calls of a task, a job that
    had no results when the task started ends with the same status,
    progress, stage, message, error and time stamp as if the task had run
    alone, and its results field, if set, points to a results dict of the
    same content. *)
Theorem polling_does_not_disturb m j now
    (sched : list (registry_call payload + string)) d :
  registry_ok m → live_job m j = Some d → results d = None →
  ∃ d1 d2,
    live_job (run_schedule m j now 0 sched) j = Some d1
    ∧ live_job (run_calls m j now 0 (task_calls sched)) j = Some d2
    ∧ status d1 = status d2 ∧ progress d1 = progress d2
    ∧ stage d1 = stage d2 ∧ message d1 = message d2
    ∧ error d1 = error d2 ∧ updated_at d1 = updated_at d2
    ∧ job_id d1 = job_id d2 ∧ file_type d1 = file_type d2
    ∧ filename d1 = filename d2 ∧ created_at d1 = created_at d2
    ∧ (results d1 = None ∧ results d2 = None
       ∨ ∃ r1 r2 p, results d1 = Some r1 ∧ results d2 = Some r2
           ∧ store (run_schedule m j now 0 sched) !! r1
             = Some (ResultsDict p)
           ∧ store (run_calls m j now 0 (task_calls sched)) !! r2
             = Some (ResultsDict p)).
Proof.
  intros Hok Hl Hres.
  apply (polling_invariant m m j now 0 sched d d Hok Hok Hl Hl).
  - by repeat split.
  - by left.
Qed.

End Polling.

Lemma polling_does_not_disturb_witness :
  registry_ok sample_registered
  ∧ ∃ d1 d2,
      live_job (run_schedule sample_registered "job-1" sample_now 0
                  [inl (CallUpdate (Some RUNNING) None None None);
                   inr "job-1"; inl (CallCompleted ()); inr "job-2"])
               "job-1" = Some d1
      ∧ live_job (run_calls sample_registered "job-1" sample_now 0
                    [CallUpdate (Some RUNNING) None None None;
                     CallCompleted ()]) "job-1" = Some d2
      ∧ status d1 = status d2.
Proof.
  split; [exact sample_registered_ok|].
  destruct (@polling_does_not_disturb IEEE unit sample_registered "job-1"
              sample_now
              [inl (CallUpdate (Some RUNNING) None None None);
               inr "job-1"; inl (CallCompleted ()); inr "job-2"]
              _ sample_registered_ok sample_registered_live eq_refl)
    as (d1 & d2 & H1 & H2 & Hs & _).
  exists d1, d2. split; [exact H1|]. split; [exact H2|exact Hs].
Defined.
